(** * Sightline demo: the agentic tool-use loop and its collaborators

    A shallow embedding of three TypeScript units of the repository:

    - [src/lib/cdata.ts]: the JSON-RPC client [mcpRequest] with its
      server-sent-events decoder and its module-level request counter;
    - [contexts/CDataContext.tsx]: the credential cache ([getValidToken],
      [doRefreshToken]) and the retry wrapper [withAutoRefresh];
    - [src/lib/llm.ts]: [sendMessage] and the agentic loop [chat].

    Asynchronous functions are embedded as state-passing computations that
    either return or throw.  Everything outside the program (the network,
    the caller's callbacks, the clock) is an oracle that answers from the
    history of the interaction so far, so that any deterministic
    environment is an instance. *)

From Stdlib Require Import String Ascii ZArith List Lia Bool.
From stdpp Require Import base option list strings gmap pretty sorting.
Import ListNotations.

Local Open Scope Z_scope.
Local Open Scope string_scope.
Local Open Scope list_scope.

(** * JavaScript values and the built-ins the code calls *)

Module JS.

(** A JavaScript value of type [unknown]: JSON data, [undefined], or an
    [Error] instance.  Object fields are kept in source order; a lookup
    takes the first binding of a key.  Numbers are the integers, which is
    all the code below ever computes with (a request counter, token
    counts, timestamps) or tests (zero is falsy); JavaScript's numbers are
    exact on the integers up to 2^53, and no run gets near that. *)
#[warnings="-register-all"]
Inductive JSValue : Type :=
| JSUndefined
| JSNull
| JSBool (b : bool)
| JSNumber (n : Z)
| JSString (s : string)
| JSArray (items : list JSValue)
| JSObject (fields : list (string * JSValue))
| JSError (message : string).

(** What a call does: it returns a value or throws one (for a promise:
    fulfils or rejects). *)
Inductive Outcome (A : Type) : Type :=
| Returns (a : A)
| Throws (e : JSValue).
Arguments Returns {A} a.
Arguments Throws {A} e.

(** [ToBoolean]: [if (v)], [!v], [v || d]. *)
Definition truthy (v : JSValue) : bool :=
  match v with
  | JSUndefined | JSNull => false
  | JSBool b => b
  | JSNumber n => negb (Z.eqb n 0)
  | JSString s => negb (String.eqb s "")
  | JSArray _ | JSObject _ | JSError _ => true
  end.

(** A string used as a condition, [if (s)]. *)
Definition truthy_string (s : string) : bool := negb (String.eqb s "").

(** [s || d] where [s] is an optional string: [undefined] and the empty
    string both give [d]. *)
Definition or_string (s : option string) (d : string) : string :=
  match s with
  | Some t => if truthy_string t then t else d
  | None => d
  end.

Fixpoint assoc (k : string) (fields : list (string * JSValue)) : JSValue :=
  match fields with
  | [] => JSUndefined
  | (k', v) :: rest => if String.eqb k k' then v else assoc k rest
  end.

(** Property read [v.k] for a key that no prototype defines apart from
    [Error.prototype.message]: a [TypeError] on [undefined] and [null],
    [undefined] on the other primitives and on arrays. *)
Definition get_prop (v : JSValue) (k : string) : Outcome JSValue :=
  match v with
  | JSUndefined =>
      Throws (JSError ("Cannot read properties of undefined (reading '" +:+ k +:+ "')"))
  | JSNull =>
      Throws (JSError ("Cannot read properties of null (reading '" +:+ k +:+ "')"))
  | JSObject fields => Returns (assoc k fields)
  | JSError m => Returns (if String.eqb k "message" then JSString m else JSUndefined)
  | _ => Returns JSUndefined
  end.

(** ** Strings *)

(** [s.startsWith(p)] *)
Definition startsWith (s p : string) : bool := String.prefix p s.

(** [s.slice(n)] for [0 <= n] *)
Fixpoint slice (n : nat) (s : string) : string :=
  match n, s with
  | O, _ => s
  | S n', String _ s' => slice n' s'
  | S _, EmptyString => EmptyString
  end.

(** [s.includes(needle)] *)
Fixpoint includes (s needle : string) : bool :=
  String.prefix needle s ||
  match s with
  | EmptyString => false
  | String _ s' => includes s' needle
  end.

Definition newline : ascii := "010"%char.

(** [s.split("\n")]: never empty, [""] splits into [[""]]. *)
Fixpoint split_lines (s : string) : list string :=
  match s with
  | EmptyString => [EmptyString]
  | String c s' =>
      if Ascii.eqb c newline then EmptyString :: split_lines s'
      else match split_lines s' with
           | l :: ls => String c l :: ls
           | [] => [String c EmptyString]
           end
  end.

(** [parts.join("\n")] *)
Definition join_lines (parts : list string) : string :=
  String.concat (String newline EmptyString) parts.

(** The built-ins whose full definition (Unicode tables, the JSON grammar,
    number formatting) lies outside the program.  The code is embedded
    over any implementation of them. *)
Class Runtime : Type := {
  (** [JSON.parse(s)]; throws a [SyntaxError] on malformed text *)
  JSON_parse : string -> Outcome JSValue;
  (** [JSON.stringify(v)]; [undefined] for a value with no JSON form,
      throws on cycles and on [BigInt] *)
  JSON_stringify : JSValue -> Outcome (option string);
  (** [s.trim()] *)
  trim : string -> string;
  (** [s.toLowerCase()] *)
  toLowerCase : string -> string;
  (** [String(v)] for a value that is not a string *)
  ToString : JSValue -> string;
}.

(** [new Error(m)]: without an argument ([undefined]) the message is the
    empty string of the prototype. *)
Definition new_Error `{Runtime} (m : JSValue) : JSValue :=
  match m with
  | JSUndefined => JSError ""
  | JSString s => JSError s
  | v => JSError (ToString v)
  end.

(** ** Computations: state passing with exceptions

    [Normal a] and [Throw e] are the two ways a JavaScript call completes.
    [OutOfFuel] is the embedding's own: the [while] loop of [chat] has no
    bound in the source, and the model unrolls it a given number of
    times. *)
Inductive Completion (A : Type) : Type :=
| Normal (a : A)
| Throw (e : JSValue)
| OutOfFuel.
Arguments Normal {A} a.
Arguments Throw {A} e.
Arguments OutOfFuel {A}.

Definition M (S A : Type) : Type := S -> Completion A * S.

Definition ret {S A} (a : A) : M S A := fun s => (Normal a, s).

Definition bind {S A B} (m : M S A) (k : A -> M S B) : M S B :=
  fun s =>
    match m s with
    | (Normal a, s') => k a s'
    | (Throw e, s') => (Throw e, s')
    | (OutOfFuel, s') => (OutOfFuel, s')
    end.

Definition throw {S A} (e : JSValue) : M S A := fun s => (Throw e, s).

Definition out_of_fuel {S A} : M S A := fun s => (OutOfFuel, s).

(** [try { m } catch (e) { h e }]: the handler starts from the state the
    body had reached when it threw. *)
Definition try_catch {S A} (m : M S A) (h : JSValue -> M S A) : M S A :=
  fun s =>
    match m s with
    | (Throw e, s') => h e s'
    | r => r
    end.

(** [try { m } finally { f }] where [f] never throws. *)
Definition try_finally {S A} (m : M S A) (f : S -> S) : M S A :=
  fun s => let '(r, s') := m s in (r, f s').

Definition get {S} : M S S := fun s => (Normal s, s).
Definition modify {S} (f : S -> S) : M S unit := fun s => (Normal tt, f s).

(** An oracle's answer, taken from the current state. *)
Definition settle {S A} (o : S -> Outcome A) : M S A :=
  fun s =>
    match o s with
    | Returns a => (Normal a, s)
    | Throws e => (Throw e, s)
    end.

(** [for (const x of xs) { body x }] *)
Fixpoint for_of {S A} (xs : list A) (body : A -> M S unit) : M S unit :=
  match xs with
  | [] => ret tt
  | x :: rest => bind (body x) (fun _ => for_of rest body)
  end.

(** A relation between the state before and the state after that holds
    whatever way the computation completes. *)
Definition keeps {S A} (R : relation S) (m : M S A) : Prop :=
  forall s, R s (snd (m s)).

(** An oracle's answer as a completion. *)
Definition completion_of {A} (o : Outcome A) : Completion A :=
  match o with
  | Returns a => Normal a
  | Throws e => Throw e
  end.

End JS.

Import JS.

Declare Scope js_scope.
Delimit Scope js_scope with js.
Notation "x <- m ;; k" := (bind m (fun x => k))
  (at level 100, m at next level, right associativity) : js_scope.
Notation "m ;; k" := (bind m (fun _ => k))
  (at level 100, right associativity) : js_scope.
Local Open Scope js_scope.

(** * [src/lib/cdata.ts]: the JSON-RPC client *)

Module Cdata.

Definition MCP_BASE_URL : string := "https://mcp.cloud.cdata.com/mcp".

Record MCPRequest : Type := {
  jsonrpc : string;
  id : Z;
  method : string;
  params : option JSValue;
}.

(** One [fetch(MCP_BASE_URL, ...)]: the bearer token of the
    [Authorization] header and the request serialised in the body. *)
Record HttpCall : Type := {
  url : string;
  bearer : string;
  payload : MCPRequest;
}.

(** What [mcpRequest] reads of a [Response].  Reading the body
    ([response.text()], [response.json()]) can itself reject. *)
Record Response : Type := {
  ok : bool;
  status : Z;
  content_type : option string;   (* headers.get("content-type") *)
  body : Outcome string;
}.

(** Module state: [let requestId = 0], and the calls made on the network
    so far, oldest first. *)
Record State : Type := {
  requestId : Z;
  sent : list HttpCall;
}.

Definition initial : State := {| requestId := 0; sent := [] |}.

Section Client.

Context `{rt : Runtime}.

(** The network: the response to the last call of a history. *)
Variable net : list HttpCall -> Outcome Response.

(** [++requestId] *)
Definition pre_increment : M State Z :=
  fun st =>
    let n := requestId st + 1 in
    (Normal n, {| requestId := n; sent := sent st |}).

Definition fetch (call : HttpCall) : M State Response :=
  modify (fun st => {| requestId := requestId st; sent := sent st ++ [call] |}) ;;
  settle (fun st => net (sent st)).

(** The body of the loop over the lines of a streamed response; [data] is
    the variable the loop assigns. *)
Definition sse_line (data : JSValue) (line : string) : JSValue :=
  if startsWith line "data: " then
    let jsonStr := slice 6 line in
    if truthy_string (trim jsonStr) then
      match JSON_parse jsonStr with
      | Returns v => v
      | Throws _ => data          (* continue to next line if parse fails *)
      end
    else data
  else data.

Definition sse_scan (lines : list string) : JSValue :=
  fold_left sse_line lines JSNull.

(** [response.json()] *)
Definition response_json (response : Response) : M State JSValue :=
  text <- settle (fun _ => body response) ;;
  settle (fun _ => JSON_parse text).

Definition mcpRequest (token method : string) (params : option JSValue)
  : M State JSValue :=
  n <- pre_increment ;;
  let request :=
    {| jsonrpc := "2.0"; id := n; method := method; params := params |} in
  response <- fetch {| url := MCP_BASE_URL; bearer := token; payload := request |} ;;
  if negb (ok response) then
    throw (JSError ("MCP request failed: " +:+ pretty (status response)))
  else
    (* Handle SSE response format *)
    let contentType := or_string (content_type response) "" in
    if includes contentType "text/event-stream" then
      text <- settle (fun _ => body response) ;;
      let lines := split_lines text in
      let data := sse_scan lines in
      if negb (truthy data) then
        throw (JSError "No valid JSON data in SSE response")
      else
        err <- settle (fun _ => get_prop data "error") ;;
        if truthy err then
          msg <- settle (fun _ => get_prop err "message") ;;
          throw (new_Error msg)
        else settle (fun _ => get_prop data "result")
    else
      (* Fallback to regular JSON response *)
      data <- response_json response ;;
      err <- settle (fun _ => get_prop data "error") ;;
      if truthy err then
        msg <- settle (fun _ => get_prop err "message") ;;
        throw (new_Error msg)
      else settle (fun _ => get_prop data "result").

Definition listMCPTools (token : string) : M State JSValue :=
  result <- mcpRequest token "tools/list" None ;;
  settle (fun _ => get_prop result "tools").

Definition callMCPTool (token name : string) (args : JSValue) : M State JSValue :=
  result <- mcpRequest token "tools/call"
              (Some (JSObject [("name", JSString name); ("arguments", args)])) ;;
  ret result.

(** A session: the calls the application makes on this module, one after
    the other.  A call that throws leaves the module state as it was at
    the throw, and the session goes on. *)
Inductive Op : Type :=
| OpRequest (token method : string) (params : option JSValue)
| OpListTools (token : string)
| OpCallTool (token name : string) (args : JSValue).

Definition run_op (op : Op) : M State JSValue :=
  match op with
  | OpRequest token method params => mcpRequest token method params
  | OpListTools token => listMCPTools token
  | OpCallTool token name args => callMCPTool token name args
  end.

Definition session (ops : list Op) (st : State) : State :=
  fold_left (fun st op => snd (run_op op st)) ops st.

(** The ids of the requests sent so far, oldest first. *)
Definition sent_ids (st : State) : list Z := map (fun c => id (payload c)) (sent st).

(** The JSON value a line carries, when the line starts with ["data: "]
    and the rest of it is well-formed JSON. *)
Definition data_line_json (line : string) : option JSValue :=
  if startsWith line "data: " then
    match JSON_parse (slice 6 line) with
    | Returns v => Some v
    | Throws _ => None
    end
  else None.

(** The payload of a streamed body in the words of the specification: the
    last well-formed JSON-encoded data line. *)
Definition last_wellformed_data (text : string) : option JSValue :=
  last (omap data_line_json (split_lines text)).

(** What the plain-JSON path makes of a decoded payload. *)
Definition rpc_result (data : JSValue) : Completion JSValue :=
  match get_prop data "error" with
  | Throws e => Throw e
  | Returns err =>
      if truthy err then
        match get_prop err "message" with
        | Throws e => Throw e
        | Returns msg => Throw (new_Error msg)
        end
      else
        match get_prop data "result" with
        | Throws e => Throw e
        | Returns r => Normal r
        end
  end.

End Client.

(** The call that [mcpRequest] makes from a state, and the state after it. *)
Definition call_of (token method : string) (params : option JSValue) (st : State)
  : HttpCall :=
  {| url := MCP_BASE_URL; bearer := token;
     payload := {| jsonrpc := "2.0"; id := requestId st + 1;
                   method := method; params := params |} |}.

Definition after_call (c : HttpCall) (st : State) : State :=
  {| requestId := requestId st + 1; sent := sent st ++ [c] |}.

(** The counter bounds every id sent so far, and the ids sent so far
    increase strictly. *)
Definition ids_in_order (st : State) : Prop :=
  StronglySorted Z.lt (sent_ids st)
  /\ Forall (fun i => i <= requestId st) (sent_ids st).

End Cdata.

(** * [src/lib/cdata.ts]: the REST client and the query helper *)

Module CdataApi.

(** ** Values *)

(** [a || b] *)
Definition or_value (a b : JSValue) : JSValue := if truthy a then a else b.

Definition and_then {A B} (o : Outcome A) (k : A -> Outcome B) : Outcome B :=
  match o with
  | Returns a => k a
  | Throws e => Throws e
  end.

(** [items.map(f)] where [f] may throw: the first throw ends the loop. *)
Fixpoint map_outcome {A B} (f : A -> Outcome B) (items : list A) : Outcome (list B) :=
  match items with
  | [] => Returns []
  | x :: rest =>
      and_then (f x) (fun y => and_then (map_outcome f rest) (fun ys => Returns (y :: ys)))
  end.

(** ** Helper to convert query result to array of objects *)

Record QueryResultSchema : Type := {
  columnName : string;
  dataTypeName : string;
}.

Record QueryResult : Type := {
  schema : list QueryResultSchema;
  rows : list (list JSValue);
}.

(** [obj[k] = v] on a plain object, as it shows in the object's own
    properties: the key ["__proto__"] is the accessor of
    [Object.prototype] and adds no property of that name. *)
Definition assign (obj : gmap string JSValue) (k : string) (v : JSValue)
  : gmap string JSValue :=
  if String.eqb k "__proto__" then obj else <[k := v]> obj.

(** [schema.forEach((col, i) => { obj[col.columnName] = row[i]; })],
    from the column of index [i] on; [row[i]] is [undefined] past the end
    of the row. *)
Fixpoint fill (i : nat) (columns : list QueryResultSchema) (row : list JSValue)
    (obj : gmap string JSValue) : gmap string JSValue :=
  match columns with
  | [] => obj
  | col :: rest => fill (S i) rest row (assign obj (columnName col) (nth i row JSUndefined))
  end.

Definition queryResultToObjects (result : QueryResult) : list (gmap string JSValue) :=
  map (fun row => fill 0 (schema result) row ∅) (rows result).

(** ** The REST API *)

(** One [fetch(url, init)]: the method, the URL, the token of the
    [Authorization: Bearer] header and, for a request with a JSON body
    (sent with [Content-Type: application/json]), the value that
    [JSON.stringify] is applied to. *)
Record Request : Type := {
  verb : string;
  url : string;
  authorization : string;
  json_body : option JSValue;
}.

(** What the functions do to the outside, in order.  [console.log] prints
    a label and the indented JSON text of a value; the event keeps the
    value. *)
Inductive Event : Type :=
| EvFetch (request : Request)
| EvConsoleLog (label : string) (data : JSValue).

Definition State : Type := list Event.

Record Connection : Type := {
  id : JSValue;
  name : JSValue;
  driver : JSValue;
  iconUrl : JSValue;
}.

(** The value of [data.redirectURL || ... || data.connectionUrl]: a value
    read from the response or, when the response is a JSON string and the
    chain gets to [data.link], the method [String.prototype.link] (none
    of the other keys is defined by a prototype of a JSON value). *)
Inductive URLValue : Type :=
| Field (v : JSValue)
| String_prototype_link.

Definition url_truthy (u : URLValue) : bool :=
  match u with
  | Field v => truthy v
  | String_prototype_link => true
  end.

Definition read_field (data : JSValue) (k : string) : Outcome URLValue :=
  match data, String.eqb k "link" with
  | JSString _, true => Returns String_prototype_link
  | _, _ => and_then (get_prop data k) (fun v => Returns (Field v))
  end.

(** [data.k1 || data.k2 || ...]: the first truthy read, or the last read
    of all. *)
Fixpoint first_truthy (data : JSValue) (k : string) (others : list string)
  : Outcome URLValue :=
  match others with
  | [] => read_field data k
  | k' :: rest =>
      and_then (read_field data k)
        (fun u => if url_truthy u then Returns u else first_truthy data k' rest)
  end.

Definition url_of (data : JSValue) : Outcome URLValue :=
  first_truthy data "redirectURL" ["url"; "URL"; "redirectUrl"; "link"; "connectionUrl"].

(** The field names that [url_of] tries, in its order. *)
Definition url_fields : list string :=
  ["redirectURL"; "url"; "URL"; "redirectUrl"; "link"; "connectionUrl"].

(** [Array.isArray(data) ? data : (data.connections || [])], as the array
    that [.map] is then called on; on anything else [.map] is not a
    function. *)
Definition connections_of (data : JSValue) : Outcome (list JSValue) :=
  match data with
  | JSArray items => Returns items
  | _ =>
      and_then (get_prop data "connections")
        (fun c =>
           match or_value c (JSArray []) with
           | JSArray items => Returns items
           | _ => Throws (JSError "connections.map is not a function")
           end)
  end.

(** The callback of [connections.map] *)
Definition connection_of (conn : JSValue) : Outcome Connection :=
  and_then (get_prop conn "id") (fun conn_id =>
  and_then (get_prop conn "name") (fun conn_name =>
  and_then (get_prop conn "dataSource") (fun dataSource =>
  and_then (if truthy dataSource then Returns dataSource
            else and_then (get_prop conn "driver")
                   (fun d => Returns (or_value d (JSString "")))) (fun conn_driver =>
  and_then (get_prop conn "iconUrl") (fun icon1 =>
  and_then (if truthy icon1 then Returns icon1
            else and_then (get_prop conn "icon")
                   (fun icon2 => if truthy icon2 then Returns icon2
                                 else get_prop conn "logoUrl")) (fun conn_icon =>
  Returns {| id := conn_id; name := conn_name; driver := conn_driver;
             iconUrl := conn_icon |})))))).

(** Get logo URL for a data source from CData Azure CDN *)
Definition getDataSourceLogoURL (driver : string) : string :=
  "https://cdata-cloudprod.azureedge.net/driver-icons/" +:+ driver +:+ ".svg".

Section Api.

Context `{rt : Runtime}.

(** [isDevServer()], read once when the module loads *)
Variable isDevServer : bool.
(** [window.location.origin] and [window.location.pathname] *)
Variable location_origin : string.
Variable location_pathname : string.

(** The network: the response to the last request of a history. *)
Variable net : list Event -> Outcome Cdata.Response.

Definition API_BASE_URL : string :=
  if isDevServer then "/cdata-api" else "https://cloud.cdata.com/api".

Definition fetch (request : Request) : M State Cdata.Response :=
  modify (fun tr => tr ++ [EvFetch request]) ;;
  settle net.

(** [response.text()] and [response.json()] *)
Definition response_text (response : Cdata.Response) : M State string :=
  settle (fun _ => Cdata.body response).

Definition response_json (response : Cdata.Response) : M State JSValue :=
  text <- response_text response ;;
  settle (fun _ => JSON_parse text).

Definition console_log (label : string) (data : JSValue) : M State unit :=
  modify (fun tr => tr ++ [EvConsoleLog label data]).

(** REST API query function - direct SQL queries without MCP *)
Definition queryData (token sql : string) : M State JSValue :=
  response <- fetch {| verb := "POST"; url := API_BASE_URL +:+ "/query";
                       authorization := token;
                       json_body := Some (JSObject [("query", JSString sql)]) |} ;;
  if negb (Cdata.ok response) then
    errorText <- response_text response ;;
    throw (JSError ("API query failed: " +:+ pretty (Cdata.status response)
                    +:+ " - " +:+ errorText))
  else response_json response.

Definition list_request (token : string) : Request :=
  {| verb := "GET"; url := API_BASE_URL +:+ "/poweredby/connection/list";
     authorization := token; json_body := None |}.

(** List all connections for the subscriber *)
Definition listConnections (token : string) : M State (list Connection) :=
  response <- fetch (list_request token) ;;
  if negb (Cdata.ok response) then
    errorText <- response_text response ;;
    throw (JSError ("Failed to list connections: " +:+ pretty (Cdata.status response)
                    +:+ " - " +:+ errorText))
  else
    data <- response_json response ;;
    console_log "Connection list API response:" data ;;
    (* API returns array of connections directly or in a connections property *)
    connections <- settle (fun _ => connections_of data) ;;
    settle (fun _ => map_outcome connection_of connections).

(** Delete a connection by ID *)
Definition deleteConnection (token connectionId : string) : M State unit :=
  response <- fetch {| verb := "DELETE";
                       url := API_BASE_URL +:+ "/poweredby/connection/delete/"
                              +:+ connectionId;
                       authorization := token; json_body := None |} ;;
  if negb (Cdata.ok response) then
    errorText <- response_text response ;;
    throw (JSError ("Failed to delete connection: " +:+ pretty (Cdata.status response)
                    +:+ " - " +:+ errorText))
  else ret tt.

(** What the two URL functions make of a response that is in order. *)
Definition url_result (data : JSValue) : Completion URLValue :=
  match url_of data with
  | Throws e => Throw e
  | Returns u =>
      if url_truthy u then Normal u
      else match JSON_stringify data with
           | Throws e => Throw e
           | Returns str =>
               Throw (JSError ("API response missing URL field. Response: "
                               +:+ default "undefined" str))
           end
  end.

(** [redirectUrl || window.location.origin + window.location.pathname] *)
Definition redirect_of (redirectUrl : option string) : string :=
  or_string redirectUrl (location_origin +:+ location_pathname).

Definition create_request (token : string) (body : JSValue) : Request :=
  {| verb := "POST"; url := API_BASE_URL +:+ "/poweredby/connection/create";
     authorization := token; json_body := Some body |}.

(** Get connection creation URL for a specific driver *)
Definition getConnectionCreateURL (token dataSource connectionName : string)
    (redirectUrl : option string) : M State URLValue :=
  (* Use current page URL as redirect if not specified *)
  let redirect := redirect_of redirectUrl in
  response <- fetch (create_request token
                       (JSObject [("dataSource", JSString dataSource);
                                  ("name", JSString connectionName);
                                  ("redirectURL", JSString redirect)])) ;;
  if negb (Cdata.ok response) then
    errorText <- response_text response ;;
    throw (JSError ("Failed to get connection URL: " +:+ pretty (Cdata.status response)
                    +:+ " - " +:+ errorText))
  else
    data <- response_json response ;;
    console_log "Connection create API response:" data ;;
    (* Try different possible field names for the URL *)
    u <- settle (fun _ => url_of data) ;;
    if negb (url_truthy u) then
      str <- settle (fun _ => JSON_stringify data) ;;
      throw (JSError ("API response missing URL field. Response: "
                      +:+ default "undefined" str))
    else ret u.

(** Get generic connection picker URL (no specific driver) *)
Definition getGenericConnectionURL (token : string) (redirectUrl : option string)
  : M State URLValue :=
  (* Use current page URL as redirect if not specified *)
  let redirect := redirect_of redirectUrl in
  response <- fetch (create_request token
                       (JSObject [("redirectURL", JSString redirect)])) ;;
  if negb (Cdata.ok response) then
    errorText <- response_text response ;;
    throw (JSError ("Failed to get connection URL: " +:+ pretty (Cdata.status response)
                    +:+ " - " +:+ errorText))
  else
    data <- response_json response ;;
    console_log "Generic connection create API response:" data ;;
    (* Try different possible field names for the URL *)
    u <- settle (fun _ => url_of data) ;;
    if negb (url_truthy u) then
      str <- settle (fun _ => JSON_stringify data) ;;
      throw (JSError ("API response missing URL field. Response: "
                      +:+ default "undefined" str))
    else ret u.

End Api.

(** What a computation throws, if it throws. *)
Definition thrown {A} (m : M State A) (tr : State) : option JSValue :=
  match fst (m tr) with
  | Throw e => Some e
  | _ => None
  end.

(** The requests of a history, oldest first. *)
Definition requests (tr : State) : list Request :=
  omap (fun ev => match ev with EvFetch r => Some r | _ => None end) tr.

End CdataApi.

(** * [contexts/CDataContext.tsx]: the credential cache *)

Module CDataContext.

(** What the provider does to the outside, in order. *)
Inductive Event : Type :=
| EvGenerateJWT                     (* generateJWT(): one acquisition *)
| EvListMCPTools (token : string)   (* listMCPTools(token) *)
| EvDateNow                         (* Date.now() *)
| EvSleep (ms : Z)                  (* setTimeout(resolve, ms) *)
| EvConsoleLog (msg : string)
| EvApiCall (token : string).       (* apiCall(token) *)

(** The refs and the React state of [CDataProvider]. *)
Record State : Type := {
  tokenRef : option string;         (* useRef<string | null>(null) *)
  tokenExpiryRef : Z;               (* useRef<number>(0) *)
  isRefreshingRef : bool;           (* useRef(false) *)
  token : option string;
  tools : JSValue;
  isLoading : bool;
  error : option string;
  trace : list Event;
}.

Definition initial : State :=
  {| tokenRef := None; tokenExpiryRef := 0; isRefreshingRef := false;
     token := None; tools := JSArray []; isLoading := true; error := None;
     trace := [] |}.

Definition set_tokenRef (v : option string) (st : State) : State :=
  {| tokenRef := v; tokenExpiryRef := tokenExpiryRef st;
     isRefreshingRef := isRefreshingRef st; token := token st;
     tools := tools st; isLoading := isLoading st; error := error st;
     trace := trace st |}.

Definition set_tokenExpiryRef (v : Z) (st : State) : State :=
  {| tokenRef := tokenRef st; tokenExpiryRef := v;
     isRefreshingRef := isRefreshingRef st; token := token st;
     tools := tools st; isLoading := isLoading st; error := error st;
     trace := trace st |}.

Definition set_isRefreshingRef (v : bool) (st : State) : State :=
  {| tokenRef := tokenRef st; tokenExpiryRef := tokenExpiryRef st;
     isRefreshingRef := v; token := token st;
     tools := tools st; isLoading := isLoading st; error := error st;
     trace := trace st |}.

Definition setToken (v : option string) (st : State) : State :=
  {| tokenRef := tokenRef st; tokenExpiryRef := tokenExpiryRef st;
     isRefreshingRef := isRefreshingRef st; token := v;
     tools := tools st; isLoading := isLoading st; error := error st;
     trace := trace st |}.

Definition setTools (v : JSValue) (st : State) : State :=
  {| tokenRef := tokenRef st; tokenExpiryRef := tokenExpiryRef st;
     isRefreshingRef := isRefreshingRef st; token := token st;
     tools := v; isLoading := isLoading st; error := error st;
     trace := trace st |}.

Definition setIsLoading (v : bool) (st : State) : State :=
  {| tokenRef := tokenRef st; tokenExpiryRef := tokenExpiryRef st;
     isRefreshingRef := isRefreshingRef st; token := token st;
     tools := tools st; isLoading := v; error := error st;
     trace := trace st |}.

Definition setError (v : option string) (st : State) : State :=
  {| tokenRef := tokenRef st; tokenExpiryRef := tokenExpiryRef st;
     isRefreshingRef := isRefreshingRef st; token := token st;
     tools := tools st; isLoading := isLoading st; error := v;
     trace := trace st |}.

Definition log_event (ev : Event) (st : State) : State :=
  {| tokenRef := tokenRef st; tokenExpiryRef := tokenExpiryRef st;
     isRefreshingRef := isRefreshingRef st; token := token st;
     tools := tools st; isLoading := isLoading st; error := error st;
     trace := trace st ++ [ev] |}.

(** [tokenRef.current] as a condition: [null] and [""] are falsy. *)
Definition cached (st : State) : option string :=
  match tokenRef st with
  | Some t => if truthy_string t then Some t else None
  | None => None
  end.

Section Provider.

Context `{rt : Runtime}.

(** [hasCredentials()], fixed for the life of the page *)
Variable isConfigured : bool.
(** The outside world; each oracle sees the history up to and including
    the call it answers. *)
Variable generateJWT : list Event -> Outcome string.
Variable listMCPTools : list Event -> Outcome JSValue.
Variable Date_now : list Event -> Z.
Variable apiCall : list Event -> Outcome JSValue.

Definition await {A} (ev : Event) (oracle : list Event -> Outcome A) : M State A :=
  modify (log_event ev) ;;
  settle (fun st => oracle (trace st)).

Definition read_clock : M State Z :=
  modify (log_event EvDateNow) ;;
  st <- get ;;
  ret (Date_now (trace st)).

(** The token that the guard against concurrent refreshes hands back:
    when a refresh is marked in flight, wait 500 ms and reuse
    [tokenRef.current] if it is set.  What another refresh may do to the
    refs during the wait is not modelled: the refs are read as they were
    before it. *)
Definition wait_for_refresh : M State (option string) :=
  st <- get ;;
  if isRefreshingRef st then
    modify (log_event (EvSleep 500)) ;;
    st' <- get ;;
    ret (cached st')
  else ret None.

Definition doRefreshToken : M State string :=
  if negb isConfigured then throw (JSError "CData credentials not configured")
  else
    reused <- wait_for_refresh ;;
    match reused with
    | Some t => ret t
    | None =>
        modify (set_isRefreshingRef true) ;;
        try_finally
          (try_catch
             (newToken <- await EvGenerateJWT generateJWT ;;
              (* Update both state and ref *)
              modify (setToken (Some newToken)) ;;
              modify (set_tokenRef (Some newToken)) ;;
              (* JWT is valid for 2 hours, refresh 5 min before *)
              now <- read_clock ;;
              modify (set_tokenExpiryRef (now + 2 * 60 * 60 * 1000 - 5 * 60 * 1000)) ;;
              (* Load available MCP tools *)
              availableTools <- await (EvListMCPTools newToken) listMCPTools ;;
              modify (setTools availableTools) ;;
              modify (setError None) ;;
              ret newToken)
             (fun err =>
                modify (setError (Some match err with
                                       | JSError m => m
                                       | _ => "Failed to initialize"
                                       end)) ;;
                modify (setToken None) ;;
                modify (set_tokenRef None) ;;
                modify (setTools (JSArray [])) ;;
                throw err))
          (set_isRefreshingRef false)
    end.

Definition refreshToken : M State unit :=
  modify (setIsLoading true) ;;
  try_finally (doRefreshToken ;; ret tt) (setIsLoading false).

(** [!tokenRef.current || Date.now() >= tokenExpiryRef.current]: the
    clock is read only when a token is there. *)
Definition isTokenExpired : M State bool :=
  st <- get ;;
  match cached st with
  | None => ret true
  | Some _ =>
      now <- read_clock ;;
      ret (Z.leb (tokenExpiryRef st) now)
  end.

Definition getValidToken : M State string :=
  st <- get ;;
  match cached st with
  | Some t =>
      expired <- isTokenExpired ;;
      if negb expired then ret t else doRefreshToken
  | None => doRefreshToken
  end.

(** [err instanceof Error && (...)] *)
Definition isAuthError (err : JSValue) : bool :=
  match err with
  | JSError message =>
      includes message "401" ||
      includes (toLowerCase message) "unauthorized" ||
      includes (toLowerCase message) "authentication" ||
      includes (toLowerCase message) "token"
  | _ => false
  end.

Definition withAutoRefresh : M State JSValue :=
  currentToken <- getValidToken ;;
  try_catch
    (await (EvApiCall currentToken) apiCall)
    (fun err =>
       if isAuthError err then
         (* Force refresh and retry once *)
         modify (log_event (EvConsoleLog "Auth error detected, refreshing token and retrying...")) ;;
         newToken <- doRefreshToken ;;
         await (EvApiCall newToken) apiCall
       else throw err).

End Provider.

Definition is_acquisition (ev : Event) : bool :=
  match ev with EvGenerateJWT => true | _ => false end.

Definition is_api_call (ev : Event) : bool :=
  match ev with EvApiCall _ => true | _ => false end.

(** The acquisitions and the API calls of a state's history. *)
Definition acquisitions (st : State) : list Event :=
  List.filter is_acquisition (trace st).

Definition api_calls (st : State) : list Event :=
  List.filter is_api_call (trace st).

(** No refresh is left marked in flight, if none was. *)
Definition stays_clear : relation State :=
  fun s s' => isRefreshingRef s = false -> isRefreshingRef s' = false.

(** The message that a failed refresh records:
    [err instanceof Error ? err.message : "Failed to initialize"] *)
Definition refresh_error (err : JSValue) : string :=
  match err with JSError m => m | _ => "Failed to initialize" end.

(** The events a computation adds to the history. *)
Definition added (s s' : State) (evs : list Event) : Prop :=
  trace s' = trace s ++ evs.

End CDataContext.

(** * [contexts/CDataContext.tsx] on [src/lib/cdata.ts]: [callTool]

    [callTool] is [withAutoRefresh] around [callMCPTool], and a refresh
    lists the tools with [listMCPTools]: both go through [mcpRequest] and
    share its counter and its network. *)

Module CDataProvider.

Import CDataContext.

(** The provider's refs and state, and the state of the module
    [cdata.ts]. *)
Definition State : Type := (CDataContext.State * Cdata.State)%type.

(** A promise of the client as the provider awaits it.  The client has
    no loop, so that its computations never run out of fuel. *)
Definition settled {A} (c : Completion A) : Outcome A :=
  match c with
  | Normal a => Returns a
  | Throw e => Throws e
  | OutOfFuel => Throws JSUndefined
  end.

Section Wired.

Context `{rt : Runtime}.

Variable isConfigured : bool.
Variable generateJWT : list Event -> Outcome string.
Variable Date_now : list Event -> Z.
Variable net : list Cdata.HttpCall -> Outcome Cdata.Response.

(** The arguments of [callTool]. *)
Variable name : string.
Variable args : JSValue.

(** The call on [cdata.ts] that an event of the provider stands for:
    [listMCPTools(newToken)] in a refresh, and
    [(t) => callMCPTool(t, name, args)] for the wrapped call. *)
Definition op_of (ev : Event) : option Cdata.Op :=
  match ev with
  | EvListMCPTools t => Some (Cdata.OpListTools t)
  | EvApiCall t => Some (Cdata.OpCallTool t name args)
  | _ => None
  end.

(** The module state after the events that a run has added to the
    history, from the module state at its start. *)
Definition module_after (cst : Cdata.State) (evs : list Event) : Cdata.State :=
  Cdata.session net (omap op_of evs) cst.

(** What the module answers to the last of the events of a run. *)
Definition answer (cst : Cdata.State) (evs : list Event) : Outcome JSValue :=
  match last evs ≫= op_of with
  | Some op => settled (fst (Cdata.run_op net op (module_after cst (removelast evs))))
  | None => Throws JSUndefined
  end.

Definition callTool : M State JSValue :=
  fun '(st, cst) =>
    let during (tr : list Event) := drop (length (trace st)) tr in
    let client (tr : list Event) := answer cst (during tr) in
    let '(c, st') := withAutoRefresh isConfigured generateJWT client Date_now client st in
    (c, (st', module_after cst (during (trace st')))).

End Wired.

(** The requests that a run has put on the network. *)
Definition requests_during (cst cst' : Cdata.State) (calls : list Cdata.HttpCall) : Prop :=
  Cdata.sent cst' = Cdata.sent cst ++ calls.

(** The body of a [tools/call] request. *)
Definition tool_call (name : string) (args : JSValue) : option JSValue :=
  Some (JSObject [("name", JSString name); ("arguments", args)]).

End CDataProvider.

(** * [contexts/DataSourcesContext.tsx]: the data sources of the user

    The provider keeps one entry per connection that [listConnections]
    returned, with a switch that the user turns on and off. *)

Module DataSourcesContext.

Record DataSourceState : Type := {
  id : string;
  name : string;
  driver : option string;
  enabled : bool;
  connected : bool;
  connectionId : option string;
  logoUrl : option string;
}.

(** An element of the argument of [syncFromConnections]:
    [{ id: string; name: string; driver: string }] *)
Record ConnectionInfo : Type := {
  conn_id : string;
  conn_name : string;
  conn_driver : string;
}.

(** The React state of the provider: [dataSources] and [isLoading]. *)
Record State : Type := {
  dataSources : list DataSourceState;
  isLoading : bool;
}.

Definition initial : State := {| dataSources := []; isLoading := true |}.

(** CData Azure CDN for driver icons *)
Definition getCDataLogoURL (driver : string) : string :=
  "https://cdata-cloudprod.azureedge.net/driver-icons/" +:+ driver +:+ ".svg".

(** [{ ...source, enabled }] *)
Definition with_enabled (b : bool) (source : DataSourceState) : DataSourceState :=
  {| id := id source; name := name source; driver := driver source; enabled := b;
     connected := connected source; connectionId := connectionId source;
     logoUrl := logoUrl source |}.

Definition setDataSourceEnabled (i : string) (b : bool) (st : State) : State :=
  {| dataSources :=
       map (fun source => if String.eqb (id source) i then with_enabled b source else source)
           (dataSources st);
     isLoading := isLoading st |}.

(** Build a map of existing enabled states by connection ID; an entry
    without a connection id, or with the empty one, is passed over. *)
Definition remember (states : gmap string bool) (ds : DataSourceState) : gmap string bool :=
  match connectionId ds with
  | Some c => if truthy_string c then <[c := enabled ds]> states else states
  | None => states
  end.

Definition enabledStates (prev : list DataSourceState) : gmap string bool :=
  fold_left remember prev ∅.

(** Preserve enabled state if we had this connection before, otherwise
    default to true *)
Definition data_source_of (states : gmap string bool) (conn : ConnectionInfo)
  : DataSourceState :=
  {| id := conn_id conn;
     name := conn_name conn;
     driver := Some (conn_driver conn);
     enabled := default true (states !! conn_id conn);
     connected := true;
     connectionId := Some (conn_id conn);
     logoUrl := Some (getCDataLogoURL (conn_driver conn)) |}.

(** Sync data sources from CData connections *)
Definition syncFromConnections (connections : list ConnectionInfo) (st : State) : State :=
  {| dataSources := map (data_source_of (enabledStates (dataSources st))) connections;
     isLoading := false |}.

(** The switch of the first entry with a given id, if there is one. *)
Definition enabled_in (st : State) (i : string) : option bool :=
  option_map enabled (List.find (fun ds => String.eqb (id ds) i) (dataSources st)).

(** Whether a connection of a given id is in a list. *)
Definition listed (i : string) (connections : list ConnectionInfo) : bool :=
  existsb (fun conn => String.eqb (conn_id conn) i) connections.

End DataSourcesContext.

(** * [src/lib/llm.ts]: the reasoning-engine client and the agentic loop *)

Module Llm.

(** [MCPTool] of [cdata.ts] *)
Record MCPTool : Type := {
  name : string;
  description : option string;
  inputSchema : option JSValue;
}.

Record AnthropicTool : Type := {
  tool_name : string;
  tool_description : string;
  input_schema : JSValue;
}.

Inductive Role : Type := user | assistant.

Inductive BlockType : Type := text_block | tool_use_block | tool_result_block.

(** One interface for the three kinds of block, every other field
    optional, as in the source. *)
Record AnthropicContentBlock : Type := {
  type : BlockType;
  text : option string;
  id : option string;
  block_name : option string;
  input : option JSValue;
  tool_use_id : option string;
  content : option string;
}.

Inductive MessageContent : Type :=
| Plain (s : string)
| Blocks (blocks : list AnthropicContentBlock).

Record AnthropicMessage : Type := {
  role : Role;
  message_content : MessageContent;
}.

Inductive StopReason : Type := end_turn | tool_use | max_tokens.

Record Usage : Type := {
  input_tokens : Z;
  output_tokens : Z;
}.

(** The decoded body of an engine response.  [usage] is optional because
    [chat] itself tests for it before reading the counts. *)
Record AnthropicResponse : Type := {
  response_id : string;
  response_content : list AnthropicContentBlock;
  stop_reason : StopReason;
  usage : option Usage;
}.

Inductive UpdateType : Type := thinking | tool_start | tool_complete | tool_error.

Record InterimUpdate : Type := {
  update_type : UpdateType;
  update_content : option string;
  toolName : option string;
  toolInput : option JSValue;
  toolResult : option JSValue;
  error : option string;
}.

(** Arrays of messages live in a store and are passed by reference. *)
Definition loc : Type := positive.

(** [requestBody]: it holds the [messages] array itself, not a copy. *)
Record RequestBody : Type := {
  model : string;
  request_max_tokens : Z;
  system_prompt : option string;
  request_tools : list AnthropicTool;
  messages : loc;
}.

(** [JSON.stringify(requestBody)]: what goes on the wire, with the
    messages as they are at that moment. *)
Record WireRequest : Type := {
  wire_model : string;
  wire_max_tokens : Z;
  wire_system : option string;
  wire_tools : list AnthropicTool;
  wire_messages : list AnthropicMessage;
}.

Inductive EntryType : Type := request | response.

Inductive LogData : Type :=
| RequestData (body : RequestBody)
| ResponseData (data : AnthropicResponse).

Record LLMLogEntry : Type := {
  timestamp : Z;
  entry_type : EntryType;
  data : LogData;
  duration : option Z;
}.

Record LLMDebugLogs : Type := {
  entries : list LLMLogEntry;
  totalDuration : Z;
  totalInputTokens : Z;
  totalOutputTokens : Z;
}.

Record ToolCall : Type := {
  call_name : option string;
  result : JSValue;
}.

Record ChatResult : Type := {
  final_response : string;
  result_toolCalls : list ToolCall;
  debugLogs : LLMDebugLogs;
}.

(** What [sendMessage] reads of the HTTP response. *)
Record HttpResponse : Type := {
  ok : bool;
  status : Z;
  body_text : Outcome string;              (* response.text() *)
  body_json : Outcome AnthropicResponse;   (* response.json() *)
}.

(** What a run of [chat] does to the outside, in order. *)
Inductive Event : Type :=
| EvDate                                   (* new Date(), Date.now() *)
| EvFetch (body : WireRequest)             (* fetch(ANTHROPIC_API_URL, ...) *)
| EvCallTool (tool : option string) (args : option JSValue)
| EvUpdate (update : InterimUpdate).       (* onInterimUpdate(update) *)

(** The store, the interaction so far, and the arrays local to a run of
    [chat]: [logEntries], [toolCalls], and the [toolResults] of the round
    in progress. *)
Record State : Type := {
  heap : gmap loc (list AnthropicMessage);
  trace : list Event;
  logEntries : list LLMLogEntry;
  toolCalls : list ToolCall;
  toolResults : list AnthropicContentBlock;
}.

Definition set_heap (h : gmap loc (list AnthropicMessage)) (st : State) : State :=
  {| heap := h; trace := trace st; logEntries := logEntries st;
     toolCalls := toolCalls st; toolResults := toolResults st |}.

Definition log_event (ev : Event) (st : State) : State :=
  {| heap := heap st; trace := trace st ++ [ev]; logEntries := logEntries st;
     toolCalls := toolCalls st; toolResults := toolResults st |}.

Definition set_logEntries (l : list LLMLogEntry) (st : State) : State :=
  {| heap := heap st; trace := trace st; logEntries := l;
     toolCalls := toolCalls st; toolResults := toolResults st |}.

Definition set_toolCalls (l : list ToolCall) (st : State) : State :=
  {| heap := heap st; trace := trace st; logEntries := logEntries st;
     toolCalls := l; toolResults := toolResults st |}.

Definition set_toolResults (l : list AnthropicContentBlock) (st : State) : State :=
  {| heap := heap st; trace := trace st; logEntries := logEntries st;
     toolCalls := toolCalls st; toolResults := l |}.

(** [array.push(x)] on the array at [l] *)
Definition heap_push (l : loc) (m : AnthropicMessage) (st : State) : State :=
  set_heap (<[l := default [] (heap st !! l) ++ [m]]> (heap st)) st.

Definition is_type (t : BlockType) (block : AnthropicContentBlock) : bool :=
  match t, type block with
  | text_block, text_block => true
  | tool_use_block, tool_use_block => true
  | tool_result_block, tool_result_block => true
  | _, _ => false
  end.

Definition ANTHROPIC_API_URL : string := "https://api.anthropic.com/v1/messages".

Definition system : string :=
"You are an AI Data Advisor, a helpful assistant that helps users understand and analyze their data. You have access to tools that let you query and explore data sources.

IMPORTANT - Federated Queries:
When the user's question involves data from multiple sources (e.g., combining Salesforce accounts with Zendesk tickets, or joining Snowflake usage data with CRM data), write a SINGLE federated SQL query that JOINs across sources. This is a key differentiator - our deterministic query engine handles the cross-source joins, not the LLM. Use the format [ConnectionName].[Schema].[Table] for cross-source queries.

Example federated query:
SELECT a.Name, a.Industry, COUNT(t.Id) as TicketCount
FROM [Salesforce1].[Salesforce].[Account] a
LEFT JOIN [Zendesk1].[Zendesk].[Tickets] t ON a.Id = t.AccountId
GROUP BY a.Name, a.Industry

Use the tools to answer user questions about their data. When you need to query data, use the queryData tool with SQL queries.
Always explain what you're doing and summarize the results in a clear, user-friendly way.".

(** Convert MCP tools to Anthropic tool format *)
Definition mcpToolsToAnthropic (mcpTools : list MCPTool) : list AnthropicTool :=
  map (fun tool =>
         {| tool_name := name tool;
            tool_description := or_string (description tool) ("Tool: " +:+ name tool);
            input_schema :=
              match inputSchema tool with
              | Some schema => if truthy schema then schema
                               else JSObject [("type", JSString "object"); ("properties", JSObject [])]
              | None => JSObject [("type", JSString "object"); ("properties", JSObject [])]
              end |})
      mcpTools.

(** [textBlocks.map((block) => block.text || "").join("\n")] *)
Definition joined_text (blocks : list AnthropicContentBlock) : string :=
  join_lines (map (fun block => or_string (text block) "")
                  (List.filter (is_type text_block) blocks)).

(** The token totals: the loop over [logEntries] at the end of [chat]. *)
Definition count_tokens (totals : Z * Z) (entry : LLMLogEntry) : Z * Z :=
  match entry_type entry, data entry with
  | response, ResponseData responseData =>
      match usage responseData with
      | Some u => (fst totals + input_tokens u, snd totals + output_tokens u)
      | None => totals
      end
  | _, _ => totals
  end.

(** Kinds of event *)
Definition is_thinking (ev : Event) : bool :=
  match ev with
  | EvUpdate u => match update_type u with thinking => true | _ => false end
  | _ => false
  end.

Definition is_tool_call (ev : Event) : bool :=
  match ev with EvCallTool _ _ => true | _ => false end.

Definition is_fetch (ev : Event) : bool :=
  match ev with EvFetch _ => true | _ => false end.

(** The responses a debug log records, oldest first. *)
Definition recorded (log : list LLMLogEntry) : list AnthropicResponse :=
  omap (fun entry => match entry_type entry, data entry with
                     | response, ResponseData r => Some r
                     | _, _ => None
                     end) log.

(** The sum of [usage.input_tokens] and of [usage.output_tokens] over a
    list of responses. *)
Definition sum_input_tokens (rs : list AnthropicResponse) : Z :=
  fold_right Z.add 0 (map (fun r => match usage r with
                                    | Some u => input_tokens u
                                    | None => 0
                                    end) rs).

Definition sum_output_tokens (rs : list AnthropicResponse) : Z :=
  fold_right Z.add 0 (map (fun r => match usage r with
                                    | Some u => output_tokens u
                                    | None => 0
                                    end) rs).

(** ** The specification's words: the text blocks, joined by newline

    Written from the sentence of the specification, not from the code:
    the texts of the text blocks of a response, in the order of the
    response, with one newline between two consecutive texts and none
    before the first or after the last. *)

Module Spec.

(** The texts of the text blocks among [blocks], in order; a block of
    another kind is passed over, and a text block that has no text counts
    as the empty text. *)
Fixpoint text_blocks (blocks : list AnthropicContentBlock) : list string :=
  match blocks with
  | [] => []
  | block :: rest =>
      match type block, text block with
      | text_block, Some t => t :: text_blocks rest
      | text_block, None => EmptyString :: text_blocks rest
      | _, _ => text_blocks rest
      end
  end.

Fixpoint joined_by_newline (texts : list string) : string :=
  match texts with
  | [] => EmptyString
  | t :: rest =>
      match rest with
      | [] => t
      | _ :: _ => String.append t (String newline (joined_by_newline rest))
      end
  end.

(** The [thinking] update that carries a text. *)
Definition thinking_of (thought : string) : InterimUpdate :=
  {| update_type := thinking; update_content := Some thought;
     toolName := None; toolInput := None; toolResult := None; error := None |}.

End Spec.

(** ** Vocabulary of the properties: updates, events and messages *)

Definition thinking_update (r : AnthropicResponse) : InterimUpdate :=
  {| update_type := thinking;
     update_content := Some (joined_text (response_content r));
     toolName := None; toolInput := None; toolResult := None; error := None |}.

Definition start_update (toolUse : AnthropicContentBlock) : InterimUpdate :=
  {| update_type := tool_start; update_content := None;
     toolName := block_name toolUse; toolInput := input toolUse;
     toolResult := None; error := None |}.

Definition call_event (toolUse : AnthropicContentBlock) : Event :=
  EvCallTool (block_name toolUse) (input toolUse).

(** The messages of a run after a round: what was there, the engine's
    response as an assistant message, and the results as a user message. *)
Definition with_round (before : list AnthropicMessage) (r : AnthropicResponse)
    (results : list AnthropicContentBlock) : list AnthropicMessage :=
  before ++ [ {| role := assistant; message_content := Blocks (response_content r) |};
              {| role := user; message_content := Blocks results |} ].

Section Chat.

Context `{rt : Runtime}.

(** [import.meta.env.VITE_ANTHROPIC_API_KEY || ""] and the model name *)
Variable apiKey : string.
Variable model_name : string.

(** The outside world; each oracle sees the history up to and including
    the call it answers. *)
Variable clock : list Event -> Z.
Variable anthropic : list Event -> Outcome HttpResponse.
(** The caller's [callTool]; a promise that fulfils or rejects. *)
Variable callTool : list Event -> Outcome JSValue.
(** The caller's optional [onInterimUpdate]; [Some e] when the callback
    throws [e]. *)
Variable onInterimUpdate : option (list Event -> option JSValue).

Definition now : M State Z :=
  modify (log_event EvDate) ;;
  st <- get ;;
  ret (clock (trace st)).

Definition await {A} (ev : Event) (oracle : list Event -> Outcome A) : M State A :=
  modify (log_event ev) ;;
  settle (fun st => oracle (trace st)).

(** [onInterimUpdate(update)], for a callback known to be there *)
Definition call_back (cb : list Event -> option JSValue) (update : InterimUpdate)
  : M State unit :=
  modify (log_event (EvUpdate update)) ;;
  fun st =>
    match cb (trace st) with
    | None => (Normal tt, st)
    | Some e => (Throw e, st)
    end.

(** [if (onInterimUpdate) { onInterimUpdate(update); }] *)
Definition notify (update : InterimUpdate) : M State unit :=
  match onInterimUpdate with
  | Some cb => call_back cb update
  | None => ret tt
  end.

Definition push_log (entry : LLMLogEntry) : M State unit :=
  modify (fun st => set_logEntries (logEntries st ++ [entry]) st).

Definition wire (st : State) (body : RequestBody) : WireRequest :=
  {| wire_model := model body; wire_max_tokens := request_max_tokens body;
     wire_system := system_prompt body; wire_tools := request_tools body;
     wire_messages := default [] (heap st !! messages body) |}.

(** Send a message to Claude and get a response.  [chat], the only
    caller, always passes its [logEntries] as the log collector. *)
Definition sendMessage (msgs : loc) (tools : list AnthropicTool)
    (sys : option string) : M State AnthropicResponse :=
  if negb (truthy_string apiKey) then
    throw (JSError "Anthropic API key not configured")
  else
    let requestBody :=
      {| model := model_name; request_max_tokens := 4096; system_prompt := sys;
         request_tools := tools; messages := msgs |} in
    (* Log request *)
    requestTimestamp <- now ;;
    push_log {| timestamp := requestTimestamp; entry_type := request;
                data := RequestData requestBody; duration := None |} ;;
    st <- get ;;
    http <- await (EvFetch (wire st requestBody)) anthropic ;;
    if negb (ok http) then
      err <- settle (fun _ => body_text http) ;;
      throw (JSError ("Anthropic API error: " +:+ pretty (status http) +:+ " - " +:+ err))
    else
      responseData <- settle (fun _ => body_json http) ;;
      responseTimestamp <- now ;;
      (* Log response *)
      push_log {| timestamp := responseTimestamp; entry_type := response;
                  data := ResponseData responseData;
                  duration := Some (responseTimestamp - requestTimestamp) |} ;;
      ret responseData.

Definition push_toolResult (block : AnthropicContentBlock) : M State unit :=
  modify (fun st => set_toolResults (toolResults st ++ [block]) st).

Definition tool_result_of (toolUse : AnthropicContentBlock) (c : option string)
  : AnthropicContentBlock :=
  {| type := tool_result_block; text := None; id := None; block_name := None;
     input := None; tool_use_id := id toolUse; content := c |}.

(** [err instanceof Error ? err.message : "Unknown error"] *)
Definition errorMsg (err : JSValue) : string :=
  match err with
  | JSError message => message
  | _ => "Unknown error"
  end.

(** The body of [for (const toolUse of toolUseBlocks)] *)
Definition execute_tool (toolUse : AnthropicContentBlock) : M State unit :=
  (* Notify tool start *)
  notify {| update_type := tool_start; update_content := None;
            toolName := block_name toolUse; toolInput := input toolUse;
            toolResult := None; error := None |} ;;
  try_catch
    (res <- await (EvCallTool (block_name toolUse) (input toolUse)) callTool ;;
     modify (fun st => set_toolCalls
                         (toolCalls st ++ [{| call_name := block_name toolUse; result := res |}]) st) ;;
     str <- settle (fun _ => JSON_stringify res) ;;
     push_toolResult (tool_result_of toolUse str) ;;
     (* Notify tool complete *)
     notify {| update_type := tool_complete; update_content := None;
               toolName := block_name toolUse; toolInput := None;
               toolResult := Some res; error := None |})
    (fun err =>
       push_toolResult (tool_result_of toolUse (Some ("Error: " +:+ errorMsg err))) ;;
       (* Notify tool error *)
       notify {| update_type := tool_error; update_content := None;
                 toolName := block_name toolUse; toolInput := None;
                 toolResult := None; error := Some (errorMsg err) |}).

(** Extract any text thinking from the response *)
Definition surface_thinking (r : AnthropicResponse) : M State unit :=
  let textBlocks := List.filter (is_type text_block) (response_content r) in
  match textBlocks, onInterimUpdate with
  | _ :: _, Some cb =>
      let thought := joined_text (response_content r) in
      if truthy_string (trim thought) then
        call_back cb {| update_type := thinking; update_content := Some thought;
                        toolName := None; toolInput := None;
                        toolResult := None; error := None |}
      else ret tt
  | _, _ => ret tt
  end.

(** One pass through the body of the [while] loop, up to and including
    the two [messages.push]. *)
Definition round (msgs : loc) (r : AnthropicResponse) : M State unit :=
  surface_thinking r ;;
  (* Find tool use blocks *)
  let toolUseBlocks := List.filter (is_type tool_use_block) (response_content r) in
  (* Execute each tool *)
  modify (set_toolResults []) ;;
  for_of toolUseBlocks execute_tool ;;
  (* Add assistant response and tool results to messages *)
  modify (heap_push msgs {| role := assistant;
                            message_content := Blocks (response_content r) |}) ;;
  st <- get ;;
  modify (heap_push msgs {| role := user;
                            message_content := Blocks (toolResults st) |}).

(** [while (response.stop_reason === "tool_use") { ... }], unrolled at
    most [fuel] times. *)
Fixpoint agentic_loop (fuel : nat) (msgs : loc) (tools : list AnthropicTool)
    (r : AnthropicResponse) : M State AnthropicResponse :=
  match stop_reason r with
  | tool_use =>
      match fuel with
      | O => out_of_fuel
      | S fuel' =>
          round msgs r ;;
          (* Get next response *)
          r' <- sendMessage msgs tools (Some system) ;;
          agentic_loop fuel' msgs tools r'
      end
  | _ => ret r
  end.

(** [[...conversationHistory, m]]: a new array in the store *)
Definition spread_with (l : loc) (m : AnthropicMessage) : M State loc :=
  st <- get ;;
  match heap st !! l with
  | None => throw (JSError "conversationHistory is not iterable")
  | Some history =>
      let fresh_loc := fresh (dom (heap st)) in
      modify (set_heap (<[fresh_loc := history ++ [m]]> (heap st))) ;;
      ret fresh_loc
  end.

(** Run the agentic loop: send message, execute tools, repeat until done *)
Definition chat (fuel : nat) (userMessage : string) (conversationHistory : loc)
    (mcpTools : list MCPTool) : M State ChatResult :=
  let tools := mcpToolsToAnthropic mcpTools in
  modify (set_toolCalls []) ;;
  modify (set_logEntries []) ;;
  startTime <- now ;;
  (* Build messages array *)
  msgs <- spread_with conversationHistory
            {| role := user; message_content := Plain userMessage |} ;;
  (* Agentic loop *)
  r <- sendMessage msgs tools (Some system) ;;
  r <- agentic_loop fuel msgs tools r ;;
  (* Extract final text response *)
  let finalResponse := joined_text (response_content r) in
  (* Calculate totals from log entries *)
  st <- get ;;
  let totals := fold_left count_tokens (logEntries st) (0, 0) in
  endTime <- now ;;
  ret {| final_response := finalResponse;
         result_toolCalls := toolCalls st;
         debugLogs := {| entries := logEntries st;
                         totalDuration := endTime - startTime;
                         totalInputTokens := fst totals;
                         totalOutputTokens := snd totals |} |}.

(** ** Vocabulary of the properties: one exchange, one tool call *)

Definition request_body (msgs : loc) (tools : list AnthropicTool) (sys : option string)
  : RequestBody :=
  {| model := model_name; request_max_tokens := 4096; system_prompt := sys;
     request_tools := tools; messages := msgs |}.

Definition request_entry (msgs : loc) (tools : list AnthropicTool) (sys : option string)
    (st : State) : LLMLogEntry :=
  {| timestamp := clock (trace st ++ [EvDate]); entry_type := request;
     data := RequestData (request_body msgs tools sys); duration := None |}.

(** The state once the request is logged and sent. *)
Definition requested (msgs : loc) (tools : list AnthropicTool) (sys : option string)
    (st : State) : State :=
  let s1 := log_event EvDate st in
  let s2 := set_logEntries (logEntries s1 ++ [request_entry msgs tools sys st]) s1 in
  log_event (EvFetch (wire s2 (request_body msgs tools sys))) s2.

Definition response_entry (msgs : loc) (tools : list AnthropicTool) (sys : option string)
    (st : State) (r : AnthropicResponse) : LLMLogEntry :=
  let s := requested msgs tools sys st in
  {| timestamp := clock (trace s ++ [EvDate]); entry_type := response;
     data := ResponseData r;
     duration := Some (clock (trace s ++ [EvDate]) - clock (trace st ++ [EvDate])) |}.

(** The state once the response is logged. *)
Definition responded (msgs : loc) (tools : list AnthropicTool) (sys : option string)
    (st : State) (r : AnthropicResponse) : State :=
  let s3 := log_event EvDate (requested msgs tools sys st) in
  set_logEntries (logEntries s3 ++ [response_entry msgs tools sys st r]) s3.

(** The decoded response to the request at the end of a history, if the
    exchange succeeded. *)
Definition engine_answer (tr : list Event) : option AnthropicResponse :=
  match anthropic tr with
  | Returns http =>
      if ok http then
        match body_json http with
        | Returns r => Some r
        | Throws _ => None
        end
      else None
  | Throws _ => None
  end.

(** The responses the engine gave to the requests among [evs], oldest
    first, when [evs] follows the history [before]. *)
Fixpoint answers (before evs : list Event) : list AnthropicResponse :=
  match evs with
  | [] => []
  | ev :: rest =>
      match ev, engine_answer (before ++ [ev]) with
      | EvFetch _, Some r => r :: answers (before ++ [ev]) rest
      | _, _ => answers (before ++ [ev]) rest
      end
  end.

(** Whether a response gets a [thinking] update: the callback is there,
    the response has a text block, and the joined text does not trim to
    nothing. *)
Definition surfaces_thinking (r : AnthropicResponse) : bool :=
  match List.filter (is_type text_block) (response_content r), onInterimUpdate with
  | _ :: _, Some _ => truthy_string (trim (joined_text (response_content r)))
  | _, _ => false
  end.

Definition thinking_events (r : AnthropicResponse) : list Event :=
  if surfaces_thinking r then [EvUpdate (thinking_update r)] else [].

(** The progress callback, when there is one, returns normally. *)
Definition callback_returns : Prop :=
  forall cb, onInterimUpdate = Some cb -> forall tr, cb tr = None.

(** The progress callback, when there is one, returns normally from the
    updates that [chat] makes outside of its [try] block: [thinking],
    [tool_start] and [tool_error], that is every update but
    [tool_complete]. *)
Definition returns_outside_try : Prop :=
  forall cb, onInterimUpdate = Some cb ->
    forall tr u, update_type u <> tool_complete -> cb (tr ++ [EvUpdate u]) = None.

(** The state after a notification, whether it returned or threw. *)
Definition notified (u : InterimUpdate) (st : State) : State :=
  match onInterimUpdate with
  | Some _ => log_event (EvUpdate u) st
  | None => st
  end.

Definition update_events (u : InterimUpdate) : list Event :=
  match onInterimUpdate with
  | Some _ => [EvUpdate u]
  | None => []
  end.

(** The history that [callTool] answers from when [toolUse] is executed
    from a state whose trace is [tr]. *)
Definition call_history (tr : list Event) (toolUse : AnthropicContentBlock) : list Event :=
  tr ++ update_events (start_update toolUse) ++ [call_event toolUse].

(** The content of the block that reports a tool call: the serialised
    result, or ["Error: "] followed by the message of what was thrown. *)
Definition result_content (tr : list Event) : option string :=
  match callTool tr with
  | Returns v =>
      match JSON_stringify v with
      | Returns str => str
      | Throws e => Some ("Error: " +:+ errorMsg e)
      end
  | Throws e => Some ("Error: " +:+ errorMsg e)
  end.

(** The log records the engine's answers: what a computation adds to the
    recorded responses is what the engine answered to the requests it
    made. *)
Definition tracks : relation State :=
  fun s s' =>
    exists evs,
      trace s' = trace s ++ evs
      /\ recorded (logEntries s') = recorded (logEntries s) ++ answers (trace s) evs.

End Chat.

(** ** Relations between the state before and the state after *)

Definition same_heap : relation State := fun s s' => heap s' = heap s.

Definition same_except (msgs : loc) : relation State :=
  fun s s' => forall l, l <> msgs -> heap s' !! l = heap s !! l.

(** The events a computation adds all satisfy [P]. *)
Definition adds (P : Event -> Prop) : relation State :=
  fun s s' => exists evs, trace s' = trace s ++ evs /\ Forall P evs.

Definition not_thinking (ev : Event) : Prop := is_thinking ev = false.

Definition not_tool_call (ev : Event) : Prop := is_tool_call ev = false.

Definition any_event (ev : Event) : Prop := True.

(** ** Vocabulary of the properties: what a run reports, records and sends *)

Section Reports.

Variable apiKey : string.
Variable model_name : string.
Variable callTool : list Event -> Outcome JSValue.

(** [hasLLMConfig()]: [!!getConfig().apiKey] *)
Definition hasLLMConfig : bool := truthy_string apiKey.

(** The tool calls among [evs] that [callTool] fulfilled, oldest first,
    when [evs] follows the history [before]. *)
Fixpoint fulfilled (before evs : list Event) : list ToolCall :=
  match evs with
  | [] => []
  | ev :: rest =>
      match ev, callTool (before ++ [ev]) with
      | EvCallTool n _, Returns v =>
          {| call_name := n; result := v |} :: fulfilled (before ++ [ev]) rest
      | _, _ => fulfilled (before ++ [ev]) rest
      end
  end.

(** [toolCalls] reports the fulfilled calls: what a computation adds to it
    is what [callTool] fulfilled among the calls it made. *)
Definition reports : relation State :=
  fun s s' =>
    exists evs,
      trace s' = trace s ++ evs
      /\ toolCalls s' = toolCalls s ++ fulfilled (trace s) evs.

(** A request entry of a run whose messages are the array at [msgs]. *)
Definition is_request_at (msgs : loc) (entry : LLMLogEntry) : bool :=
  match entry_type entry, data entry, duration entry with
  | request, RequestData body, None => Pos.eqb (messages body) msgs
  | _, _, _ => false
  end.

(** A response entry whose duration is the time since the request entry
    [req]. *)
Definition is_response_to (req entry : LLMLogEntry) : bool :=
  match entry_type entry, data entry, duration entry with
  | response, ResponseData _, Some d => Z.eqb d (timestamp entry - timestamp req)
  | _, _, _ => false
  end.

(** A log made of exchanges: a request entry, then the response entry
    that answers it, any number of times. *)
Fixpoint exchanges (msgs : loc) (log : list LLMLogEntry) : bool :=
  match log with
  | [] => true
  | req :: resp :: rest =>
      is_request_at msgs req && is_response_to req resp && exchanges msgs rest
  | _ => false
  end.

(** What every request of a run has in common: the model, the token
    limit, the system prompt, the tools, and the messages the run started
    from. *)
Definition carries (tools : list AnthropicTool) (opening : list AnthropicMessage)
    (ev : Event) : Prop :=
  match ev with
  | EvFetch w =>
      wire_model w = model_name
      /\ wire_max_tokens w = 4096
      /\ wire_system w = Some system
      /\ wire_tools w = tools
      /\ opening `prefix_of` wire_messages w
  | _ => True
  end.

(** The array at [msgs] starts with [opening], and stays so while the
    requests sent carry it. *)
Definition opens_with (msgs : loc) (opening : list AnthropicMessage) (s : State) : Prop :=
  exists later, heap s !! msgs = Some (opening ++ later).

Definition sends (msgs : loc) (tools : list AnthropicTool)
    (opening : list AnthropicMessage) : relation State :=
  fun s s' =>
    opens_with msgs opening s ->
    opens_with msgs opening s'
    /\ exists evs, trace s' = trace s ++ evs /\ Forall (carries tools opening) evs.

End Reports.

(** The log is left as it was. *)
Definition same_log : relation State := fun s s' => logEntries s' = logEntries s.

(** The two updates that end the execution of a tool use. *)
Definition complete_update (toolUse : AnthropicContentBlock) (res : JSValue) : InterimUpdate :=
  {| update_type := tool_complete; update_content := None;
     toolName := block_name toolUse; toolInput := None;
     toolResult := Some res; error := None |}.

Definition error_update (toolUse : AnthropicContentBlock) (err : JSValue) : InterimUpdate :=
  {| update_type := tool_error; update_content := None;
     toolName := block_name toolUse; toolInput := None;
     toolResult := None; error := Some (errorMsg err) |}.

Definition finishes (toolUse : AnthropicContentBlock) (u : InterimUpdate) : Prop :=
  (exists res, u = complete_update toolUse res)
  \/ (exists err, u = error_update toolUse err).

(** The updates of the tool uses of a round, each started and then
    finished by the update at the same position in [ends]. *)
Definition tool_updates (blocks : list AnthropicContentBlock) (ends : list InterimUpdate)
  : list InterimUpdate :=
  concat (zip_with (fun toolUse u => [start_update toolUse; u]) blocks ends).

End Llm.

(** * [pages/Chat.tsx]: the page that calls [chat]

    The page passes [handleInterimUpdate] to [chat] as its progress
    callback, and reads the SQL queries of a run off the debug log that
    [chat] returns. *)

Module ChatPage.

Import Llm.

(** ["pending" | "complete" | "error"] *)
Inductive Status : Type := Pending | Complete | Error.

Record ThinkingStep : Type := {
  step_id : string;
  step_type : UpdateType;
  step_content : option string;
  step_toolName : option string;
  status : Status;
}.

(** An update's [type] as the string it is *)
Definition type_name (t : UpdateType) : string :=
  match t with
  | thinking => "thinking"
  | tool_start => "tool_start"
  | tool_complete => "tool_complete"
  | tool_error => "tool_error"
  end.

(** [a === b] on optional strings: [undefined] equals itself only. *)
Definition same_name (a b : option string) : bool :=
  match a, b with
  | Some x, Some y => String.eqb x y
  | None, None => true
  | _, _ => false
  end.

(** [step.toolName === name && step.status === "pending"] *)
Definition is_pending_for (name : option string) (step : ThinkingStep) : bool :=
  same_name (step_toolName step) name
  && match status step with Pending => true | _ => false end.

(** [{ ...step, status: s }] *)
Definition set_status (s : Status) (step : ThinkingStep) : ThinkingStep :=
  {| step_id := step_id step; step_type := step_type step;
     step_content := step_content step; step_toolName := step_toolName step;
     status := s |}.

(** The loop [for (let i = newSteps.length - 1; i >= 0; i--)] with its
    [break], on the steps taken from the last to the first: the first
    pending step of the tool gets the status. *)
Fixpoint settle_first (name : option string) (s : Status) (steps : list ThinkingStep)
  : list ThinkingStep :=
  match steps with
  | [] => []
  | step :: rest =>
      if is_pending_for name step then set_status s step :: rest
      else step :: settle_first name s rest
  end.

(** Update the last pending tool step *)
Definition settle_last (name : option string) (s : Status) (steps : list ThinkingStep)
  : list ThinkingStep :=
  rev (settle_first name s (rev steps)).

(** The function that [handleInterimUpdate] hands to [setThinkingSteps]:
    from the steps so far to the new steps; [now] is what [Date.now()]
    reads when it runs. *)
Definition handleInterimUpdate (now : Z) (update : InterimUpdate)
    (prev : list ThinkingStep) : list ThinkingStep :=
  let stepId := type_name (update_type update) +:+ "-" +:+ pretty now in
  match update_type update with
  | thinking =>
      prev ++ [{| step_id := stepId; step_type := thinking;
                  step_content := update_content update; step_toolName := None;
                  status := Complete |}]
  | tool_start =>
      prev ++ [{| step_id := stepId; step_type := tool_start;
                  step_content := None; step_toolName := toolName update;
                  status := Pending |}]
  | tool_complete => settle_last (toolName update) Complete prev
  | tool_error => settle_last (toolName update) Error prev
  end.

(** The progress updates among the events of a run, oldest first. *)
Definition updates_of (evs : list Event) : list InterimUpdate :=
  omap (fun ev => match ev with EvUpdate u => Some u | _ => None end) evs.

(** The steps once the updates have been handled, one after the other;
    the clock is read from the updates handled so far. *)
Fixpoint steps_after (Date_now : list InterimUpdate -> Z)
    (handled updates : list InterimUpdate) (steps : list ThinkingStep)
  : list ThinkingStep :=
  match updates with
  | [] => steps
  | u :: rest =>
      steps_after Date_now (handled ++ [u]) rest
        (handleInterimUpdate (Date_now (handled ++ [u])) u steps)
  end.

Definition is_pending (step : ThinkingStep) : bool :=
  match status step with Pending => true | _ => false end.

Definition is_tool_step (step : ThinkingStep) : bool :=
  match step_type step with tool_start => true | _ => false end.

(** ** The queries of a run *)

Record ExtractedQuery : Type := {
  sql : JSValue;
  query_toolName : option string;
}.

(** [block.input?.query] *)
Definition input_query (block : AnthropicContentBlock) : JSValue :=
  match input block with
  | None | Some JSUndefined | Some JSNull => JSUndefined
  | Some v =>
      match get_prop v "query" with
      | Returns q => q
      | Throws _ => JSUndefined
      end
  end.

(** [block.type === "tool_use" && block.name === "queryData" &&
    block.input?.query] *)
Definition queries_of_block (block : AnthropicContentBlock) : list ExtractedQuery :=
  if is_type tool_use_block block
     && same_name (block_name block) (Some "queryData")
     && truthy (input_query block)
  then [{| sql := input_query block; query_toolName := block_name block |}]
  else [].

(** [if (Array.isArray(msg.content)) { for (const block of msg.content) ... }] *)
Definition queries_of_message (msg : AnthropicMessage) : list ExtractedQuery :=
  match message_content msg with
  | Blocks blocks => flat_map queries_of_block blocks
  | Plain _ => []
  end.

(** Extract SQL queries from debug logs.  The [messages] of a request
    entry is the array that [chat] put in the request body: the loop
    reads it from the store, as it is when the loop runs. *)
Definition extractedQueries (store : gmap loc (list AnthropicMessage))
    (entries : list LLMLogEntry) : list ExtractedQuery :=
  flat_map (fun entry =>
              match entry_type entry, data entry with
              | request, RequestData requestData =>
                  flat_map queries_of_message
                    (default [] (store !! messages requestData))
              | _, _ => []
              end) entries.

End ChatPage.

(** * An implementation of the built-ins on plain ASCII text

    Enough of [JSON.parse], [JSON.stringify], [trim] and [toLowerCase] to
    run the embedded code on concrete inputs: integers, strings without
    escapes, arrays and objects; ASCII white space and letters. *)

Module AsciiRuntime.

Definition quote : ascii := "034"%char.

Definition quoted (s : string) : string :=
  String quote (s +:+ String quote EmptyString).

Definition is_space (c : ascii) : bool :=
  let n := nat_of_ascii c in
  (Nat.eqb n 32 || (Nat.leb 9 n && Nat.leb n 13))%bool.

Fixpoint trim_start (s : string) : string :=
  match s with
  | String c s' => if is_space c then trim_start s' else s
  | EmptyString => EmptyString
  end.

Fixpoint trim_end (s : string) : string :=
  match s with
  | String c s' =>
      match trim_end s' with
      | EmptyString => if is_space c then EmptyString else String c EmptyString
      | t => String c t
      end
  | EmptyString => EmptyString
  end.

Definition ascii_trim (s : string) : string := trim_end (trim_start s).

Definition lower (c : ascii) : ascii :=
  let n := nat_of_ascii c in
  if (Nat.leb 65 n && Nat.leb n 90)%bool then ascii_of_nat (n + 32) else c.

Fixpoint ascii_toLowerCase (s : string) : string :=
  match s with
  | String c s' => String (lower c) (ascii_toLowerCase s')
  | EmptyString => EmptyString
  end.

Definition is_digit (c : ascii) : bool :=
  let n := nat_of_ascii c in (Nat.leb 48 n && Nat.leb n 57)%bool.

(** The digits at the head of [s], as a number, and what follows them. *)
Fixpoint digits (acc : Z) (seen : bool) (s : string) : option (Z * string) :=
  match s with
  | String c s' =>
      if is_digit c
      then digits (10 * acc + Z.of_nat (nat_of_ascii c - 48)) true s'
      else if seen then Some (acc, s) else None
  | EmptyString => if seen then Some (acc, s) else None
  end.

Definition number (s : string) : option (JSValue * string) :=
  match s with
  | String "-"%char s' =>
      match digits 0 false s' with
      | Some (n, rest) => Some (JSNumber (- n), rest)
      | None => None
      end
  | _ =>
      match digits 0 false s with
      | Some (n, rest) => Some (JSNumber n, rest)
      | None => None
      end
  end.

(** The characters up to the closing quote; an escape is not handled. *)
Fixpoint chars (s : string) : option (string * string) :=
  match s with
  | String c s' =>
      if Ascii.eqb c quote then Some (EmptyString, s')
      else if Ascii.eqb c "\"%char then None
      else match chars s' with
           | Some (str, rest) => Some (String c str, rest)
           | None => None
           end
  | EmptyString => None
  end.

Fixpoint value (fuel : nat) (s : string) {struct fuel} : option (JSValue * string) :=
  match fuel with
  | O => None
  | S fuel' =>
      let s := trim_start s in
      if String.prefix "null" s then Some (JSNull, slice 4 s)
      else if String.prefix "true" s then Some (JSBool true, slice 4 s)
      else if String.prefix "false" s then Some (JSBool false, slice 5 s)
      else if String.prefix "[]" s then Some (JSArray [], slice 2 s)
      else if String.prefix "{}" s then Some (JSObject [], slice 2 s)
      else
        match s with
        | String c rest =>
            if Ascii.eqb c quote then
              match chars rest with
              | Some (str, rest') => Some (JSString str, rest')
              | None => None
              end
            else if Ascii.eqb c "["%char then items fuel' rest []
            else if Ascii.eqb c "{"%char then members fuel' rest []
            else number s
        | EmptyString => None
        end
  end
with items (fuel : nat) (s : string) (acc : list JSValue) {struct fuel}
  : option (JSValue * string) :=
  match fuel with
  | O => None
  | S fuel' =>
      match value fuel' s with
      | Some (v, rest) =>
          match trim_start rest with
          | String ","%char rest' => items fuel' rest' (acc ++ [v])
          | String "]"%char rest' => Some (JSArray (acc ++ [v]), rest')
          | _ => None
          end
      | None => None
      end
  end
with members (fuel : nat) (s : string) (acc : list (string * JSValue)) {struct fuel}
  : option (JSValue * string) :=
  match fuel with
  | O => None
  | S fuel' =>
      match trim_start s with
      | String c rest =>
          if Ascii.eqb c quote then
            match chars rest with
            | Some (key, rest1) =>
                match trim_start rest1 with
                | String ":"%char rest2 =>
                    match value fuel' rest2 with
                    | Some (v, rest3) =>
                        match trim_start rest3 with
                        | String ","%char rest4 => members fuel' rest4 (acc ++ [(key, v)])
                        | String "}"%char rest4 => Some (JSObject (acc ++ [(key, v)]), rest4)
                        | _ => None
                        end
                    | None => None
                    end
                | _ => None
                end
            | None => None
            end
          else None
      | EmptyString => None
      end
  end.

Definition SyntaxError : JSValue := JSError "Unexpected token in JSON".

Definition ascii_JSON_parse (s : string) : Outcome JSValue :=
  match value (S (String.length s)) s with
  | Some (v, rest) =>
      match trim_start rest with
      | EmptyString => Returns v
      | _ => Throws SyntaxError
      end
  | None => Throws SyntaxError
  end.

Definition comma_separated (parts : list string) : string := String.concat "," parts.

(** [JSON.stringify] inside an array or an object: [None] for [undefined]. *)
Fixpoint stringify (v : JSValue) : option string :=
  match v with
  | JSUndefined => None
  | JSNull => Some "null"
  | JSBool true => Some "true"
  | JSBool false => Some "false"
  | JSNumber n => Some (pretty n)
  | JSString s => Some (quoted s)
  | JSArray vs =>
      Some ("[" +:+ comma_separated (map (fun v => default "null" (stringify v)) vs) +:+ "]")
  | JSObject fields =>
      Some ("{" +:+ comma_separated
                      (omap (fun kv => match stringify (snd kv) with
                                       | Some s => Some (quoted (fst kv) +:+ ":" +:+ s)
                                       | None => None
                                       end) fields) +:+ "}")
  | JSError _ => Some "{}"
  end.

(** [String(v)] *)
Fixpoint ascii_ToString (v : JSValue) : string :=
  match v with
  | JSUndefined => "undefined"
  | JSNull => "null"
  | JSBool true => "true"
  | JSBool false => "false"
  | JSNumber n => pretty n
  | JSString s => s
  | JSArray vs =>
      comma_separated (map (fun v => match v with
                                     | JSUndefined | JSNull => EmptyString
                                     | _ => ascii_ToString v
                                     end) vs)
  | JSObject _ => "[object Object]"
  | JSError m => if String.eqb m "" then "Error" else "Error: " +:+ m
  end.

#[export] Instance runtime : Runtime := {|
  JSON_parse := ascii_JSON_parse;
  JSON_stringify := fun v => Returns (stringify v);
  trim := ascii_trim;
  toLowerCase := ascii_toLowerCase;
  ToString := ascii_ToString;
|}.

End AsciiRuntime.

(** * Concrete runs

    Small environments on which the embedded code is evaluated. *)

Module Scenario.

Import AsciiRuntime.

(** ** The JSON-RPC client *)

Definition stream_reply (text : string) : list Cdata.HttpCall -> Outcome Cdata.Response :=
  fun _ => Returns {| Cdata.ok := true; Cdata.status := 200;
                      Cdata.content_type := Some "text/event-stream";
                      Cdata.body := Returns text |}.

Definition json_reply (text : string) : list Cdata.HttpCall -> Outcome Cdata.Response :=
  fun _ => Returns {| Cdata.ok := true; Cdata.status := 200;
                      Cdata.content_type := Some "application/json";
                      Cdata.body := Returns text |}.

(** A response with status 503. *)
Definition failing_reply (contentType text : string)
  : list Cdata.HttpCall -> Outcome Cdata.Response :=
  fun _ => Returns {| Cdata.ok := false; Cdata.status := 503;
                      Cdata.content_type := Some contentType;
                      Cdata.body := Returns text |}.

(** [{"jsonrpc":"2.0","id":1,"result":7}] *)
Definition rpc_seven : string :=
  "{" +:+ quoted "jsonrpc" +:+ ":" +:+ quoted "2.0" +:+ "," +:+ quoted "id" +:+ ":1,"
      +:+ quoted "result" +:+ ":7}".

(** An event stream whose last well-formed data line is [rpc_seven]. *)
Definition stream_seven : string :=
  "event: message
data: not json
data: " +:+ rpc_seven +:+ "

data: {oops
".

(** ** The REST client *)

Definition api_reply (ok : bool) (status : Z) (text : string)
  : list CdataApi.Event -> Outcome Cdata.Response :=
  fun _ => Returns {| Cdata.ok := ok; Cdata.status := status;
                      Cdata.content_type := Some "application/json";
                      Cdata.body := Returns text |}.

(** [[{"id":"c1","name":"Sales","dataSource":"Salesforce"},{"id":"c2","name":"Desk"}]] *)
Definition two_connections : string :=
  "[{" +:+ quoted "id" +:+ ":" +:+ quoted "c1" +:+ "," +:+ quoted "name" +:+ ":"
       +:+ quoted "Sales" +:+ "," +:+ quoted "dataSource" +:+ ":" +:+ quoted "Salesforce"
       +:+ "},{" +:+ quoted "id" +:+ ":" +:+ quoted "c2" +:+ "," +:+ quoted "name" +:+ ":"
       +:+ quoted "Desk" +:+ "}]".

(** [{"connections":[...]}] *)
Definition wrapped_connections : string :=
  "{" +:+ quoted "connections" +:+ ":" +:+ two_connections +:+ "}".

(** [{"status":"ok","url":"https://cloud.cdata.com/connect/1"}] *)
Definition url_reply : string :=
  "{" +:+ quoted "status" +:+ ":" +:+ quoted "ok" +:+ "," +:+ quoted "url" +:+ ":"
      +:+ quoted "https://cloud.cdata.com/connect/1" +:+ "}".

(** A result set of one row, whose first and last columns have the same
    name. *)
Definition accounts : CdataApi.QueryResult :=
  {| CdataApi.schema :=
       [ {| CdataApi.columnName := "Id"; CdataApi.dataTypeName := "VARCHAR" |};
         {| CdataApi.columnName := "Name"; CdataApi.dataTypeName := "VARCHAR" |};
         {| CdataApi.columnName := "Id"; CdataApi.dataTypeName := "INTEGER" |} ];
     CdataApi.rows := [[JSString "001"; JSString "Acme"; JSNumber 7]; [JSString "002"]] |}.

(** ** The data sources *)

Definition crm : DataSourcesContext.ConnectionInfo :=
  {| DataSourcesContext.conn_id := "c1"; DataSourcesContext.conn_name := "Sales";
     DataSourcesContext.conn_driver := "Salesforce" |}.

Definition desk : DataSourcesContext.ConnectionInfo :=
  {| DataSourcesContext.conn_id := "c2"; DataSourcesContext.conn_name := "Desk";
     DataSourcesContext.conn_driver := "Zendesk" |}.

Definition warehouse : DataSourcesContext.ConnectionInfo :=
  {| DataSourcesContext.conn_id := "c3"; DataSourcesContext.conn_name := "Usage";
     DataSourcesContext.conn_driver := "Snowflake" |}.

(** ** The credential cache *)

(** A credential acquired at time 0 is cached; it is good until 6900000. *)
Definition warm : CDataContext.State :=
  {| CDataContext.tokenRef := Some "jwt-1";
     CDataContext.tokenExpiryRef := 6900000;
     CDataContext.isRefreshingRef := false;
     CDataContext.token := Some "jwt-1";
     CDataContext.tools := JSArray [];
     CDataContext.isLoading := false;
     CDataContext.error := None;
     CDataContext.trace := [] |}.

Definition one_minute_in : list CDataContext.Event -> Z := fun _ => 60000.

Definition count_api_calls (tr : list CDataContext.Event) : nat :=
  length (List.filter CDataContext.is_api_call tr).

(** The gateway turns the first call down, and any later one succeeds. *)
Definition rejects_first_call : list CDataContext.Event -> Outcome JSValue :=
  fun tr =>
    if Nat.leb (count_api_calls tr) 1
    then Throws (JSError "MCP request failed: 401")
    else Returns (JSString "rows").

(** The cached credential, while another refresh is in flight. *)
Definition refreshing : CDataContext.State :=
  CDataContext.set_isRefreshingRef true warm.

(** The gateway turns down every call made with [jwt-1]. *)
Definition rejects_jwt1 : list CDataContext.Event -> Outcome JSValue :=
  fun tr =>
    match List.last tr CDataContext.EvDateNow with
    | CDataContext.EvApiCall "jwt-1" => Throws (JSError "MCP request failed: 401")
    | _ => Returns (JSString "rows")
    end.

Definition issues_jwt2 : list CDataContext.Event -> Outcome string :=
  fun _ => Returns "jwt-2".

Definition issuer_down : list CDataContext.Event -> Outcome string :=
  fun _ => Throws (JSError "Failed to generate JWT from server").

Definition no_tools : list CDataContext.Event -> Outcome JSValue :=
  fun _ => Returns (JSArray []).

(** The gateway turns the tool listing down. *)
Definition tools_down : list CDataContext.Event -> Outcome JSValue :=
  fun _ => Throws (JSError "MCP request failed: 500").

Definition two_hours_in : list CDataContext.Event -> Z := fun _ => 7200000.

(** [{"jsonrpc":"2.0","id":2,"result":{"tools":[]}}] *)
Definition rpc_no_tools : string :=
  "{" +:+ quoted "jsonrpc" +:+ ":" +:+ quoted "2.0" +:+ "," +:+ quoted "id" +:+ ":2,"
      +:+ quoted "result" +:+ ":{" +:+ quoted "tools" +:+ ":[]}}".

Definition unauthorized : Cdata.Response :=
  {| Cdata.ok := false; Cdata.status := 401; Cdata.content_type := None;
     Cdata.body := Returns "Unauthorized" |}.

(** A gateway on which the token [jwt-1] has been revoked: it turns down
    every request that carries it, and serves the others. *)
Definition revoked_jwt1 : list Cdata.HttpCall -> Outcome Cdata.Response :=
  fun calls =>
    match last calls with
    | Some call =>
        if String.eqb (Cdata.bearer call) "jwt-1" then Returns unauthorized
        else if String.eqb (Cdata.method (Cdata.payload call)) "tools/list"
             then json_reply rpc_no_tools calls
             else json_reply rpc_seven calls
    | None => Throws (JSError "Failed to fetch")
    end.

(** ** The agentic loop *)

Definition text_of (s : string) : Llm.AnthropicContentBlock :=
  {| Llm.type := Llm.text_block; Llm.text := Some s; Llm.id := None;
     Llm.block_name := None; Llm.input := None; Llm.tool_use_id := None;
     Llm.content := None |}.

Definition tool_use_of (i n : string) (args : JSValue) : Llm.AnthropicContentBlock :=
  {| Llm.type := Llm.tool_use_block; Llm.text := None; Llm.id := Some i;
     Llm.block_name := Some n; Llm.input := Some args; Llm.tool_use_id := None;
     Llm.content := None |}.

Definition query (sql : string) : JSValue := JSObject [("query", JSString sql)].

Definition replies (r : Llm.AnthropicResponse) : Outcome Llm.HttpResponse :=
  Returns {| Llm.ok := true; Llm.status := 200;
             Llm.body_text := Returns EmptyString; Llm.body_json := Returns r |}.

Definition fetches (tr : list Llm.Event) : nat :=
  length (List.filter Llm.is_fetch tr).

Definition tool_calls (tr : list Llm.Event) : nat :=
  length (List.filter Llm.is_tool_call tr).

(** The engine answers its n-th request with the n-th response of a
    script, and with the last one from then on. *)
Definition scripted (first : Llm.AnthropicResponse) (others : list Llm.AnthropicResponse)
  : list Llm.Event -> Outcome Llm.HttpResponse :=
  fun tr => replies (nth (fetches tr - 1) (first :: others) (List.last others first)).

Definition answer : Llm.AnthropicResponse :=
  {| Llm.response_id := "msg_2";
     Llm.response_content := [text_of "Account 1 has 3 open tickets."];
     Llm.stop_reason := Llm.end_turn;
     Llm.usage := Some {| Llm.input_tokens := 40; Llm.output_tokens := 9 |} |}.

Definition asks_one_tool : Llm.AnthropicResponse :=
  {| Llm.response_id := "msg_1";
     Llm.response_content :=
       [text_of "Let me look that up.";
        tool_use_of "toolu_1" "queryData" (query "SELECT 1")];
     Llm.stop_reason := Llm.tool_use;
     Llm.usage := Some {| Llm.input_tokens := 25; Llm.output_tokens := 12 |} |}.

Definition asks_two_tools : Llm.AnthropicResponse :=
  {| Llm.response_id := "msg_1";
     Llm.response_content :=
       [tool_use_of "toolu_1" "queryData" (query "SELECT 1");
        tool_use_of "toolu_2" "queryData" (query "SELECT 2")];
     Llm.stop_reason := Llm.tool_use;
     Llm.usage := Some {| Llm.input_tokens := 25; Llm.output_tokens := 12 |} |}.

(** The tools of a server: one fully described, one with neither
    description nor schema, one with an empty description and a [null]
    schema. *)
Definition offered_tools : list Llm.MCPTool :=
  [ {| Llm.name := "queryData"; Llm.description := Some "Run a SQL query";
       Llm.inputSchema :=
         Some (JSObject [("type", JSString "object");
                         ("required", JSArray [JSString "query"])]) |};
    {| Llm.name := "getTables"; Llm.description := None; Llm.inputSchema := None |};
    {| Llm.name := "getColumns"; Llm.description := Some EmptyString;
       Llm.inputSchema := Some JSNull |} ].

(** An answer in two text blocks. *)
Definition answer_in_two_parts : Llm.AnthropicResponse :=
  {| Llm.response_id := "msg_2";
     Llm.response_content :=
       [text_of "Account 1 has 3 open tickets."; text_of "Two of them are urgent."];
     Llm.stop_reason := Llm.end_turn;
     Llm.usage := Some {| Llm.input_tokens := 40; Llm.output_tokens := 15 |} |}.

(** A response with a text block before and after the tool use. *)
Definition asks_with_two_texts : Llm.AnthropicResponse :=
  {| Llm.response_id := "msg_1";
     Llm.response_content :=
       [text_of "Let me look that up.";
        tool_use_of "toolu_1" "queryData" (query "SELECT 1");
        text_of "One moment."];
     Llm.stop_reason := Llm.tool_use;
     Llm.usage := Some {| Llm.input_tokens := 25; Llm.output_tokens := 16 |} |}.

(** A response whose only text block is a blank. *)
Definition asks_with_blank_text : Llm.AnthropicResponse :=
  {| Llm.response_id := "msg_1";
     Llm.response_content :=
       [text_of " "; tool_use_of "toolu_1" "queryData" (query "SELECT 1")];
     Llm.stop_reason := Llm.tool_use;
     Llm.usage := Some {| Llm.input_tokens := 25; Llm.output_tokens := 12 |} |}.

Definition tool_succeeds : list Llm.Event -> Outcome JSValue :=
  fun _ => Returns (JSArray [JSObject [("AccountId", JSString "1"); ("count", JSNumber 3)]]).

(** The first tool call of a run is turned down, the later ones succeed. *)
Definition first_tool_fails : list Llm.Event -> Outcome JSValue :=
  fun tr =>
    if Nat.leb (tool_calls tr) 1
    then Throws (JSError "MCP request failed: 500")
    else tool_succeeds tr.

(** A progress callback that returns normally on every update. *)
Definition listener : list Llm.Event -> option JSValue := fun _ => None.

(** A progress callback that throws while it handles [tool_complete]. *)
Definition listener_failing_on_complete : list Llm.Event -> option JSValue :=
  fun tr =>
    match List.last tr Llm.EvDate with
    | Llm.EvUpdate u =>
        match Llm.update_type u with
        | Llm.tool_complete => Some (JSError "render failed")
        | _ => None
        end
    | _ => None
    end.

(** A progress callback that throws while it handles [tool_error]. *)
Definition listener_failing_on_error : list Llm.Event -> option JSValue :=
  fun tr =>
    match List.last tr Llm.EvDate with
    | Llm.EvUpdate u =>
        match Llm.update_type u with
        | Llm.tool_error => Some (JSError "render failed")
        | _ => None
        end
    | _ => None
    end.

(** A progress callback that throws while it handles a [tool_start] that
    comes after a tool call. *)
Definition listener_failing_on_later_start : list Llm.Event -> option JSValue :=
  fun tr =>
    match List.last tr Llm.EvDate with
    | Llm.EvUpdate u =>
        match Llm.update_type u with
        | Llm.tool_start =>
            if Nat.leb 1 (tool_calls tr) then Some (JSError "render failed") else None
        | _ => None
        end
    | _ => None
    end.

Definition wall_clock : list Llm.Event -> Z := fun tr => Z.of_nat (length tr).

Definition history : Llm.loc := 1%positive.

(** A store that holds the caller's history, one earlier exchange. *)
Definition start : Llm.State :=
  {| Llm.heap := {[ history :=
                      [ {| Llm.role := Llm.user; Llm.message_content := Llm.Plain "Hello" |};
                        {| Llm.role := Llm.assistant; Llm.message_content := Llm.Plain "Hi!" |} ] ]};
     Llm.trace := [];
     Llm.logEntries := [];
     Llm.toolCalls := [];
     Llm.toolResults := [] |}.

Definition question : string := "How many open tickets per account?".

Definition messages_of_run : Llm.loc := 2%positive.

(** The store of a run that has sent the question and is about to go
    through a round. *)
Definition asked : Llm.State :=
  {| Llm.heap :=
       <[ messages_of_run :=
            [ {| Llm.role := Llm.user; Llm.message_content := Llm.Plain "Hello" |};
              {| Llm.role := Llm.assistant; Llm.message_content := Llm.Plain "Hi!" |};
              {| Llm.role := Llm.user; Llm.message_content := Llm.Plain question |} ] ]>
         (Llm.heap start);
     Llm.trace := [];
     Llm.logEntries := [];
     Llm.toolCalls := [];
     Llm.toolResults := [] |}.

(** The messages of the last request a trace holds. *)
Definition last_request (tr : list Llm.Event) : list Llm.AnthropicMessage :=
  match List.filter Llm.is_fetch tr with
  | [] => []
  | ev :: evs =>
      match List.last evs ev with
      | Llm.EvFetch w => Llm.wire_messages w
      | _ => []
      end
  end.

(** The [tool_use_id] and the [content] of the blocks of a message. *)
Definition blocks_of (m : option Llm.AnthropicMessage)
  : list (option string * option string) :=
  match m with
  | Some {| Llm.message_content := Llm.Blocks bs |} =>
      map (fun b => (Llm.tool_use_id b, Llm.content b)) bs
  | _ => []
  end.

End Scenario.

(** * Properties *)

(** ** Computations *)

(** Case analysis on the innermost scrutinee of the goal. *)
Ltac case_step :=
  match goal with
  | |- context [match ?x with _ => _ end] =>
      lazymatch x with
      | context [match _ with _ => _ end] => fail
      | _ => destruct x eqn:?; simpl
      end
  end.


Section Computations.

Context {S : Type}.

Lemma bind_normal {A B} (m : M S A) (k : A -> M S B) s a s' :
  m s = (Normal a, s') -> bind m k s = k a s'.
Proof. intros H. unfold bind. now rewrite H. Qed.

Lemma bind_throw {A B} (m : M S A) (k : A -> M S B) s e s' :
  m s = (Throw e, s') -> bind m k s = (Throw e, s').
Proof. intros H. unfold bind. now rewrite H. Qed.

Lemma bind_assoc {A B C} (m : M S A) (k : A -> M S B) (h : B -> M S C) s :
  bind (bind m k) h s = bind m (fun a => bind (k a) h) s.
Proof. unfold bind. destruct (m s) as [[a | e |] s']; reflexivity. Qed.

Lemma for_of_app {A} (xs ys : list A) (body : A -> M S unit) s :
  for_of (xs ++ ys) body s = bind (for_of xs body) (fun _ => for_of ys body) s.
Proof.
  revert s. induction xs as [| x xs IH]; intros s; simpl.
  - reflexivity.
  - unfold bind at 1. rewrite bind_assoc. unfold bind at 1.
    destruct (body x s) as [[[] | e |] s']; auto.
Qed.

Lemma keeps_weaken {A} (R R' : relation S) (m : M S A) :
  (forall s s', R s s' -> R' s s') -> keeps R m -> keeps R' m.
Proof. intros H Hm s. apply H, Hm. Qed.

Section Keeps.

Context (R : relation S) `{!PreOrder R}.

Lemma keeps_ret {A} (a : A) : keeps R (ret a).
Proof. intros s. reflexivity. Qed.

Lemma keeps_throw {A} e : keeps R (@throw S A e).
Proof. intros s. reflexivity. Qed.

Lemma keeps_out_of_fuel {A} : keeps R (@out_of_fuel S A).
Proof. intros s. reflexivity. Qed.

Lemma keeps_get : keeps R get.
Proof. intros s. reflexivity. Qed.

Lemma keeps_settle {A} (o : S -> Outcome A) : keeps R (settle o).
Proof. intros s. unfold settle. destruct (o s); reflexivity. Qed.

Lemma keeps_modify (f : S -> S) : (forall s, R s (f s)) -> keeps R (modify f).
Proof. intros H s. apply H. Qed.

Lemma keeps_bind {A B} (m : M S A) (k : A -> M S B) :
  keeps R m -> (forall a, keeps R (k a)) -> keeps R (bind m k).
Proof.
  intros Hm Hk s. unfold bind. specialize (Hm s).
  destruct (m s) as [[a | e |] s']; simpl in *; auto.
  etransitivity; [exact Hm | apply Hk].
Qed.

Lemma keeps_try_catch {A} (m : M S A) (h : JSValue -> M S A) :
  keeps R m -> (forall e, keeps R (h e)) -> keeps R (try_catch m h).
Proof.
  intros Hm Hh s. unfold try_catch. specialize (Hm s).
  destruct (m s) as [[a | e |] s']; simpl in *; auto.
  etransitivity; [exact Hm | apply Hh].
Qed.

Lemma keeps_try_finally {A} (m : M S A) (f : S -> S) :
  keeps R m -> (forall s, R s (f s)) -> keeps R (try_finally m f).
Proof.
  intros Hm Hf s. unfold try_finally. specialize (Hm s).
  destruct (m s) as [r s']; simpl in *. etransitivity; [exact Hm | apply Hf].
Qed.

Lemma keeps_for_of {A} (xs : list A) (body : A -> M S unit) :
  (forall x, keeps R (body x)) -> keeps R (for_of xs body).
Proof.
  intros H. induction xs; simpl.
  - apply keeps_ret.
  - apply keeps_bind; auto.
Qed.

End Keeps.

End Computations.

(** ** The JSON-RPC client *)

Section ClientFacts.

Import Cdata.

Context `{rt : Runtime}.
Variable net : list HttpCall -> Outcome Response.

(** Whatever the network answers, a call of [mcpRequest] bumps the counter
    once and sends one request, with the new counter as its id. *)
Lemma mcpRequest_state token method params st :
  snd (mcpRequest net token method params st)
  = after_call (call_of token method params st) st.
Proof.
  unfold mcpRequest, bind, pre_increment, fetch, bind, modify, settle,
    response_json, bind, settle, throw, after_call, call_of; simpl.
  repeat case_step; reflexivity.
Qed.

Lemma run_op_state op st :
  exists c, snd (run_op net op st) = after_call c st
            /\ id (payload c) = requestId st + 1.
Proof.
  destruct op as [token method params | token | token name args]; simpl.
  - eexists; split; [apply mcpRequest_state | reflexivity].
  - exists (call_of token "tools/list" None st). split; [| reflexivity].
    unfold listMCPTools, bind.
    pose proof (mcpRequest_state token "tools/list" None st) as H.
    destruct (mcpRequest net token "tools/list" None st) as [[v | e |] st'];
      simpl in *; auto.
    unfold settle. destruct (get_prop v "tools"); simpl; auto.
  - exists (call_of token "tools/call"
              (Some (JSObject [("name", JSString name); ("arguments", args)])) st).
    split; [| reflexivity].
    unfold callMCPTool, bind.
    match goal with |- context [mcpRequest net ?t ?m ?p st] =>
      pose proof (mcpRequest_state t m p st) as H;
      destruct (mcpRequest net t m p st) as [[v | e |] st']
    end; simpl in *; exact H.
Qed.

Lemma ids_in_order_initial : ids_in_order initial.
Proof. split; constructor. Qed.

Lemma ids_in_order_step op st :
  ids_in_order st -> ids_in_order (snd (run_op net op st)).
Proof.
  intros [Hsorted Hbound].
  destruct (run_op_state op st) as (c & -> & Hid).
  unfold ids_in_order, sent_ids, after_call in *; simpl.
  rewrite map_app; simpl. rewrite Hid. split.
  - apply StronglySorted_app_2; auto.
    + intros x1 x2 Hx1 Hx2. apply list_elem_of_singleton in Hx2 as ->.
      rewrite Forall_forall in Hbound. specialize (Hbound _ Hx1). lia.
    + repeat constructor.
  - apply Forall_app; split.
    + eapply Forall_impl; [exact Hbound |]. simpl; intros; lia.
    + repeat constructor. lia.
Qed.

Lemma ids_in_order_session ops st :
  ids_in_order st -> ids_in_order (session net ops st).
Proof.
  revert st. induction ops as [| op ops IH]; intros st H; simpl; auto.
  apply IH, ids_in_order_step, H.
Qed.

(** The decoder of streamed bodies computes what the specification
    describes, given that [JSON.parse] rejects blank text. *)
Lemma sse_line_spec acc line :
  (forall s, trim s = "" -> exists e, JSON_parse s = Throws e) ->
  sse_line acc line = default acc (data_line_json line).
Proof.
  intros Hblank. unfold sse_line, data_line_json.
  destruct (startsWith line "data: "); [| reflexivity].
  unfold truthy_string.
  destruct (String.eqb_spec (trim (slice 6 line)) "") as [Hb | Hb]; cbn [negb].
  - destruct (Hblank _ Hb) as [e ->]. reflexivity.
  - destruct (JSON_parse (slice 6 line)); reflexivity.
Qed.

Lemma sse_scan_spec text :
  (forall s, trim s = "" -> exists e, JSON_parse s = Throws e) ->
  sse_scan (split_lines text) = default JSNull (last_wellformed_data text).
Proof.
  intros Hblank. unfold sse_scan, last_wellformed_data.
  generalize JSNull. induction (split_lines text) as [| l ls IH]; intros acc; simpl.
  - reflexivity.
  - rewrite IH, sse_line_spec by assumption.
    destruct (data_line_json l) as [v |]; simpl; [| reflexivity].
    rewrite last_cons. clear IH. destruct (last _); reflexivity.
Qed.

Lemma strictly_increasing_NoDup (l : list Z) : StronglySorted Z.lt l -> NoDup l.
Proof.
  induction 1 as [| x l Hs IH Hx]; constructor; auto.
  intros Hin. rewrite Forall_forall in Hx. specialize (Hx _ Hin). lia.
Qed.

(** C10: every request carries the pre-incremented module counter as its
    id, which is strictly greater than the id of every request sent earlier
    in the session, so that no two requests of a session share an id;
    this holds across [mcpRequest], [listMCPTools] and [callMCPTool] and
    whatever the network answered to the earlier requests. *)
Theorem request_ids_strictly_increase (ops : list Op) (op : Op) :
  let st := session net ops initial in
  let st' := snd (run_op net op st) in
  exists c,
    sent st' = sent st ++ [c]
    /\ id (payload c) = requestId st + 1
    /\ Forall (fun i => i < id (payload c)) (sent_ids st)
    /\ StronglySorted Z.lt (sent_ids st')
    /\ NoDup (sent_ids st').
Proof.
  intros st st'.
  assert (Hst : ids_in_order st) by apply ids_in_order_session, ids_in_order_initial.
  assert (Hst' : ids_in_order st') by apply ids_in_order_step, Hst.
  subst st'. destruct (run_op_state op st) as (c & Hc & Hid).
  rewrite Hc in *. exists c. repeat split.
  - exact Hid.
  - destruct Hst as [_ Hb]. eapply Forall_impl; [exact Hb |].
    simpl; intros; lia.
  - apply Hst'.
  - apply strictly_increasing_NoDup, Hst'.
Qed.


End ClientFacts.

(** ** The ASCII built-ins *)

Section AsciiFacts.

Import AsciiRuntime.

Lemma trim_start_head s :
  trim_start s = EmptyString
  \/ exists c r, trim_start s = String c r /\ is_space c = false.
Proof.
  induction s as [| c s IH]; simpl; auto.
  destruct (is_space c) eqn:E; auto. right. now exists c, s.
Qed.

Lemma trim_end_head c r : is_space c = false -> trim_end (String c r) <> EmptyString.
Proof. intros E. simpl. destruct (trim_end r); [rewrite E |]; discriminate. Qed.

(** [JSON.parse] rejects text that trims to nothing. *)
Lemma ascii_blank_rejected s :
  ascii_trim s = EmptyString -> exists e, ascii_JSON_parse s = Throws e.
Proof.
  unfold ascii_trim. intros H.
  destruct (trim_start_head s) as [E | (c & r & E & Hc)].
  - exists SyntaxError. unfold ascii_JSON_parse. simpl. rewrite E. reflexivity.
  - rewrite E in H. now apply trim_end_head in H.
Qed.

End AsciiFacts.

Section ClientRuns.

Import Cdata AsciiRuntime Scenario.



End ClientRuns.

(** ** The REST client and the query helper *)

Section QueryFacts.

Import CdataApi.

Lemma fill_lookup_other i columns row obj k :
  k = "__proto__" \/ ~ In k (map columnName columns) ->
  fill i columns row obj !! k = obj !! k.
Proof.
  revert i obj. induction columns as [| col rest IH]; intros i obj Hk; simpl.
  - reflexivity.
  - rewrite IH.
    + unfold assign. destruct (String.eqb_spec (columnName col) "__proto__") as [Hp | Hp];
        [reflexivity |].
      apply lookup_insert_ne. destruct Hk as [-> | Hk]; [exact Hp |].
      intros <-. apply Hk. now left.
    + destruct Hk as [Hk | Hk]; [now left | right].
      intros Hin. apply Hk. now right.
Qed.

(** The value under a column name is the cell of the last column of that
    name. *)
Lemma fill_lookup_last i columns row obj j col :
  columns !! j = Some col ->
  columnName col <> "__proto__" ->
  (forall j' col', (j < j')%nat -> columns !! j' = Some col' ->
                   columnName col' <> columnName col) ->
  fill i columns row obj !! columnName col = Some (nth (i + j) row JSUndefined).
Proof.
  revert i j obj. induction columns as [| c rest IH]; intros i j obj Hj Hp Hlast.
  - discriminate.
  - destruct j as [| j]; simpl in Hj |- *.
    + inversion Hj; subst c. rewrite fill_lookup_other.
      * unfold assign. destruct (String.eqb_spec (columnName col) "__proto__");
          [contradiction |].
        rewrite lookup_insert_eq. now rewrite Nat.add_0_r.
      * right. intros Hin. apply in_map_iff in Hin as (col' & Heq & Hin).
        apply list_elem_of_In, list_elem_of_lookup_1 in Hin as [j' Hj'].
        apply (Hlast (S j') col'); [lia | exact Hj' | exact Heq].
    + rewrite (IH (S i) j); [f_equal; f_equal; lia | exact Hj | exact Hp |].
      intros j' col' Hlt Hj'. apply (Hlast (S j') col'); [lia | exact Hj'].
Qed.

Lemma fill_is_Some i columns row obj k :
  is_Some (fill i columns row obj !! k)
  <-> is_Some (obj !! k) \/ (In k (map columnName columns) /\ k <> "__proto__").
Proof.
  revert i obj. induction columns as [| col rest IH]; intros i obj; simpl.
  - split; [auto | intros [H | [[] _]]; exact H].
  - rewrite IH. unfold assign.
    destruct (String.eqb_spec (columnName col) "__proto__") as [Hp | Hp].
    + split.
      * intros [H | [H1 H2]]; [now left | right; split; [now right | exact H2]].
      * intros [H | [[H1 | H1] H2]]; [now left | congruence | right; now split].
    + split.
      * intros [H | [H1 H2]].
        -- destruct (String.eqb_spec (columnName col) k) as [<- | Hne].
           ++ right. split; [now left | exact Hp].
           ++ left. now rewrite lookup_insert_ne in H.
        -- right. split; [now right | exact H2].
      * intros [H | [[H1 | H1] H2]].
        -- left. destruct (String.eqb_spec (columnName col) k) as [<- | Hne].
           ++ rewrite lookup_insert_eq. eauto.
           ++ now rewrite lookup_insert_ne.
        -- left. subst k. rewrite lookup_insert_eq. eauto.
        -- right. now split.
Qed.

(** X14: [queryResultToObjects] returns one object per row, in order,
    and the own properties of every object are exactly the column names
    of the schema (the name ["__proto__"] excepted, which an assignment
    does not turn into a property), however many cells the row has. *)
Theorem query_objects_have_the_schema_keys (result : QueryResult) :
  length (queryResultToObjects result) = length (rows result)
  /\ forall (i : nat) (obj : gmap string JSValue),
       queryResultToObjects result !! i = Some obj ->
       forall k, is_Some (obj !! k)
                 <-> In k (map columnName (schema result)) /\ k <> "__proto__".
Proof.
  unfold queryResultToObjects. split; [apply length_map |].
  intros i obj Hi k.
  change (@map (list JSValue)) with (@fmap list _ (list JSValue)) in Hi.
  rewrite list_lookup_fmap in Hi.
  destruct (rows result !! i) as [row |]; [| discriminate].
  inversion Hi; subst obj. rewrite fill_is_Some, lookup_empty.
  split; [intros [[x H] | H]; [discriminate | exact H] | now right].
Qed.

(** X15: in the object that [queryResultToObjects] makes of a row, the
    property named after a column holds the cell of the row at that
    column's index, and [undefined] when the row is too short, provided
    no later column of the schema has the same name (of columns with the
    same name the last one wins) and the name is not ["__proto__"]. *)
Theorem query_object_holds_the_row (result : QueryResult) (i j : nat)
    (row : list JSValue) (col : QueryResultSchema) :
  rows result !! i = Some row ->
  schema result !! j = Some col ->
  columnName col <> "__proto__" ->
  (forall j' col', (j < j')%nat -> schema result !! j' = Some col' ->
                   columnName col' <> columnName col) ->
  exists obj,
    queryResultToObjects result !! i = Some obj
    /\ obj !! columnName col = Some (nth j row JSUndefined).
Proof.
  intros Hi Hj Hp Hlast. unfold queryResultToObjects.
  exists (fill 0 (schema result) row ∅). split.
  - change (@map (list JSValue)) with (@fmap list _ (list JSValue)).
    now rewrite list_lookup_fmap, Hi.
  - now rewrite (fill_lookup_last 0 (schema result) row ∅ j col Hj Hp Hlast).
Qed.

End QueryFacts.

Section ApiFacts.

Import CdataApi.

Context `{rt : Runtime}.
Variable isDevServer : bool.
Variable location_origin : string.
Variable location_pathname : string.
Variable net : list Event -> Outcome Cdata.Response.

Abbreviation listConnections := (listConnections isDevServer net).
Abbreviation list_request := (list_request isDevServer).
Abbreviation create_request := (create_request isDevServer).
Abbreviation redirect_of := (redirect_of location_origin location_pathname).
Abbreviation queryData := (queryData isDevServer net).
Abbreviation deleteConnection := (deleteConnection isDevServer net).
Abbreviation getConnectionCreateURL :=
  (getConnectionCreateURL isDevServer location_origin location_pathname net).
Abbreviation getGenericConnectionURL :=
  (getGenericConnectionURL isDevServer location_origin location_pathname net).

Lemma fetch_spec request tr :
  fetch net request tr
  = (completion_of (net (tr ++ [EvFetch request])), tr ++ [EvFetch request]).
Proof.
  unfold fetch, bind, modify, settle.
  destruct (net (tr ++ [EvFetch request])); reflexivity.
Qed.

(** What [listConnections] makes of a response that is in order. *)
Lemma listConnections_ok token tr response text data :
  net (tr ++ [EvFetch (list_request token)]) = Returns response ->
  Cdata.ok response = true ->
  Cdata.body response = Returns text ->
  JSON_parse text = Returns data ->
  listConnections token tr
  = (completion_of (and_then (connections_of data) (map_outcome connection_of)),
     tr ++ [EvFetch (list_request token);
            EvConsoleLog "Connection list API response:" data]).
Proof.
  intros Hnet Hok Hbody Hparse. unfold CdataApi.listConnections.
  unfold bind at 1. rewrite fetch_spec, Hnet. cbn [completion_of]. rewrite Hok.
  cbn [negb]. unfold response_json, response_text, console_log, bind, settle, modify.
  rewrite Hbody, Hparse. rewrite <- app_assoc. cbn [app].
  destruct (connections_of data) as [items | e]; [| reflexivity].
  cbn [and_then]. destruct (map_outcome connection_of items); reflexivity.
Qed.

Lemma map_outcome_returns {A B} (f : A -> Outcome B) items ys :
  map_outcome f items = Returns ys ->
  Forall2 (fun x y => f x = Returns y) items ys.
Proof.
  revert ys. induction items as [| x items IH]; intros ys H; simpl in H.
  - inversion H. constructor.
  - destruct (f x) as [y | e] eqn:Hx; [| discriminate]. simpl in H.
    destruct (map_outcome f items) as [ys' | e]; [| discriminate].
    inversion H; subst. constructor; auto.
Qed.

Lemma connection_of_driver conn c :
  connection_of conn = Returns c ->
  driver c = JSString "" \/ truthy (driver c) = true.
Proof.
  unfold connection_of, and_then, or_value. intros H.
  destruct (get_prop conn "id"); [| discriminate].
  destruct (get_prop conn "name"); [| discriminate].
  destruct (get_prop conn "dataSource") as [dataSource |]; [| discriminate].
  match type of H with
  | match ?d with _ => _ end = _ => destruct d as [conn_driver |] eqn:Hd; [| discriminate]
  end.
  destruct (get_prop conn "iconUrl"); [| discriminate].
  match type of H with
  | match ?d with _ => _ end = _ => destruct d; [| discriminate]
  end.
  inversion H; subst c; clear H. simpl.
  destruct (truthy dataSource) eqn:Hds.
  - inversion Hd; subst. now right.
  - destruct (get_prop conn "driver") as [d |]; [| discriminate].
    inversion Hd; subst. destruct (truthy d) eqn:Htd; auto.
Qed.

(** X16: when [listConnections] returns, it has made one request, a GET
    of the connection list with the token as bearer and no body, and has
    logged the payload; it returns one connection per element of the
    payload's list (the payload itself when it is an array, its
    [connections] property otherwise, nothing when that is missing), in
    order, and the driver of each is a truthy value or the empty string,
    never [undefined] or [null]. *)
Theorem listed_connections_have_a_driver (token : string) (tr tr' : State)
    (conns : list Connection) :
  listConnections token tr = (Normal conns, tr') ->
  exists data items,
    tr' = tr ++ [EvFetch (list_request token);
                 EvConsoleLog "Connection list API response:" data]
    /\ connections_of data = Returns items
    /\ Forall2 (fun item c => connection_of item = Returns c) items conns
    /\ Forall (fun c => driver c = JSString "" \/ truthy (driver c) = true) conns.
Proof.
  intros H. unfold CdataApi.listConnections in H.
  unfold bind at 1 in H. rewrite fetch_spec in H.
  destruct (net (tr ++ [EvFetch (list_request token)])) as [response | e];
    [| discriminate].
  cbn [completion_of] in H. destruct (Cdata.ok response); cbn [negb] in H.
  - unfold response_json, response_text, console_log, bind, settle, modify in H.
    destruct (Cdata.body response) as [text | e]; [| discriminate].
    destruct (JSON_parse text) as [data | e]; [| discriminate].
    destruct (connections_of data) as [items | e] eqn:Hitems; [| discriminate].
    destruct (map_outcome connection_of items) as [cs | e] eqn:Hmap; [| discriminate].
    inversion H; subst. exists data, items.
    apply map_outcome_returns in Hmap.
    split; [now rewrite <- app_assoc |]. split; [exact Hitems |]. split; [exact Hmap |].
    clear -Hmap. induction Hmap as [| item c items cs Hc _ IH]; constructor; auto.
    eapply connection_of_driver, Hc.
  - unfold response_text, bind, settle, throw in H.
    destruct (Cdata.body response); discriminate.
Qed.

(** What the two URL functions make of a response that is in order. *)
Lemma getConnectionCreateURL_ok token dataSource connectionName redirectUrl tr
    response text data :
  net (tr ++ [EvFetch (create_request token
                         (JSObject [("dataSource", JSString dataSource);
                                    ("name", JSString connectionName);
                                    ("redirectURL", JSString (redirect_of redirectUrl))]))])
  = Returns response ->
  Cdata.ok response = true ->
  Cdata.body response = Returns text ->
  JSON_parse text = Returns data ->
  fst (getConnectionCreateURL token dataSource connectionName redirectUrl tr)
  = url_result data.
Proof.
  intros Hnet Hok Hbody Hparse. unfold CdataApi.getConnectionCreateURL.
  unfold bind at 1. rewrite fetch_spec, Hnet. cbn [completion_of]. rewrite Hok.
  cbn [negb]. unfold response_json, response_text, console_log, bind, settle, modify.
  rewrite Hbody, Hparse. unfold url_result.
  destruct (url_of data) as [u | e]; [| reflexivity].
  destruct (url_truthy u); [reflexivity |]. cbn [negb].
  destruct (JSON_stringify data); reflexivity.
Qed.

Lemma getGenericConnectionURL_ok token redirectUrl tr response text data :
  net (tr ++ [EvFetch (create_request token
                         (JSObject [("redirectURL", JSString (redirect_of redirectUrl))]))])
  = Returns response ->
  Cdata.ok response = true ->
  Cdata.body response = Returns text ->
  JSON_parse text = Returns data ->
  fst (getGenericConnectionURL token redirectUrl tr) = url_result data.
Proof.
  intros Hnet Hok Hbody Hparse. unfold CdataApi.getGenericConnectionURL.
  unfold bind at 1. rewrite fetch_spec, Hnet. cbn [completion_of]. rewrite Hok.
  cbn [negb]. unfold response_json, response_text, console_log, bind, settle, modify.
  rewrite Hbody, Hparse. unfold url_result.
  destruct (url_of data) as [u | e]; [| reflexivity].
  destruct (url_truthy u); [reflexivity |]. cbn [negb].
  destruct (JSON_stringify data); reflexivity.
Qed.

(** On an object, the chain of [||] finds the first truthy field. *)
Lemma url_of_object fields :
  match List.find truthy (map (fun k => assoc k fields) url_fields) with
  | Some v => url_of (JSObject fields) = Returns (Field v) /\ truthy v = true
  | None => exists v, url_of (JSObject fields) = Returns (Field v) /\ truthy v = false
  end.
Proof.
  unfold url_of, url_fields, first_truthy, read_field, and_then, get_prop.
  cbn [map List.find String.eqb Ascii.eqb Bool.eqb andb url_truthy].
  destruct (truthy (assoc "redirectURL" fields)) eqn:H1; [auto |].
  destruct (truthy (assoc "url" fields)) eqn:H2; [auto |].
  destruct (truthy (assoc "URL" fields)) eqn:H3; [auto |].
  destruct (truthy (assoc "redirectUrl" fields)) eqn:H4; [auto |].
  destruct (truthy (assoc "link" fields)) eqn:H5; [auto |].
  destruct (truthy (assoc "connectionUrl" fields)) eqn:H6; [auto |].
  eexists. split; [reflexivity | exact H6].
Qed.

(** X17: given a response in order whose body decodes to an object,
    [getConnectionCreateURL] and [getGenericConnectionURL] both return
    the value of the first of the fields [redirectURL], [url], [URL],
    [redirectUrl], [link], [connectionUrl] that is truthy, and both throw
    when none of them is: neither ever returns a falsy URL. *)
Theorem connection_url_is_the_first_truthy_field
    (token dataSource connectionName : string) (redirectUrl : option string)
    (tr tr' : State) (response : Cdata.Response) (text : string)
    (fields : list (string * JSValue)) :
  net (tr ++ [EvFetch (create_request token
                         (JSObject [("dataSource", JSString dataSource);
                                    ("name", JSString connectionName);
                                    ("redirectURL", JSString (redirect_of redirectUrl))]))])
  = Returns response ->
  net (tr' ++ [EvFetch (create_request token
                          (JSObject [("redirectURL", JSString (redirect_of redirectUrl))]))])
  = Returns response ->
  Cdata.ok response = true ->
  Cdata.body response = Returns text ->
  JSON_parse text = Returns (JSObject fields) ->
  let specific := fst (getConnectionCreateURL token dataSource connectionName redirectUrl tr) in
  let generic := fst (getGenericConnectionURL token redirectUrl tr') in
  specific = generic
  /\ match List.find truthy (map (fun k => assoc k fields) url_fields) with
     | Some v => specific = Normal (Field v) /\ truthy v = true
     | None => exists e, specific = Throw e
     end.
Proof.
  intros Hnet Hnet' Hok Hbody Hparse specific generic. subst specific generic.
  rewrite (getConnectionCreateURL_ok _ _ _ _ _ _ _ _ Hnet Hok Hbody Hparse).
  rewrite (getGenericConnectionURL_ok _ _ _ _ _ _ Hnet' Hok Hbody Hparse).
  split; [reflexivity |].
  pose proof (url_of_object fields) as H. unfold url_result.
  destruct (List.find truthy _) as [v |].
  - destruct H as [-> Hv]. cbn [url_truthy]. rewrite Hv. auto.
  - destruct H as (v & -> & Hv). cbn [url_truthy]. rewrite Hv.
    destruct (JSON_stringify (JSObject fields)); eauto.
Qed.

Lemma prefix_append (needle rest : string) :
  String.prefix needle (needle +:+ rest) = true.
Proof.
  induction needle as [| c needle IH]; simpl.
  - destruct rest; reflexivity.
  - destruct (ascii_dec c c); [exact IH | contradiction].
Qed.

Lemma includes_401 (before after : string) :
  includes (before +:+ "401" +:+ after) "401" = true.
Proof.
  induction before as [| c before IH].
  - change ("" +:+ "401" +:+ after) with ("401" +:+ after).
    change (includes ("401" +:+ after) "401")
      with (String.prefix "401" ("401" +:+ after) || includes ("01" +:+ after) "401").
    now rewrite prefix_append.
  - simpl. simpl in IH. rewrite IH. apply orb_true_r.
Qed.

(** X18: when the server answers a request with status 401, each of
    [queryData], [listConnections], [deleteConnection],
    [getConnectionCreateURL] and [getGenericConnectionURL] (given that
    the body of the answer can be read) and each of [mcpRequest] and
    [callMCPTool] throws an [Error] that [withAutoRefresh] takes for an
    authentication failure, so that the call is made again with a new
    token. *)
Theorem unauthorized_response_is_an_authentication_error
    (token sql connectionId dataSource connectionName : string)
    (redirectUrl : option string) (tr : State)
    (mcp : list Cdata.HttpCall -> Outcome Cdata.Response)
    (method tool : string) (params : option JSValue) (args : JSValue) (st : Cdata.State)
    (response : Cdata.Response) (text : string) :
  (forall request, net (tr ++ [EvFetch request]) = Returns response) ->
  (forall call, mcp (Cdata.sent st ++ [call]) = Returns response) ->
  Cdata.ok response = false ->
  Cdata.status response = 401 ->
  Cdata.body response = Returns text ->
  let refused (c : option JSValue) :=
    exists err, c = Some err /\ CDataContext.isAuthError err = true in
  let failure {A} (c : Completion A) : option JSValue :=
    match c with Throw e => Some e | _ => None end in
  refused (thrown (queryData token sql) tr)
  /\ refused (thrown (listConnections token) tr)
  /\ refused (thrown (deleteConnection token connectionId) tr)
  /\ refused (thrown (getConnectionCreateURL token dataSource connectionName redirectUrl) tr)
  /\ refused (thrown (getGenericConnectionURL token redirectUrl) tr)
  /\ refused (failure (fst (Cdata.mcpRequest mcp token method params st)))
  /\ refused (failure (fst (Cdata.callMCPTool mcp token tool args st))).
Proof.
  intros Hnet Hmcp Hok Hstatus Hbody refused failure. subst refused failure.
  assert (H401 : pretty (401 : Z) = "401") by reflexivity.
  assert (Hauth : forall before after,
            CDataContext.isAuthError (JSError (before +:+ pretty (401 : Z) +:+ after))
            = true).
  { intros before after. unfold CDataContext.isAuthError.
    rewrite H401, includes_401. reflexivity. }
  assert (Hrequest : forall m p,
            fst (Cdata.mcpRequest mcp token m p st)
            = Throw (JSError ("MCP request failed: " +:+ pretty (401 : Z) +:+ ""))).
  { intros m p. unfold Cdata.mcpRequest, Cdata.pre_increment, Cdata.fetch, bind, modify,
      settle, throw. cbn [Cdata.sent Cdata.requestId fst snd].
    rewrite Hmcp, Hok, Hstatus. cbn [negb fst]. now rewrite H401. }
  repeat split;
    try (unfold thrown, CdataApi.queryData, CdataApi.listConnections,
           CdataApi.deleteConnection, CdataApi.getConnectionCreateURL,
           CdataApi.getGenericConnectionURL;
         unfold bind; rewrite fetch_spec, Hnet; cbn [completion_of];
         rewrite Hok; cbn [negb]; unfold response_text, settle, throw;
         rewrite Hbody, Hstatus; cbn [fst];
         eexists; (split; [reflexivity | apply Hauth])).
  - rewrite Hrequest. eexists. split; [reflexivity | apply Hauth].
  - unfold Cdata.callMCPTool. unfold bind.
    pose proof (Hrequest "tools/call"
                  (Some (JSObject [("name", JSString tool); ("arguments", args)]))) as H.
    destruct (Cdata.mcpRequest mcp token "tools/call" _ st) as [[v | e |] st'];
      simpl in H; try discriminate.
    inversion H; subst e. eexists. split; [reflexivity | apply Hauth].
Qed.

End ApiFacts.

Section ApiShapes.

Import CdataApi.

Context `{rt : Runtime}.
Variable isDevServer : bool.
Variable net1 net2 : list Event -> Outcome Cdata.Response.

(** X19: [listConnections] reads the two shapes of the payload alike: a
    payload that is an array of connections and a payload that is an
    object holding the same array under [connections] give the same
    result, the connections made of the elements of that array. *)
Theorem connection_list_shapes_agree (token : string) (tr1 tr2 : State)
    (r1 r2 : Cdata.Response) (t1 t2 : string)
    (items : list JSValue) (fields : list (string * JSValue)) :
  net1 (tr1 ++ [EvFetch (list_request isDevServer token)]) = Returns r1 ->
  Cdata.ok r1 = true -> Cdata.body r1 = Returns t1 ->
  JSON_parse t1 = Returns (JSArray items) ->
  net2 (tr2 ++ [EvFetch (list_request isDevServer token)]) = Returns r2 ->
  Cdata.ok r2 = true -> Cdata.body r2 = Returns t2 ->
  JSON_parse t2 = Returns (JSObject fields) ->
  assoc "connections" fields = JSArray items ->
  fst (listConnections isDevServer net1 token tr1)
  = fst (listConnections isDevServer net2 token tr2)
  /\ fst (listConnections isDevServer net1 token tr1)
     = completion_of (map_outcome connection_of items).
Proof.
  intros Hnet1 Hok1 Hbody1 Hparse1 Hnet2 Hok2 Hbody2 Hparse2 Hconns.
  rewrite (listConnections_ok isDevServer net1 token tr1 r1 t1 _ Hnet1 Hok1 Hbody1 Hparse1).
  rewrite (listConnections_ok isDevServer net2 token tr2 r2 t2 _ Hnet2 Hok2 Hbody2 Hparse2).
  cbn [fst connections_of get_prop and_then]. rewrite Hconns. cbn [or_value truthy].
  split; reflexivity.
Qed.

End ApiShapes.

Section ApiRuns.

Import CdataApi AsciiRuntime Scenario.

(** The theorem of X15 on a result set whose first and last columns are
    both named [Id]: the property holds the cell of the last one, and the
    cell of a row that is too short reads [undefined]. *)
Lemma query_object_witness :
  (exists obj, queryResultToObjects accounts !! 0%nat = Some obj
               /\ obj !! "Id" = Some (JSNumber 7))
  /\ (exists obj, queryResultToObjects accounts !! 1%nat = Some obj
                  /\ obj !! "Name" = Some JSUndefined).
Proof.
  split.
  - apply (query_object_holds_the_row accounts 0 2
             [JSString "001"; JSString "Acme"; JSNumber 7]
             {| columnName := "Id"; dataTypeName := "INTEGER" |});
      [reflexivity | reflexivity | discriminate |].
    intros [| [| [| j']]] col' Hlt Hj'; try lia. discriminate.
  - apply (query_object_holds_the_row accounts 1 1 [JSString "002"]
             {| columnName := "Name"; dataTypeName := "VARCHAR" |});
      [reflexivity | reflexivity | discriminate |].
    intros [| [| [| j']]] col' Hlt Hj'; try lia; [| discriminate].
    inversion Hj'; subst col'. discriminate.
Defined.

(** The theorem of X16 on a list of two connections, the second of which
    names no driver. *)
Lemma listed_connections_witness :
  let run := listConnections false (api_reply true 200 two_connections) "jwt" [] in
  exists conns,
    fst run = Normal conns
    /\ map driver conns = [JSString "Salesforce"; JSString ""]
    /\ requests (snd run) = [list_request false "jwt"]
    /\ Forall (fun c => driver c = JSString "" \/ truthy (driver c) = true) conns.
Proof.
  cbv zeta.
  destruct (listConnections false (api_reply true 200 two_connections) "jwt" [])
    as [[conns | e |] tr'] eqn:Hrun;
    [| vm_compute in Hrun; discriminate | vm_compute in Hrun; discriminate].
  destruct (listed_connections_have_a_driver (rt := runtime) false
              (api_reply true 200 two_connections) "jwt" [] tr' conns Hrun)
    as (data & items & _ & _ & _ & Hdrivers).
  exists conns. split; [reflexivity |].
  vm_compute in Hrun. inversion Hrun; subst conns tr'. clear Hrun.
  split; [reflexivity |]. split; [reflexivity | exact Hdrivers].
Defined.

(** The theorem of X17 on a response that holds the URL under [url]. *)
Lemma connection_url_witness :
  fst (getConnectionCreateURL false "https://app.example" "/settings"
         (api_reply true 200 url_reply) "jwt" "Salesforce" "Sales" None [])
  = Normal (Field (JSString "https://cloud.cdata.com/connect/1"))
  /\ fst (getGenericConnectionURL false "https://app.example" "/settings"
            (api_reply true 200 url_reply) "jwt" None [])
     = Normal (Field (JSString "https://cloud.cdata.com/connect/1")).
Proof.
  pose proof (connection_url_is_the_first_truthy_field (rt := runtime) false
                "https://app.example" "/settings" (api_reply true 200 url_reply)
                "jwt" "Salesforce" "Sales" None [] [] _ url_reply
                [("status", JSString "ok");
                 ("url", JSString "https://cloud.cdata.com/connect/1")]
                eq_refl eq_refl eq_refl eq_refl ltac:(vm_compute; reflexivity)) as H.
  cbv zeta in H. destruct H as [Hsame H]. cbn [map List.find assoc] in H.
  change (truthy (assoc "redirectURL" [("status", JSString "ok");
            ("url", JSString "https://cloud.cdata.com/connect/1")])) with false in H.
  change (List.find truthy _) with (Some (JSString "https://cloud.cdata.com/connect/1")) in H.
  destruct H as [H _]. rewrite <- Hsame. split; exact H.
Defined.

(** The theorem of X18 on a server that answers 401 with the text
    "expired". *)
Lemma unauthorized_response_witness :
  thrown (queryData false (api_reply false 401 "expired") "jwt" "SELECT 1") []
  = Some (JSError "API query failed: 401 - expired")
  /\ CDataContext.isAuthError (JSError "API query failed: 401 - expired") = true
  /\ exists err,
       fst (Cdata.callMCPTool
              (fun _ => Returns {| Cdata.ok := false; Cdata.status := 401;
                                   Cdata.content_type := Some "application/json";
                                   Cdata.body := Returns "expired" |})
              "jwt" "queryData" (query "SELECT 1") Cdata.initial) = Throw err
       /\ CDataContext.isAuthError err = true.
Proof.
  destruct (unauthorized_response_is_an_authentication_error (rt := runtime) false
              "https://app.example" "/settings" (api_reply false 401 "expired")
              "jwt" "SELECT 1" "c1" "Salesforce" "Sales" None []
              (fun _ => Returns {| Cdata.ok := false; Cdata.status := 401;
                                   Cdata.content_type := Some "application/json";
                                   Cdata.body := Returns "expired" |})
              "tools/call" "queryData" None (query "SELECT 1") Cdata.initial
              _ "expired" (fun _ => eq_refl) (fun _ => eq_refl) eq_refl eq_refl eq_refl)
    as ((err & Herr & Hauth) & _ & _ & _ & _ & _ & (err' & Herr' & Hauth')).
  assert (Hthrown : thrown (queryData false (api_reply false 401 "expired") "jwt" "SELECT 1") []
                    = Some (JSError "API query failed: 401 - expired"))
    by (vm_compute; reflexivity).
  rewrite Hthrown in Herr. inversion Herr; subst err.
  split; [exact Hthrown |]. split; [exact Hauth |].
  exists err'. split; [| exact Hauth'].
  destruct (fst (Cdata.callMCPTool _ _ _ _ _)); try discriminate.
  now inversion Herr'.
Defined.

(** The theorem of X19 on a list of two connections, bare and wrapped. *)
Lemma connection_list_shapes_witness :
  fst (listConnections false (api_reply true 200 two_connections) "jwt" [])
  = fst (listConnections false (api_reply true 200 wrapped_connections) "jwt" [])
  /\ exists conns,
       fst (listConnections false (api_reply true 200 wrapped_connections) "jwt" [])
       = Normal conns
       /\ map id conns = [JSString "c1"; JSString "c2"].
Proof.
  destruct (connection_list_shapes_agree (rt := runtime) false
              (api_reply true 200 two_connections)
              (api_reply true 200 wrapped_connections)
              "jwt" [] [] _ _ two_connections wrapped_connections
              [JSObject [("id", JSString "c1"); ("name", JSString "Sales");
                         ("dataSource", JSString "Salesforce")];
               JSObject [("id", JSString "c2"); ("name", JSString "Desk")]]
              [("connections",
                JSArray [JSObject [("id", JSString "c1"); ("name", JSString "Sales");
                                   ("dataSource", JSString "Salesforce")];
                         JSObject [("id", JSString "c2"); ("name", JSString "Desk")]])]
              eq_refl eq_refl eq_refl ltac:(vm_compute; reflexivity)
              eq_refl eq_refl eq_refl ltac:(vm_compute; reflexivity) eq_refl)
    as [Hsame Hresult].
  split; [exact Hsame |].
  rewrite <- Hsame, Hresult. eexists. split; vm_compute; reflexivity.
Defined.

End ApiRuns.

(** ** The credential cache *)

Section ProviderFacts.

Import CDataContext.

Context `{rt : Runtime}.
Variable isConfigured : bool.
Variable generateJWT : list Event -> Outcome string.
Variable listMCPTools : list Event -> Outcome JSValue.
Variable Date_now : list Event -> Z.
Variable apiCall : list Event -> Outcome JSValue.

Abbreviation doRefreshToken := (doRefreshToken isConfigured generateJWT listMCPTools Date_now).
Abbreviation getValidToken := (getValidToken isConfigured generateJWT listMCPTools Date_now).
Abbreviation withAutoRefresh :=
  (withAutoRefresh isConfigured generateJWT listMCPTools Date_now apiCall).

Lemma await_spec {A} (ev : Event) (oracle : list Event -> Outcome A) st :
  await ev oracle st = (completion_of (oracle (trace st ++ [ev])), log_event ev st).
Proof.
  unfold await, bind, modify, settle; simpl.
  destruct (oracle (trace st ++ [ev])); reflexivity.
Qed.

(** A refresh that no other refresh overlaps: it acquires once, makes no
    API call, leaves the in-flight mark cleared, and caches the credential
    it returns. *)
Lemma doRefreshToken_acquires st :
  isConfigured = true ->
  isRefreshingRef st = false ->
  acquisitions (snd (doRefreshToken st)) = acquisitions st ++ [EvGenerateJWT]
  /\ api_calls (snd (doRefreshToken st)) = api_calls st
  /\ isRefreshingRef (snd (doRefreshToken st)) = false
  /\ fst (doRefreshToken st) <> OutOfFuel
  /\ (forall t, fst (doRefreshToken st) = Normal t ->
                tokenRef (snd (doRefreshToken st)) = Some t).
Proof.
  intros Hconf Hflag.
  unfold CDataContext.doRefreshToken, wait_for_refresh, acquisitions, api_calls.
  rewrite Hconf; simpl.
  unfold bind at 1. unfold bind at 1. unfold get at 1. rewrite Hflag.
  unfold ret at 1. cbv beta iota.
  unfold try_finally, try_catch, bind, await, read_clock, bind, modify, settle,
    get, ret, throw; simpl.
  repeat case_step;
    repeat match goal with
           | H : (_, _) = (_, _) |- _ => inversion H; subst; clear H
           end;
    simpl; rewrite ?List.filter_app; simpl; rewrite ?app_nil_r;
    repeat split; try congruence.
Qed.

Lemma doRefreshToken_flag st :
  isRefreshingRef st = false -> isRefreshingRef (snd (doRefreshToken st)) = false.
Proof.
  intros Hflag. destruct (Bool.bool_dec isConfigured true) as [Hconf | Hconf].
  - now apply doRefreshToken_acquires.
  - apply not_true_is_false in Hconf.
    unfold CDataContext.doRefreshToken. rewrite Hconf. exact Hflag.
Qed.

Lemma getValidToken_cached st t :
  cached st = Some t ->
  Date_now (trace st ++ [EvDateNow]) < tokenExpiryRef st ->
  getValidToken st = (Normal t, log_event EvDateNow st).
Proof.
  intros Hc Hnow.
  unfold CDataContext.getValidToken, isTokenExpired, read_clock, bind, get, modify, ret.
  rewrite Hc. simpl. rewrite Hc.
  destruct (Z.leb_spec (tokenExpiryRef st) (Date_now (trace st ++ [EvDateNow])));
    [lia | reflexivity].
Qed.

Lemma getValidToken_flag st :
  isRefreshingRef st = false -> isRefreshingRef (snd (getValidToken st)) = false.
Proof.
  intros Hflag.
  unfold CDataContext.getValidToken, isTokenExpired, read_clock.
  unfold bind at 1. unfold get at 1.
  destruct (cached st) as [t |] eqn:Hc; [| now apply doRefreshToken_flag].
  unfold bind, get, modify, ret; simpl. rewrite Hc.
  destruct (Z.leb _ _); simpl; [| exact Hflag].
  now apply (doRefreshToken_flag (log_event EvDateNow st)).
Qed.

(** Used one call at a time, the provider never leaves a refresh marked
    in flight. *)
#[local] Instance stays_clear_preorder : PreOrder stays_clear.
Proof.
  split.
  - intros s H. exact H.
  - intros s1 s2 s3 H12 H23 H. auto.
Qed.

Lemma withAutoRefresh_flag : keeps stays_clear withAutoRefresh.
Proof.
  assert (Hrefresh : keeps stays_clear doRefreshToken)
    by (intros s H; now apply doRefreshToken_flag).
  assert (Hawait : forall ev, keeps stays_clear (await ev apiCall)).
  { intros ev s. rewrite await_spec. intros H. exact H. }
  unfold CDataContext.withAutoRefresh.
  apply keeps_bind;
    [typeclasses eauto | intros s H; now apply getValidToken_flag |].
  intros currentToken. apply keeps_try_catch; [typeclasses eauto | apply Hawait |].
  intros err. destruct (isAuthError err).
  - apply keeps_bind; [typeclasses eauto | |].
    + apply keeps_modify. intros s H. exact H.
    + intros _. apply keeps_bind; [typeclasses eauto | exact Hrefresh |].
      intros newToken. apply Hawait.
  - apply keeps_throw. typeclasses eauto.
Qed.

(** C7: while a credential is cached and the clock reads less than its
    recorded expiry, [getValidToken] returns the cached value and does
    nothing but read the clock; a second call within the window returns
    the same value, and no acquisition has taken place. *)
Theorem cached_credential_is_reused (st : State) (t : string) :
  cached st = Some t ->
  Date_now (trace st ++ [EvDateNow]) < tokenExpiryRef st ->
  let first := getValidToken st in
  let second := getValidToken (snd first) in
  first = (Normal t, log_event EvDateNow st)
  /\ acquisitions (snd first) = acquisitions st
  /\ tokenRef (snd first) = tokenRef st
  /\ (Date_now (trace st ++ [EvDateNow; EvDateNow]) < tokenExpiryRef st ->
      fst second = Normal t
      /\ acquisitions (snd second) = acquisitions st
      /\ tokenRef (snd second) = tokenRef st).
Proof.
  intros Hc Hnow first second. subst second first.
  rewrite (getValidToken_cached st t Hc Hnow). simpl.
  assert (Hacq : acquisitions (log_event EvDateNow st) = acquisitions st).
  { unfold acquisitions; simpl. rewrite List.filter_app; simpl. apply app_nil_r. }
  split; [reflexivity |]. split; [exact Hacq |]. split; [reflexivity |].
  intros Hnow2.
  rewrite (getValidToken_cached (log_event EvDateNow st) t Hc)
    by (simpl; rewrite <- app_assoc; exact Hnow2); simpl.
  split; [reflexivity |]. split; [| reflexivity].
  unfold acquisitions in *; simpl in *.
  rewrite List.filter_app; simpl. rewrite app_nil_r. exact Hacq.
Qed.

(** The guard against concurrent refreshes: with a refresh marked in
    flight and a credential cached, a refresh waits and hands back the
    cached credential. *)
Lemma doRefreshToken_reuses st t :
  isConfigured = true ->
  isRefreshingRef st = true ->
  cached st = Some t ->
  doRefreshToken st = (Normal t, log_event (EvSleep 500) st).
Proof.
  intros Hconf Hflag Hc. unfold CDataContext.doRefreshToken, wait_for_refresh.
  rewrite Hconf; simpl.
  unfold bind, get, modify, ret. rewrite Hflag.
  change (cached (log_event (EvSleep 500) st)) with (cached st). now rewrite Hc.
Qed.

Lemma doRefreshToken_unconfigured st :
  isConfigured = false ->
  doRefreshToken st = (Throw (JSError "CData credentials not configured"), st).
Proof. intros Hconf. unfold CDataContext.doRefreshToken. now rewrite Hconf. Qed.

(** A refresh that the guard does not hand a cached credential to
    acquires once, makes no API call, and caches the credential it
    returns. *)
Lemma doRefreshToken_acquires_unless_reused st :
  isConfigured = true ->
  (if isRefreshingRef st then cached st else None) = None ->
  acquisitions (snd (doRefreshToken st)) = acquisitions st ++ [EvGenerateJWT]
  /\ api_calls (snd (doRefreshToken st)) = api_calls st
  /\ fst (doRefreshToken st) <> OutOfFuel
  /\ (forall t, fst (doRefreshToken st) = Normal t ->
                tokenRef (snd (doRefreshToken st)) = Some t).
Proof.
  intros Hconf Hguard.
  destruct (isRefreshingRef st) eqn:Hflag.
  - unfold CDataContext.doRefreshToken, wait_for_refresh, acquisitions, api_calls.
    rewrite Hconf; simpl.
    unfold bind at 1. unfold bind at 1. unfold get at 1. rewrite Hflag.
    unfold bind at 1. unfold modify at 1. cbv beta iota.
    unfold bind at 1. unfold get at 1. unfold ret at 1. cbv beta iota.
    change (cached (log_event (EvSleep 500) st)) with (cached st). rewrite Hguard.
    unfold try_finally, try_catch, bind, await, read_clock, bind, modify, settle,
      get, ret, throw; simpl.
    repeat case_step;
      repeat match goal with
             | H : (_, _) = (_, _) |- _ => inversion H; subst; clear H
             end;
      simpl; rewrite ?List.filter_app; simpl; rewrite ?app_nil_r;
      repeat split; try congruence;
      try (unfold cached in *; simpl in *; congruence).
  - destruct (doRefreshToken_acquires st Hconf Hflag) as (H1 & H2 & _ & H3 & H4).
    auto.
Qed.


(** *** Refreshing *)

Abbreviation refreshToken := (refreshToken isConfigured generateJWT listMCPTools Date_now).

Ltac run_refresh :=
  unfold try_finally, try_catch, bind, await, read_clock, bind, modify, settle,
    get, ret, throw; simpl;
  repeat case_step;
  repeat match goal with
         | H : (_, _) = (_, _) |- _ => inversion H; subst; clear H
         end;
  simpl.

(** What a refresh that no other refresh overlaps leaves behind, by the
    way it ends. *)
Lemma doRefreshToken_outcome st :
  isConfigured = true ->
  isRefreshingRef st = false ->
  let acquired_at := Date_now (trace st ++ [EvGenerateJWT; EvDateNow]) in
  match doRefreshToken st with
  | (Normal t, st') =>
      tokenRef st' = Some t /\ token st' = Some t /\ error st' = None
      /\ tokenExpiryRef st' = acquired_at + 6900000
      /\ trace st' = trace st ++ [EvGenerateJWT; EvDateNow; EvListMCPTools t]
      /\ isRefreshingRef st' = false
      /\ generateJWT (trace st ++ [EvGenerateJWT]) = Returns t
  | (Throw e, st') =>
      tokenRef st' = None /\ token st' = None /\ tools st' = JSArray []
      /\ error st' = Some (refresh_error e)
      /\ isRefreshingRef st' = false
  | (OutOfFuel, _) => False
  end.
Proof.
  intros Hconf Hflag acquired_at. subst acquired_at.
  unfold CDataContext.doRefreshToken, wait_for_refresh.
  rewrite Hconf; simpl.
  unfold bind at 1. unfold bind at 1. unfold get at 1. rewrite Hflag.
  unfold ret at 1. cbv beta iota.
  run_refresh; rewrite <- ?app_assoc; simpl; repeat split; try congruence; try lia.
Qed.

Lemma acquisitions_clock st :
  acquisitions (log_event EvDateNow st) = acquisitions st.
Proof.
  unfold acquisitions; simpl. rewrite List.filter_app; simpl. apply app_nil_r.
Qed.

(** X9: a refresh that fails (the acquisition or the tool listing throws;
    credentials configured, no other refresh in flight) leaves no
    credential behind: the cached token and the token state are cleared,
    the tools are emptied, the error state holds the message of what was
    thrown, and the in-flight mark is cleared, also when the acquisition
    itself had succeeded; the next [getValidToken] therefore starts a
    new acquisition. *)
Theorem failed_refresh_clears_the_cache (st : State) (e : JSValue) :
  isConfigured = true ->
  isRefreshingRef st = false ->
  fst (doRefreshToken st) = Throw e ->
  let st' := snd (doRefreshToken st) in
  tokenRef st' = None
  /\ token st' = None
  /\ tools st' = JSArray []
  /\ error st' = Some (refresh_error e)
  /\ isRefreshingRef st' = false
  /\ acquisitions (snd (getValidToken st')) = acquisitions st' ++ [EvGenerateJWT].
Proof.
  intros Hconf Hflag Hthrow st'. subst st'.
  pose proof (doRefreshToken_outcome st Hconf Hflag) as H. cbv zeta in H.
  destruct (doRefreshToken st) as [[t | e' |] s1]; simpl in *; try discriminate.
  inversion Hthrow; subst e'. destruct H as (Hr & Ht & Htools & Herr & Hf).
  repeat split; try assumption.
  unfold CDataContext.getValidToken. unfold bind at 1. unfold get at 1.
  unfold cached. rewrite Hr.
  now apply doRefreshToken_acquires.
Qed.

(** X10: a refresh that succeeds (credentials configured, no other
    refresh in flight) has made one acquisition, read the clock once and
    listed the tools with the new token; it caches the token with an
    expiry 6 900 000 ms (two hours less five minutes) after that clock
    reading and clears the error state.  From then on, and as long as the
    clock reads less than that expiry, [getValidToken] returns the new
    token and only reads the clock, provided the token is not the empty
    string; an empty token is never served from the cache. *)
Theorem fresh_credential_is_cached (st st' : State) (t : string) :
  isConfigured = true ->
  isRefreshingRef st = false ->
  doRefreshToken st = (Normal t, st') ->
  let acquired_at := Date_now (trace st ++ [EvGenerateJWT; EvDateNow]) in
  tokenRef st' = Some t
  /\ token st' = Some t
  /\ error st' = None
  /\ tokenExpiryRef st' = acquired_at + 6900000
  /\ trace st' = trace st ++ [EvGenerateJWT; EvDateNow; EvListMCPTools t]
  /\ (t <> "" ->
      Date_now (trace st' ++ [EvDateNow]) < acquired_at + 6900000 ->
      getValidToken st' = (Normal t, log_event EvDateNow st'))
  /\ (t = "" ->
      acquisitions (snd (getValidToken st')) = acquisitions st' ++ [EvGenerateJWT]).
Proof.
  intros Hconf Hflag Hrun acquired_at.
  pose proof (doRefreshToken_outcome st Hconf Hflag) as H. cbv zeta in H.
  rewrite Hrun in H. destruct H as (Hr & Ht & Herr & Hexp & Htr & Hf & _).
  fold acquired_at in Hexp.
  repeat split; try assumption.
  - intros Hne Hnow. apply getValidToken_cached.
    + unfold cached, truthy_string. rewrite Hr.
      destruct (String.eqb_spec t ""); [contradiction | reflexivity].
    + now rewrite Hexp.
  - intros ->. unfold CDataContext.getValidToken. unfold bind at 1. unfold get at 1.
    unfold cached. rewrite Hr. simpl.
    now apply doRefreshToken_acquires.
Qed.

(** X11: when no usable credential is cached (none at all, or the empty
    string) or the clock has reached the recorded expiry (the expiry
    instant included), [getValidToken] does not serve the cache: with
    credentials configured and no other refresh in flight it makes
    exactly one acquisition, its outcome is the outcome of that refresh,
    and the token it returns is the one it has cached. *)
Theorem stale_credential_is_reacquired (st : State) :
  isConfigured = true ->
  isRefreshingRef st = false ->
  cached st = None \/ tokenExpiryRef st <= Date_now (trace st ++ [EvDateNow]) ->
  let run := getValidToken st in
  acquisitions (snd run) = acquisitions st ++ [EvGenerateJWT]
  /\ run = doRefreshToken (match cached st with Some _ => log_event EvDateNow st | None => st end)
  /\ (forall t, fst run = Normal t -> tokenRef (snd run) = Some t).
Proof.
  intros Hconf Hflag Hstale run.
  assert (Hrun : run = doRefreshToken
                         (match cached st with Some _ => log_event EvDateNow st | None => st end)).
  { subst run. unfold CDataContext.getValidToken, isTokenExpired, read_clock.
    unfold bind at 1. unfold get at 1.
    destruct (cached st) as [t |] eqn:Hc; [| reflexivity].
    destruct Hstale as [Hnone | Hexp]; [discriminate |].
    unfold bind, get, modify, ret; simpl. rewrite Hc.
    destruct (Z.leb_spec (tokenExpiryRef st) (Date_now (trace st ++ [EvDateNow])));
      [reflexivity | lia]. }
  rewrite Hrun. clear Hrun run.
  destruct (cached st) as [t |].
  - destruct (doRefreshToken_acquires (log_event EvDateNow st) Hconf Hflag)
      as (Hacq & _ & _ & _ & Htok).
    rewrite Hacq, acquisitions_clock. auto.
  - destruct (doRefreshToken_acquires st Hconf Hflag) as (Hacq & _ & _ & _ & Htok).
    auto.
Qed.

(** The events of a refresh and of [getValidToken], whatever the state:
    no API call, and at most one acquisition. *)
Lemma doRefreshToken_events st :
  exists evs,
    added st (snd (doRefreshToken st)) evs
    /\ List.filter is_api_call evs = []
    /\ (length (List.filter is_acquisition evs) <= 1)%nat.
Proof.
  unfold added, CDataContext.doRefreshToken, wait_for_refresh.
  destruct isConfigured; simpl;
    [| exists []; simpl; rewrite app_nil_r; auto].
  unfold bind at 1. unfold bind at 1. unfold get at 1.
  destruct (isRefreshingRef st) eqn:Hflag.
  - unfold bind at 1. unfold modify at 1. cbv beta iota.
    unfold bind at 1. unfold get at 1. unfold ret at 1. cbv beta iota.
    destruct (cached (log_event (EvSleep 500) st)) as [t |].
    + exists [EvSleep 500]. simpl. auto.
    + run_refresh; rewrite <- ?app_assoc; simpl; eexists; (split; [reflexivity |]);
        simpl; auto.
  - unfold ret at 1. cbv beta iota.
    run_refresh; rewrite <- ?app_assoc; simpl; eexists; (split; [reflexivity |]);
      simpl; auto.
Qed.

Lemma getValidToken_events st :
  exists evs,
    added st (snd (getValidToken st)) evs
    /\ List.filter is_api_call evs = []
    /\ (length (List.filter is_acquisition evs) <= 1)%nat.
Proof.
  unfold CDataContext.getValidToken, isTokenExpired, read_clock.
  unfold bind at 1. unfold get at 1.
  destruct (cached st) as [t |] eqn:Hc; [| apply doRefreshToken_events].
  unfold bind, get, modify, ret; simpl. rewrite Hc.
  destruct (Z.leb _ _); simpl.
  - destruct (doRefreshToken_events (log_event EvDateNow st)) as (evs & Hevs & Hapi & Hacq).
    exists (EvDateNow :: evs). unfold added in *. rewrite Hevs. simpl.
    rewrite <- app_assoc. auto.
  - exists [EvDateNow]. unfold added. simpl. auto.
Qed.

(** X12: whatever the provider's state and whatever the outside world
    answers, one call through [withAutoRefresh] makes at most two calls
    of the wrapped function and at most two credential acquisitions (one
    to get a valid token, one to refresh it after an authentication
    failure): it never retries a second time. *)
Theorem withAutoRefresh_never_retries_twice (st : State) :
  exists evs,
    added st (snd (withAutoRefresh st)) evs
    /\ (length (List.filter is_api_call evs) <= 2)%nat
    /\ (length (List.filter is_acquisition evs) <= 2)%nat.
Proof.
  unfold CDataContext.withAutoRefresh. unfold bind at 1.
  destruct (getValidToken_events st) as (evs1 & Hevs1 & Hapi1 & Hacq1).
  destruct (getValidToken st) as [[tok | e |] s1]; simpl in Hevs1;
    try (exists evs1; rewrite Hapi1; simpl; split; [exact Hevs1 | split; lia]).
  unfold try_catch. rewrite await_spec.
  destruct (apiCall (trace s1 ++ [EvApiCall tok])) as [v | err]; simpl.
  - exists (evs1 ++ [EvApiCall tok]). unfold added in *. simpl.
    rewrite Hevs1, <- app_assoc, !List.filter_app, Hapi1. simpl.
    rewrite !length_app. simpl. split; [reflexivity | split; lia].
  - destruct (isAuthError err).
    + unfold bind at 1. unfold modify at 1. cbv beta iota. unfold bind at 1.
      set (s2 := log_event (EvConsoleLog _) (log_event (EvApiCall tok) s1)).
      destruct (doRefreshToken_events s2) as (evs2 & Hevs2 & Hapi2 & Hacq2).
      assert (Hs2 : trace s2 = trace st ++ evs1 ++ [EvApiCall tok; EvConsoleLog
                      "Auth error detected, refreshing token and retrying..."]).
      { subst s2. unfold added in Hevs1. simpl. rewrite Hevs1, <- !app_assoc. reflexivity. }
      destruct (doRefreshToken s2) as [[newToken | e |] s3]; simpl in Hevs2;
        unfold added in *.
      * rewrite await_spec. simpl.
        eexists. split; [rewrite Hevs2, Hs2, <- !app_assoc; reflexivity |].
        rewrite !List.filter_app, Hapi1, Hapi2. simpl.
        rewrite !length_app. simpl. split; lia.
      * eexists. simpl. split; [rewrite Hevs2, Hs2, <- !app_assoc; reflexivity |].
        rewrite !List.filter_app, Hapi1, Hapi2. simpl.
        rewrite !length_app. simpl. split; lia.
      * eexists. simpl. split; [rewrite Hevs2, Hs2, <- !app_assoc; reflexivity |].
        rewrite !List.filter_app, Hapi1, Hapi2. simpl.
        rewrite !length_app. simpl. split; lia.
    + exists (evs1 ++ [EvApiCall tok]). unfold added in *. simpl.
      rewrite Hevs1, <- app_assoc, !List.filter_app, Hapi1. simpl.
      rewrite !length_app. simpl. split; [reflexivity | split; lia].
Qed.

(** X13: [refreshToken] always ends with the loading state off.  With
    credentials configured (and no other refresh in flight) the error
    state tells how it ended: it is cleared when the refresh succeeded,
    with the new token in place, and holds the message of what was thrown
    when it failed, with token and tools cleared.  Without credentials it
    throws "CData credentials not configured" at once and records
    nothing: the error state, the token and the history are as they
    were. *)
Theorem refreshToken_reports_how_it_ended (st : State) :
  let run := refreshToken st in
  isLoading (snd run) = false
  /\ (isConfigured = false ->
      run = (Throw (JSError "CData credentials not configured"),
             setIsLoading false (setIsLoading true st)))
  /\ (isConfigured = true -> isRefreshingRef st = false ->
      match fst run with
      | Normal _ =>
          error (snd run) = None
          /\ exists t, token (snd run) = Some t /\ tokenRef (snd run) = Some t
      | Throw e =>
          error (snd run) = Some (refresh_error e)
          /\ token (snd run) = None /\ tokenRef (snd run) = None
          /\ tools (snd run) = JSArray []
      | OutOfFuel => False
      end).
Proof.
  intros run. subst run. unfold CDataContext.refreshToken.
  erewrite bind_normal by reflexivity.
  unfold try_finally. split; [| split].
  - destruct (bind doRefreshToken _ _); reflexivity.
  - intros Hconf. unfold bind, CDataContext.doRefreshToken. rewrite Hconf. reflexivity.
  - intros Hconf Hflag.
    pose proof (doRefreshToken_outcome (setIsLoading true st) Hconf Hflag) as H.
    cbv zeta in H. unfold bind.
    destruct (doRefreshToken (setIsLoading true st)) as [[t | e |] s1]; simpl in *.
    + destruct H as (Hr & Ht & Herr & _). split; [exact Herr |]. now exists t.
    + destruct H as (Hr & Ht & Htools & Herr & _). auto.
    + exact H.
Qed.

(** A refresh whose acquisition succeeds ends as its tool listing ends. *)
Lemma doRefreshToken_listing st t :
  isConfigured = true ->
  isRefreshingRef st = false ->
  generateJWT (trace st ++ [EvGenerateJWT]) = Returns t ->
  let history := trace st ++ [EvGenerateJWT; EvDateNow; EvListMCPTools t] in
  trace (snd (doRefreshToken st)) = history
  /\ match listMCPTools history with
     | Returns _ =>
         fst (doRefreshToken st) = Normal t /\ tokenRef (snd (doRefreshToken st)) = Some t
     | Throws e =>
         fst (doRefreshToken st) = Throw e /\ tokenRef (snd (doRefreshToken st)) = None
     end.
Proof.
  intros Hconf Hflag Hjwt history. subst history.
  remember (doRefreshToken st) as run eqn:Hrun.
  unfold CDataContext.doRefreshToken, wait_for_refresh in Hrun.
  rewrite Hconf in Hrun; simpl in Hrun.
  unfold try_finally, try_catch, bind, await, read_clock, bind, modify, settle,
    get, ret, throw in Hrun; simpl in Hrun.
  rewrite Hflag, Hjwt in Hrun; simpl in Hrun.
  rewrite <- !app_assoc in Hrun; simpl in Hrun.
  destruct (listMCPTools _); subst run; simpl; rewrite <- ?app_assoc; simpl; auto.
Qed.

End ProviderFacts.

Section ProviderRuns.

Import CDataContext AsciiRuntime Scenario.

(** The theorem of C7 on a credential cached for one minute, with an
    issuer that is down: both calls return the cached credential. *)
Lemma cached_credential_witness :
  cached warm = Some "jwt-1"
  /\ one_minute_in (trace warm ++ [EvDateNow]) < tokenExpiryRef warm
  /\ getValidToken true issuer_down no_tools one_minute_in warm
     = (Normal "jwt-1", log_event EvDateNow warm)
  /\ fst (getValidToken true issuer_down no_tools one_minute_in (log_event EvDateNow warm))
     = Normal "jwt-1".
Proof.
  pose proof (cached_credential_is_reused true issuer_down no_tools one_minute_in
                warm "jwt-1" eq_refl eq_refl) as H.
  cbv zeta in H. destruct H as (H1 & _ & _ & H2).
  specialize (H2 eq_refl). destruct H2 as (H2 & _).
  rewrite H1 in H2.
  split; [reflexivity |]. split; [reflexivity |]. split; [exact H1 | exact H2].
Defined.



(** The theorem of X9 on a refresh whose acquisition succeeds and whose
    tool listing is turned down: the token that was acquired is not
    kept. *)
Lemma failed_refresh_witness :
  let run := doRefreshToken true issues_jwt2 tools_down one_minute_in initial in
  fst run = Throw (JSError "MCP request failed: 500")
  /\ acquisitions (snd run) = [EvGenerateJWT]
  /\ tokenRef (snd run) = None
  /\ error (snd run) = Some "MCP request failed: 500"
  /\ acquisitions (snd (getValidToken true issues_jwt2 tools_down one_minute_in (snd run)))
     = [EvGenerateJWT; EvGenerateJWT].
Proof.
  cbv zeta.
  destruct (failed_refresh_clears_the_cache true issues_jwt2 tools_down one_minute_in
              initial (JSError "MCP request failed: 500") eq_refl eq_refl eq_refl)
    as (Hr & _ & _ & Herr & _ & Hnext).
  split; [reflexivity |]. split; [reflexivity |].
  split; [exact Hr |]. split; [exact Herr |].
  rewrite Hnext. reflexivity.
Defined.

(** The theorem of X10 on a first refresh at one minute past the epoch:
    the token is good until 6 960 000, and the next call is served from
    the cache. *)
Lemma fresh_credential_witness :
  let run := doRefreshToken true issues_jwt2 no_tools one_minute_in initial in
  fst run = Normal "jwt-2"
  /\ tokenExpiryRef (snd run) = 6960000
  /\ trace (snd run) = [EvGenerateJWT; EvDateNow; EvListMCPTools "jwt-2"]
  /\ getValidToken true issues_jwt2 no_tools one_minute_in (snd run)
     = (Normal "jwt-2", log_event EvDateNow (snd run)).
Proof.
  cbv zeta.
  destruct (fresh_credential_is_cached true issues_jwt2 no_tools one_minute_in
              initial _ "jwt-2" eq_refl eq_refl eq_refl)
    as (_ & _ & _ & Hexp & Htr & Hnext & _).
  split; [reflexivity |]. split; [exact Hexp |]. split; [exact Htr |].
  apply Hnext; [discriminate | reflexivity].
Defined.

(** The theorem of X11 on a credential whose expiry has passed. *)
Lemma stale_credential_witness :
  let run := getValidToken true issues_jwt2 no_tools two_hours_in warm in
  cached warm = Some "jwt-1"
  /\ tokenExpiryRef warm <= two_hours_in (trace warm ++ [EvDateNow])
  /\ fst run = Normal "jwt-2"
  /\ acquisitions (snd run) = [EvGenerateJWT]
  /\ tokenRef (snd run) = Some "jwt-2".
Proof.
  cbv zeta.
  assert (Hstale : tokenExpiryRef warm <= two_hours_in (trace warm ++ [EvDateNow]))
    by (vm_compute; discriminate).
  destruct (stale_credential_is_reacquired true issues_jwt2 no_tools two_hours_in
              warm eq_refl eq_refl (or_intror Hstale))
    as (Hacq & _ & Htok).
  split; [reflexivity |]. split; [exact Hstale |]. split; [reflexivity |].
  split; [exact Hacq |]. apply Htok. reflexivity.
Defined.

End ProviderRuns.

(** ** [callTool]: the provider on the client *)

Section WiredFacts.

Import CDataContext CDataProvider.

Context `{rt : Runtime}.
Variable isConfigured : bool.
Variable generateJWT : list Event -> Outcome string.
Variable Date_now : list Event -> Z.
Variable net : list Cdata.HttpCall -> Outcome Cdata.Response.
Variable name : string.
Variable args : JSValue.

Lemma run_op_completes op st : fst (Cdata.run_op net op st) <> OutOfFuel.
Proof.
  destruct op; simpl;
    unfold Cdata.listMCPTools, Cdata.callMCPTool, Cdata.mcpRequest, bind,
      Cdata.pre_increment, Cdata.fetch, bind, modify, settle,
      Cdata.response_json, bind, settle, throw, ret; simpl;
    repeat case_step; congruence.
Qed.

Lemma listMCPTools_state token st :
  snd (Cdata.listMCPTools net token st)
  = Cdata.after_call (Cdata.call_of token "tools/list" None st) st.
Proof.
  unfold Cdata.listMCPTools, bind.
  pose proof (mcpRequest_state net token "tools/list" None st) as H.
  destruct (Cdata.mcpRequest net token "tools/list" None st) as [[v | e |] st'];
    simpl in *; auto.
  unfold settle. destruct (get_prop v "tools"); simpl; auto.
Qed.

Lemma callMCPTool_state token st :
  snd (Cdata.callMCPTool net token name args st)
  = Cdata.after_call (Cdata.call_of token "tools/call" (tool_call name args) st) st.
Proof.
  unfold Cdata.callMCPTool, bind, tool_call.
  match goal with |- context [Cdata.mcpRequest net ?t ?m ?p st] =>
    pose proof (mcpRequest_state net t m p st) as H;
    destruct (Cdata.mcpRequest net t m p st) as [[v | e |] st']
  end; simpl in *; exact H.
Qed.

Lemma callMCPTool_refused token st response :
  net (Cdata.sent st ++ [Cdata.call_of token "tools/call" (tool_call name args) st])
  = Returns response ->
  Cdata.ok response = false ->
  fst (Cdata.callMCPTool net token name args st)
  = Throw (JSError ("MCP request failed: " +:+ pretty (Cdata.status response))).
Proof.
  intros Hnet Hok.
  unfold Cdata.callMCPTool, Cdata.mcpRequest, Cdata.pre_increment, Cdata.fetch, bind,
    modify, settle, throw. cbn [Cdata.sent Cdata.requestId fst snd].
  unfold Cdata.call_of, tool_call in Hnet. rewrite Hnet, Hok. reflexivity.
Qed.

Lemma answer_snoc cst evs ev :
  answer net name args cst (evs ++ [ev])
  = match op_of name args ev with
    | Some op => settled (fst (Cdata.run_op net op (module_after net name args cst evs)))
    | None => Throws JSUndefined
    end.
Proof.
  unfold answer. rewrite last_snoc, removelast_last. reflexivity.
Qed.

Lemma module_after_snoc cst evs ev :
  module_after net name args cst (evs ++ [ev])
  = match op_of name args ev with
    | Some op => snd (Cdata.run_op net op (module_after net name args cst evs))
    | None => module_after net name args cst evs
    end.
Proof.
  unfold module_after, Cdata.session. rewrite omap_app, fold_left_app. simpl.
  destruct (op_of name args ev); reflexivity.
Qed.

Lemma settled_completes {A} (c : Completion A) :
  c <> OutOfFuel -> completion_of (settled c) = c.
Proof. destruct c; simpl; congruence. Qed.

Lemma client_answers (st : CDataContext.State) cst tr evs ev :
  tr = trace st ++ evs ++ [ev] ->
  answer net name args cst (drop (length (trace st)) tr)
  = match op_of name args ev with
    | Some op => settled (fst (Cdata.run_op net op (module_after net name args cst evs)))
    | None => Throws JSUndefined
    end.
Proof.
  intros ->. rewrite drop_app_length. apply answer_snoc.
Qed.

(** X22: [callTool] with a cached token that the server turns down with
    status 401 (the provider has credentials and no refresh is in
    flight, the token is within its window, and [generateJWT] yields a
    new token).  The call has gone out once with the cached token; the
    refresh lists the tools with the new token, under the next request
    id.  If that listing succeeds, the call goes out once more with the
    new token and the id after that, and whatever this third request
    gives is the result of [callTool]; the new token is cached.  If the
    listing fails, [callTool] fails with the listing's error, the call is
    not made again, and no token is cached, although the new token itself
    had been acquired. *)
Theorem callTool_retries_with_the_new_token (st : CDataContext.State)
    (cst : Cdata.State) (tok tok' : string) (response : Cdata.Response) :
  isConfigured = true ->
  isRefreshingRef st = false ->
  cached st = Some tok ->
  Date_now (trace st ++ [EvDateNow]) < tokenExpiryRef st ->
  let c1 := Cdata.call_of tok "tools/call" (tool_call name args) cst in
  let cst1 := Cdata.after_call c1 cst in
  let c2 := Cdata.call_of tok' "tools/list" None cst1 in
  let cst2 := Cdata.after_call c2 cst1 in
  let c3 := Cdata.call_of tok' "tools/call" (tool_call name args) cst2 in
  net (Cdata.sent cst ++ [c1]) = Returns response ->
  Cdata.ok response = false ->
  Cdata.status response = 401 ->
  generateJWT (trace st ++ [EvDateNow; EvApiCall tok;
                            EvConsoleLog "Auth error detected, refreshing token and retrying...";
                            EvGenerateJWT])
  = Returns tok' ->
  let run := callTool isConfigured generateJWT Date_now net name args (st, cst) in
  match fst (Cdata.listMCPTools net tok' cst1) with
  | Normal _ =>
      fst run = fst (Cdata.callMCPTool net tok' name args cst2)
      /\ requests_during cst (snd (snd run)) [c1; c2; c3]
      /\ tokenRef (fst (snd run)) = Some tok'
  | Throw e =>
      fst run = Throw e
      /\ requests_during cst (snd (snd run)) [c1; c2]
      /\ tokenRef (fst (snd run)) = None
  | OutOfFuel => False
  end.
Proof.
  intros Hconf Hflag Hc Hnow c1 cst1 c2 cst2 c3 Hnet Hok Hstatus Hjwt run.
  subst run. unfold callTool.
  set (client := fun tr => answer net name args cst (drop (length (trace st)) tr)).
  set (after := fun evs => module_after net name args cst evs).
  assert (Hclient : forall tr evs ev, tr = trace st ++ evs ++ [ev] ->
            client tr
            = match op_of name args ev with
              | Some op => settled (fst (Cdata.run_op net op (after evs)))
              | None => Throws JSUndefined
              end)
    by (intros; now apply client_answers).
  (* the first call, with the cached token *)
  assert (Hafter1 : after [EvDateNow] = cst) by reflexivity.
  assert (Hfirst : client (trace st ++ [EvDateNow; EvApiCall tok])
                   = Throws (JSError "MCP request failed: 401")).
  { rewrite (Hclient _ [EvDateNow] (EvApiCall tok)) by reflexivity.
    cbn [op_of Cdata.run_op]. rewrite Hafter1.
    rewrite (callMCPTool_refused tok cst response Hnet Hok), Hstatus. reflexivity. }
  assert (Hauth : isAuthError (JSError "MCP request failed: 401") = true) by reflexivity.
  (* the refresh *)
  set (st3 := log_event (EvConsoleLog "Auth error detected, refreshing token and retrying...")
                (log_event (EvApiCall tok) (log_event EvDateNow st))).
  assert (Htr3 : trace st3
                 = trace st ++ [EvDateNow; EvApiCall tok;
                                EvConsoleLog "Auth error detected, refreshing token and retrying..."])
    by (simpl; rewrite <- !app_assoc; reflexivity).
  assert (Hafter5 : after [EvDateNow; EvApiCall tok;
                           EvConsoleLog "Auth error detected, refreshing token and retrying...";
                           EvGenerateJWT; EvDateNow] = cst1)
    by (subst cst1 c1; rewrite <- callMCPTool_state; reflexivity).
  destruct (doRefreshToken_listing isConfigured generateJWT client Date_now st3 tok'
              Hconf Hflag) as [Htrace Hrefresh].
  { rewrite Htr3, <- app_assoc. exact Hjwt. }
  rewrite (Hclient _ [EvDateNow; EvApiCall tok;
                      EvConsoleLog "Auth error detected, refreshing token and retrying...";
                      EvGenerateJWT; EvDateNow] (EvListMCPTools tok')) in Hrefresh
    by (rewrite Htr3, <- app_assoc; reflexivity).
  cbn [op_of Cdata.run_op] in Hrefresh. rewrite Hafter5 in Hrefresh.
  rewrite Htr3, <- app_assoc in Htrace. cbn [app] in Htrace.
  assert (Hafter6 : after [EvDateNow; EvApiCall tok;
                           EvConsoleLog "Auth error detected, refreshing token and retrying...";
                           EvGenerateJWT; EvDateNow; EvListMCPTools tok'] = cst2).
  { unfold after in *.
    etransitivity;
      [apply (module_after_snoc cst
                [EvDateNow; EvApiCall tok;
                 EvConsoleLog "Auth error detected, refreshing token and retrying...";
                 EvGenerateJWT; EvDateNow] (EvListMCPTools tok')) |].
    cbn [op_of Cdata.run_op]. rewrite Hafter5. apply listMCPTools_state. }
  (* the run *)
  assert (Hrun :
    CDataContext.withAutoRefresh isConfigured generateJWT client Date_now client st
    = match doRefreshToken isConfigured generateJWT client Date_now st3 with
      | (Normal t, s) =>
          (completion_of (client (trace s ++ [EvApiCall t])), log_event (EvApiCall t) s)
      | (Throw e, s) => (Throw e, s)
      | (OutOfFuel, s) => (OutOfFuel, s)
      end).
  { unfold CDataContext.withAutoRefresh.
    rewrite (bind_normal _ _ _ _ _ (getValidToken_cached _ _ _ _ st tok Hc Hnow)).
    unfold try_catch. rewrite await_spec.
    cbn [trace log_event]. rewrite <- app_assoc. cbn [app].
    rewrite Hfirst. cbn [completion_of]. rewrite Hauth.
    unfold bind at 1. unfold modify at 1. fold st3. unfold bind.
    destruct (doRefreshToken isConfigured generateJWT client Date_now st3)
      as [[t | e |] s]; [apply await_spec | reflexivity | reflexivity]. }
  rewrite Hrun. clear Hrun.
  pose proof (run_op_completes (Cdata.OpListTools tok') cst1) as Hlisted.
  pose proof (run_op_completes (Cdata.OpCallTool tok' name args) cst2) as Hcalled.
  cbn [Cdata.run_op] in Hlisted, Hcalled.
  destruct (doRefreshToken isConfigured generateJWT client Date_now st3) as [c s].
  cbn [fst snd] in Htrace, Hrefresh.
  destruct (fst (Cdata.listMCPTools net tok' cst1)) as [listed | e |];
    cbn [settled] in Hrefresh; [| | congruence];
    destruct Hrefresh as [-> Htok]; cbn [fst snd trace log_event tokenRef].
  - rewrite Htrace.
    rewrite (Hclient _ [EvDateNow; EvApiCall tok;
                        EvConsoleLog "Auth error detected, refreshing token and retrying...";
                        EvGenerateJWT; EvDateNow; EvListMCPTools tok'] (EvApiCall tok'))
      by (rewrite <- app_assoc; reflexivity).
    cbn [op_of Cdata.run_op]. rewrite Hafter6.
    split; [now apply settled_completes |]. split; [| exact Htok].
    rewrite <- app_assoc, drop_app_length.
    rewrite module_after_snoc. cbn [op_of Cdata.run_op].
    fold (after [EvDateNow; EvApiCall tok;
                 EvConsoleLog "Auth error detected, refreshing token and retrying...";
                 EvGenerateJWT; EvDateNow; EvListMCPTools tok']).
    rewrite Hafter6, callMCPTool_state.
    unfold requests_during. subst cst2 cst1. cbn [Cdata.after_call Cdata.sent].
    now rewrite <- !app_assoc.
  - split; [reflexivity |]. split; [| exact Htok].
    rewrite Htrace, drop_app_length.
    fold (after [EvDateNow; EvApiCall tok;
                 EvConsoleLog "Auth error detected, refreshing token and retrying...";
                 EvGenerateJWT; EvDateNow; EvListMCPTools tok']).
    rewrite Hafter6.
    unfold requests_during. subst cst2 cst1. cbn [Cdata.after_call Cdata.sent].
    now rewrite <- !app_assoc.
Qed.

End WiredFacts.

Section WiredRuns.

Import CDataContext CDataProvider AsciiRuntime Scenario.

(** The theorem of X22 on a gateway that has revoked the cached token:
    three requests go out, the second and third with the new token. *)
Lemma callTool_witness :
  let run := callTool true issues_jwt2 one_minute_in revoked_jwt1
               "queryData" (JSObject [("query", JSString "SELECT 1")])
               (warm, Cdata.initial) in
  fst run = Normal (JSNumber 7)
  /\ map (fun c => (Cdata.bearer c, Cdata.id (Cdata.payload c),
                    Cdata.method (Cdata.payload c)))
         (Cdata.sent (snd (snd run)))
     = [("jwt-1", 1, "tools/call"); ("jwt-2", 2, "tools/list"); ("jwt-2", 3, "tools/call")]
  /\ tokenRef (fst (snd run)) = Some "jwt-2".
Proof.
  pose proof (callTool_retries_with_the_new_token (rt := runtime) true issues_jwt2
                one_minute_in revoked_jwt1
                "queryData" (JSObject [("query", JSString "SELECT 1")])
                warm Cdata.initial "jwt-1" "jwt-2" unauthorized
                eq_refl eq_refl eq_refl eq_refl eq_refl eq_refl eq_refl eq_refl) as H.
  cbv zeta in H.
  match type of H with
  | match ?listing with _ => _ end =>
      assert (Hlisting : listing = Normal (JSArray [])) by (vm_compute; reflexivity);
      rewrite Hlisting in H
  end.
  destruct H as (Hresult & Hrequests & Htoken). cbv zeta.
  split; [rewrite Hresult; vm_compute; reflexivity |].
  split; [| exact Htoken].
  unfold requests_during in Hrequests. rewrite Hrequests. vm_compute. reflexivity.
Defined.

End WiredRuns.

(** ** The data sources of the user *)

Section DataSourcesFacts.

Import DataSourcesContext.

Lemma enabledStates_snoc l ds :
  enabledStates (l ++ [ds]) = remember (enabledStates l) ds.
Proof. unfold enabledStates. now rewrite fold_left_app. Qed.

(** The empty connection id is never remembered. *)
Lemma enabledStates_empty_key l : enabledStates l !! "" = None.
Proof.
  induction l as [| ds l IH] using rev_ind; [reflexivity |].
  rewrite enabledStates_snoc. unfold remember.
  destruct (connectionId ds) as [c |]; [| exact IH].
  unfold truthy_string. destruct (String.eqb_spec c ""); simpl; [exact IH |].
  now rewrite lookup_insert_ne.
Qed.

(** Of entries whose connection id is their id and whose switch is a
    function of the id, the map remembers that function. *)
Lemma enabledStates_lookup (g : string -> bool) l c :
  Forall (fun ds => connectionId ds = Some (id ds) /\ enabled ds = g (id ds)) l ->
  enabledStates l !! c
  = if truthy_string c && existsb (fun ds => String.eqb (id ds) c) l
    then Some (g c) else None.
Proof.
  induction l as [| ds l IH] using rev_ind; intros H.
  - now rewrite andb_false_r.
  - apply Forall_app in H as [Hl Hds]. inversion Hds as [| ? ? [Hc He] _]; subst.
    specialize (IH Hl). rewrite enabledStates_snoc, existsb_app. simpl.
    rewrite orb_false_r. unfold remember. rewrite Hc, He.
    destruct (String.eqb_spec (id ds) c) as [-> | Hne].
    + rewrite orb_true_r, andb_true_r.
      destruct (truthy_string c) eqn:Ht.
      * now rewrite lookup_insert_eq.
      * exact IH.
    + rewrite orb_false_r.
      destruct (truthy_string (id ds)); [now rewrite lookup_insert_ne | exact IH].
Qed.

Lemma synced_ids states connections c :
  existsb (fun ds => String.eqb (id ds) c) (map (data_source_of states) connections)
  = listed c connections.
Proof.
  unfold listed. induction connections as [| conn connections IH]; simpl;
    [reflexivity | now rewrite IH].
Qed.

Lemma toggled_ids i b l c :
  existsb (fun ds => String.eqb (id ds) c)
    (map (fun source => if String.eqb (id source) i then with_enabled b source else source) l)
  = existsb (fun ds => String.eqb (id ds) c) l.
Proof.
  induction l as [| ds l IH]; simpl; [reflexivity |].
  rewrite IH. now destruct (String.eqb (id ds) i).
Qed.

(** X20: [syncFromConnections] is idempotent: a second sync with the same
    connections changes nothing, whatever the data sources were before
    the first; in particular it keeps every switch as the first sync set
    it. *)
Theorem sync_is_idempotent (connections : list ConnectionInfo) (st : State) :
  syncFromConnections connections (syncFromConnections connections st)
  = syncFromConnections connections st.
Proof.
  unfold syncFromConnections. cbn [dataSources]. f_equal.
  set (states0 := enabledStates (dataSources st)).
  apply map_ext_in. intros conn Hin.
  assert (H : default true
                (enabledStates (map (data_source_of states0) connections) !! conn_id conn)
              = default true (states0 !! conn_id conn)).
  { rewrite (enabledStates_lookup (fun c => default true (states0 !! c))).
    - rewrite synced_ids.
      assert (Hl : listed (conn_id conn) connections = true).
      { unfold listed. apply existsb_exists. exists conn.
        split; [exact Hin | apply String.eqb_refl]. }
      rewrite Hl, andb_true_r. unfold truthy_string.
      destruct (String.eqb_spec (conn_id conn) "") as [-> | Hne]; simpl; [| reflexivity].
      subst states0. now rewrite enabledStates_empty_key.
    - apply Forall_forall. intros ds Hds.
      apply list_elem_of_In, in_map_iff in Hds as (c & <- & _).
      split; reflexivity. }
  unfold data_source_of at 1. rewrite H. reflexivity.
Qed.

(** X21: a switch that the user turns between two syncs is kept by the
    second sync, and it is the only one that changes: after
    [syncFromConnections], [setDataSourceEnabled i b] and
    [syncFromConnections] again, the entry of a connection of id [i] has
    its switch at [b] (if [i] is not the empty string and was a
    connection of the first sync; it is on otherwise, as for any new
    connection), and the entry of any other connection has the switch it
    had after the first sync, or is on if the connection is new. *)
Theorem toggle_survives_sync (connections connections' : list ConnectionInfo)
    (st : State) (i : string) (b : bool) (k : nat) (conn : ConnectionInfo) :
  connections' !! k = Some conn ->
  let st1 := syncFromConnections connections st in
  let st3 := syncFromConnections connections' (setDataSourceEnabled i b st1) in
  exists ds,
    dataSources st3 !! k = Some ds
    /\ id ds = conn_id conn
    /\ enabled ds
       = if String.eqb (conn_id conn) i
         then (if truthy_string i && listed i connections then b else true)
         else default true (enabled_in st1 (conn_id conn)).
Proof.
  intros Hk st1 st3. subst st1 st3.
  unfold syncFromConnections, setDataSourceEnabled. cbn [dataSources].
  set (states0 := enabledStates (dataSources st)).
  set (toggled := map _ (map (data_source_of states0) connections)).
  exists (data_source_of (enabledStates toggled) conn). split.
  { change (@map ConnectionInfo) with (@fmap list _ ConnectionInfo).
    now rewrite list_lookup_fmap, Hk. }
  split; [reflexivity |]. cbn [enabled data_source_of].
  rewrite (enabledStates_lookup
             (fun c => if String.eqb c i then b else default true (states0 !! c))).
  2:{ subst toggled. apply Forall_forall. intros ds Hds.
      apply list_elem_of_In, in_map_iff in Hds as (ds0 & <- & Hds0).
      apply in_map_iff in Hds0 as (c & <- & _).
      cbn [id data_source_of].
      destruct (String.eqb (conn_id c) i) eqn:E; cbn [id connectionId enabled with_enabled
        data_source_of]; rewrite ?E; auto. }
  subst toggled. rewrite toggled_ids, synced_ids.
  destruct (String.eqb_spec (conn_id conn) i) as [-> | Hne].
  - destruct (truthy_string i && listed i connections); reflexivity.
  - assert (Hfind : enabled_in
                      {| dataSources := map (data_source_of states0) connections;
                         isLoading := false |} (conn_id conn)
                    = if listed (conn_id conn) connections
                      then Some (default true (states0 !! conn_id conn)) else None).
    { unfold enabled_in, listed. cbn [dataSources].
      induction connections as [| c cs IH]; simpl; [reflexivity |].
      destruct (String.eqb_spec (conn_id c) (conn_id conn)) as [E | Hc]; simpl;
        [now rewrite E | exact IH]. }
    rewrite Hfind. unfold truthy_string.
    destruct (String.eqb_spec (conn_id conn) "") as [He | He]; simpl; [| reflexivity].
    destruct (listed (conn_id conn) connections); [| reflexivity].
    simpl. rewrite He. subst states0. now rewrite enabledStates_empty_key.
Qed.

(** The theorem of X21 on two connections, the second of which is
    switched off before a sync that drops the first and brings a new
    one: the switch of the second stays off, and the new one is on. *)
Lemma toggle_witness :
  let st1 := syncFromConnections [Scenario.crm; Scenario.desk] initial in
  let st3 := syncFromConnections [Scenario.desk; Scenario.warehouse]
               (setDataSourceEnabled "c2" false st1) in
  map enabled (dataSources st1) = [true; true]
  /\ map (fun ds => (id ds, enabled ds)) (dataSources st3) = [("c2", false); ("c3", true)].
Proof.
  cbv zeta.
  destruct (toggle_survives_sync [Scenario.crm; Scenario.desk]
              [Scenario.desk; Scenario.warehouse] initial "c2" false 0 Scenario.desk
              eq_refl) as (ds & Hds & Hid & Hen).
  destruct (toggle_survives_sync [Scenario.crm; Scenario.desk]
              [Scenario.desk; Scenario.warehouse] initial "c2" false 1 Scenario.warehouse
              eq_refl) as (ds' & Hds' & Hid' & Hen').
  split; [reflexivity |].
  match goal with
  | |- map _ (dataSources ?st3) = _ =>
      assert (Hlist : dataSources st3 = [ds; ds'])
  end.
  { apply list_eq. intros [| [| n]]; [exact Hds | exact Hds' | reflexivity]. }
  rewrite Hlist. cbn [map]. rewrite Hid, Hid', Hen, Hen'. reflexivity.
Defined.

End DataSourcesFacts.

(** ** The agentic loop *)

(** One step in the proof that a computation keeps a relation. *)
Ltac keeps_step :=
  first
    [ simple apply keeps_ret; typeclasses eauto
    | simple apply keeps_throw; typeclasses eauto
    | simple apply keeps_out_of_fuel; typeclasses eauto
    | simple apply keeps_get; typeclasses eauto
    | simple apply keeps_settle; typeclasses eauto
    | simple apply keeps_bind; [typeclasses eauto | | intros ?]
    | simple apply keeps_try_catch; [typeclasses eauto | | intros ?]
    | simple apply keeps_for_of; [typeclasses eauto | intros ?]
    | match goal with
      | |- keeps _ (if ?b then _ else _) => destruct b
      | |- keeps _ (match ?x with _ => _ end) => destruct x
      end ].

Section ChatFacts.

Import Llm.

Context `{rt : Runtime}.
Variable apiKey : string.
Variable model_name : string.
Variable clock : list Event -> Z.
Variable anthropic : list Event -> Outcome HttpResponse.
Variable callTool : list Event -> Outcome JSValue.
Variable onInterimUpdate : option (list Event -> option JSValue).

Abbreviation sendMessage := (Llm.sendMessage apiKey model_name clock anthropic).
Abbreviation notify := (Llm.notify onInterimUpdate).
Abbreviation execute_tool := (Llm.execute_tool callTool onInterimUpdate).
Abbreviation surface_thinking := (Llm.surface_thinking onInterimUpdate).
Abbreviation round := (Llm.round callTool onInterimUpdate).
Abbreviation agentic_loop :=
  (Llm.agentic_loop apiKey model_name clock anthropic callTool onInterimUpdate).
Abbreviation chat :=
  (Llm.chat apiKey model_name clock anthropic callTool onInterimUpdate).
Abbreviation request_body := (Llm.request_body model_name).
Abbreviation request_entry := (Llm.request_entry model_name clock).
Abbreviation requested := (Llm.requested model_name clock).
Abbreviation response_entry := (Llm.response_entry model_name clock).
Abbreviation responded := (Llm.responded model_name clock).
Abbreviation engine_answer := (Llm.engine_answer anthropic).
Abbreviation answers := (Llm.answers anthropic).
Abbreviation tracks := (Llm.tracks anthropic).
Abbreviation surfaces_thinking := (Llm.surfaces_thinking onInterimUpdate).
Abbreviation thinking_events := (Llm.thinking_events onInterimUpdate).
Abbreviation callback_returns := (Llm.callback_returns onInterimUpdate).
Abbreviation returns_outside_try := (Llm.returns_outside_try onInterimUpdate).
Abbreviation notified := (Llm.notified onInterimUpdate).
Abbreviation update_events := (Llm.update_events onInterimUpdate).
Abbreviation call_history := (Llm.call_history onInterimUpdate).
Abbreviation result_content := (Llm.result_content callTool).

(** *** The store *)

#[local] Instance same_heap_preorder : PreOrder same_heap.
Proof.
  split.
  - intros s. reflexivity.
  - intros s1 s2 s3 H12 H23. unfold same_heap in *. congruence.
Qed.

#[local] Instance same_except_preorder msgs : PreOrder (same_except msgs).
Proof.
  split.
  - intros s l _. reflexivity.
  - intros s1 s2 s3 H12 H23 l Hl. rewrite H23, H12; auto.
Qed.

Ltac modify_keeps_heap :=
  simple apply keeps_modify; intros ?; unfold same_heap; reflexivity.

Lemma same_heap_except msgs s s' : same_heap s s' -> same_except msgs s s'.
Proof. intros H l _. now rewrite H. Qed.

Lemma now_same_heap : keeps same_heap (now clock).
Proof. unfold now. repeat keeps_step. modify_keeps_heap. Qed.

Lemma await_same_heap {A} ev (oracle : list Event -> Outcome A) :
  keeps same_heap (await ev oracle).
Proof. unfold await. repeat keeps_step. modify_keeps_heap. Qed.

Lemma call_back_same_heap cb u : keeps same_heap (call_back cb u).
Proof.
  intros s. unfold call_back, bind, modify; simpl.
  destruct (cb _); reflexivity.
Qed.

Lemma notify_same_heap u : keeps same_heap (notify u).
Proof.
  unfold Llm.notify. destruct onInterimUpdate.
  - apply call_back_same_heap.
  - keeps_step.
Qed.

Lemma push_log_same_heap entry : keeps same_heap (push_log entry).
Proof. unfold push_log. modify_keeps_heap. Qed.

Lemma push_toolResult_same_heap block : keeps same_heap (push_toolResult block).
Proof. unfold push_toolResult. modify_keeps_heap. Qed.

Lemma sendMessage_same_heap msgs tools sys : keeps same_heap (sendMessage msgs tools sys).
Proof.
  unfold Llm.sendMessage.
  repeat first [ apply now_same_heap | apply push_log_same_heap
               | apply await_same_heap | keeps_step ].
Qed.

Lemma execute_tool_same_heap toolUse : keeps same_heap (execute_tool toolUse).
Proof.
  unfold Llm.execute_tool.
  repeat first [ apply notify_same_heap | apply push_toolResult_same_heap
               | apply await_same_heap | modify_keeps_heap | keeps_step ].
Qed.

Lemma surface_thinking_same_heap r : keeps same_heap (surface_thinking r).
Proof.
  unfold Llm.surface_thinking.
  repeat first [ apply call_back_same_heap | keeps_step ].
Qed.

Lemma heap_push_same_except msgs m s : same_except msgs s (heap_push msgs m s).
Proof. intros l Hl. unfold heap_push; simpl. now rewrite lookup_insert_ne. Qed.

(** A round writes to the store at [msgs] only. *)
Lemma round_same_except msgs r : keeps (same_except msgs) (round msgs r).
Proof.
  unfold Llm.round.
  repeat first
    [ simple apply keeps_modify; intros ?; apply heap_push_same_except
    | simple apply (keeps_weaken same_heap); [apply same_heap_except |];
      first [ apply surface_thinking_same_heap
            | simple apply keeps_for_of;
                [typeclasses eauto | intros ?; apply execute_tool_same_heap]
            | modify_keeps_heap ]
    | keeps_step ].
Qed.

Lemma agentic_loop_same_except fuel msgs tools r :
  keeps (same_except msgs) (agentic_loop fuel msgs tools r).
Proof.
  revert r. induction fuel as [| fuel IH]; intros r; simpl.
  - destruct (stop_reason r); keeps_step.
  - destruct (stop_reason r); try keeps_step.
    + apply round_same_except.
    + apply keeps_bind; [typeclasses eauto | | intros r'; apply IH].
      apply (keeps_weaken same_heap); [apply same_heap_except |].
      apply sendMessage_same_heap.
Qed.

(** C9: whatever way a run of [chat] ends (a result, an exception, or the
    loop still going when the fuel is spent), the array passed as
    [conversationHistory] holds what it held before; the run writes to
    one location only, which was not allocated before the call. *)
Theorem chat_leaves_history_untouched (fuel : nat) (userMessage : string)
    (conversationHistory : loc) (mcpTools : list MCPTool) (st : State) :
  let st' := snd (chat fuel userMessage conversationHistory mcpTools st) in
  heap st' !! conversationHistory = heap st !! conversationHistory
  /\ exists msgs,
       heap st !! msgs = None
       /\ forall l, l <> msgs -> heap st' !! l = heap st !! l.
Proof.
  set (msgs := fresh (dom (heap st))).
  assert (Hfresh : heap st !! msgs = None).
  { apply not_elem_of_dom. apply is_fresh. }
  assert (Hall : same_except msgs st
                   (snd (chat fuel userMessage conversationHistory mcpTools st))).
  { unfold Llm.chat.
    erewrite bind_normal by reflexivity.
    erewrite bind_normal by reflexivity.
    erewrite bind_normal by reflexivity.
    unfold bind at 1. unfold spread_with at 1. unfold bind at 1. unfold get at 1.
    cbn [heap set_logEntries set_toolCalls log_event].
    destruct (heap st !! conversationHistory) as [history |]; simpl.
    - fold msgs.
      match goal with
      | |- same_except _ _ (snd (?m ?s)) =>
          transitivity s; [| assert (Hk : keeps (same_except msgs) m); [| apply Hk]]
      end.
      + intros l Hl. simpl. now rewrite lookup_insert_ne.
      + repeat first
          [ apply agentic_loop_same_except
          | simple apply (keeps_weaken same_heap); [apply same_heap_except |];
            first [ apply sendMessage_same_heap | apply now_same_heap ]
          | keeps_step ].
    - intros l _. reflexivity. }
  intros st'. subst st'. split.
  - destruct (decide (conversationHistory = msgs)) as [-> | Hne].
    + rewrite Hfresh. unfold Llm.chat.
      erewrite bind_normal by reflexivity.
      erewrite bind_normal by reflexivity.
      erewrite bind_normal by reflexivity.
      unfold bind at 1. unfold spread_with at 1. unfold bind at 1. unfold get at 1.
      cbn [heap set_logEntries set_toolCalls log_event].
      rewrite Hfresh. simpl. exact Hfresh.
    + now apply Hall.
  - exists msgs. split; [exact Hfresh | exact Hall].
Qed.

(** *** The trace *)

#[local] Instance adds_preorder P : PreOrder (adds P).
Proof.
  split.
  - intros s. exists []. split; [now rewrite app_nil_r | constructor].
  - intros s1 s2 s3 (evs1 & H1 & F1) (evs2 & H2 & F2).
    exists (evs1 ++ evs2). split.
    + now rewrite H2, H1, app_assoc.
    + now apply Forall_app.
Qed.

Lemma adds_silent P (f : State -> State) :
  (forall s, trace (f s) = trace s) -> keeps (adds P) (modify f).
Proof.
  intros H. apply keeps_modify. intros s. exists []. split.
  - now rewrite H, app_nil_r.
  - constructor.
Qed.

Lemma adds_event P ev s : P ev -> adds P s (log_event ev s).
Proof. intros H. exists [ev]. split; [reflexivity | now repeat constructor]. Qed.

Lemma now_adds P : P EvDate -> keeps (adds P) (now clock).
Proof.
  intros H. unfold now. repeat keeps_step.
  apply keeps_modify. intros s. now apply adds_event.
Qed.

Lemma await_adds {A} P ev (oracle : list Event -> Outcome A) :
  P ev -> keeps (adds P) (await ev oracle).
Proof.
  intros H. unfold await. repeat keeps_step.
  apply keeps_modify. intros s. now apply adds_event.
Qed.

Lemma call_back_adds P cb u : P (EvUpdate u) -> keeps (adds P) (call_back cb u).
Proof.
  intros H s. unfold call_back, bind, modify; simpl.
  destruct (cb _); simpl; now apply adds_event.
Qed.

Lemma notify_adds P u : P (EvUpdate u) -> keeps (adds P) (notify u).
Proof.
  intros H. unfold Llm.notify. destruct onInterimUpdate.
  - now apply call_back_adds.
  - keeps_step.
Qed.

Lemma execute_tool_not_thinking toolUse : keeps (adds not_thinking) (execute_tool toolUse).
Proof.
  unfold Llm.execute_tool, push_toolResult.
  repeat first [ apply notify_adds; reflexivity
               | apply await_adds; reflexivity
               | apply adds_silent; reflexivity
               | keeps_step ].
Qed.

(** *** The code's joined text is the specification's *)

Lemma text_blocks_spec blocks :
  map (fun block => or_string (text block) "") (List.filter (is_type text_block) blocks)
  = Spec.text_blocks blocks.
Proof.
  induction blocks as [| block rest IH]; [reflexivity |].
  cbn [List.filter Spec.text_blocks]. unfold is_type at 1.
  destruct (type block); [| exact IH | exact IH].
  cbn [map]. rewrite IH. destruct (text block) as [t |]; [| reflexivity].
  unfold or_string, truthy_string.
  destruct (String.eqb_spec t "") as [-> | _]; reflexivity.
Qed.

Lemma join_lines_spec texts : join_lines texts = Spec.joined_by_newline texts.
Proof.
  unfold join_lines. induction texts as [| t rest IH]; [reflexivity |].
  cbn [String.concat Spec.joined_by_newline].
  destruct rest as [| t' rest]; [reflexivity |].
  rewrite IH. reflexivity.
Qed.

Lemma joined_text_spec blocks :
  joined_text blocks = Spec.joined_by_newline (Spec.text_blocks blocks).
Proof. unfold joined_text. now rewrite text_blocks_spec, join_lines_spec. Qed.

Lemma surface_thinking_trace r st :
  trace (snd (surface_thinking r st)) = trace st ++ thinking_events r.
Proof.
  unfold Llm.surface_thinking, thinking_events, surfaces_thinking, thinking_update.
  destruct (List.filter (is_type text_block) (response_content r));
    [simpl; now rewrite app_nil_r |].
  destruct onInterimUpdate as [cb |]; [| simpl; now rewrite app_nil_r].
  destruct (truthy_string _); [| simpl; now rewrite app_nil_r].
  unfold call_back, bind, modify; simpl.
  destruct (cb _); reflexivity.
Qed.

Lemma round_thinking_trace (msgs : loc) (r : AnthropicResponse) (st : State) :
  exists evs,
    trace (snd (round msgs r st)) = trace st ++ thinking_events r ++ evs
    /\ Forall not_thinking evs.
Proof.
  unfold Llm.round. unfold bind at 1.
  pose proof (surface_thinking_trace r st) as Hth.
  destruct (surface_thinking r st) as [[[] | e |] s1]; simpl in Hth |- *.
  - match goal with
    | |- context [snd (?m s1)] =>
        assert (Hk : keeps (adds not_thinking) m)
    end.
    { repeat first [ apply adds_silent; reflexivity
                   | simple apply keeps_for_of;
                       [typeclasses eauto | intros ?; apply execute_tool_not_thinking]
                   | keeps_step ]. }
    destruct (Hk s1) as (evs & Hevs & F). exists evs. split; [| exact F].
    now rewrite Hevs, Hth, app_assoc.
  - exists []. split; [now rewrite app_nil_r | constructor].
  - exists []. split; [now rewrite app_nil_r | constructor].
Qed.

(** C8 (amended): in a round, when [onInterimUpdate] is supplied, the
    response has at least one text block and the text blocks' text joined
    by newline does not trim to the empty string, the first thing the
    round does is one [thinking] update carrying that joined text, and
    nothing after it in the round (no tool call among it) is a [thinking]
    update; when there is no callback, no text block, or only blank text,
    the round emits no [thinking] update at all.  The joined text is the
    specification's: the texts of the text blocks in order, a newline
    between two consecutive ones. *)
Theorem thinking_is_surfaced_once_before_tools (msgs : loc) (r : AnthropicResponse)
    (st : State) :
  let texts := Spec.text_blocks (response_content r) in
  let thought := Spec.joined_by_newline texts in
  let surfaced :=
    match onInterimUpdate, texts with
    | Some _, _ :: _ => negb (String.eqb (trim thought) "")
    | _, _ => false
    end in
  exists evs,
    trace (snd (round msgs r st))
    = trace st ++ (if surfaced then [EvUpdate (Spec.thinking_of thought)] else []) ++ evs
    /\ Forall not_thinking evs.
Proof.
  intros texts thought surfaced.
  destruct (round_thinking_trace msgs r st) as (evs & Htrace & Hall).
  exists evs. split; [| exact Hall]. rewrite Htrace. f_equal. f_equal.
  unfold thinking_events, surfaces_thinking, thinking_update, Spec.thinking_of.
  subst surfaced thought texts.
  rewrite joined_text_spec, <- text_blocks_spec.
  destruct (List.filter (is_type text_block) (response_content r)) as [| b bs];
    cbn [map]; [now destruct onInterimUpdate |].
  destruct onInterimUpdate; reflexivity.
Qed.

(** *** One exchange with the engine *)

Lemma sendMessage_unconfigured msgs tools sys st :
  truthy_string apiKey = false ->
  sendMessage msgs tools sys st = (Throw (JSError "Anthropic API key not configured"), st).
Proof. intros H. unfold Llm.sendMessage. now rewrite H. Qed.

Lemma sendMessage_cases msgs tools sys st :
  truthy_string apiKey = true ->
  match engine_answer (trace (requested msgs tools sys st)) with
  | Some r => sendMessage msgs tools sys st = (Normal r, responded msgs tools sys st r)
  | None => exists e, sendMessage msgs tools sys st = (Throw e, requested msgs tools sys st)
  end.
Proof.
  intros H. unfold Llm.sendMessage, engine_answer. rewrite H. cbn [negb].
  unfold now, push_log, await, bind, modify, settle, get, ret, throw.
  cbn [fst snd].
  change (trace (log_event EvDate st)) with (trace st ++ [EvDate]).
  fold (request_body msgs tools sys). fold (request_entry msgs tools sys st).
  fold (requested msgs tools sys st).
  destruct (anthropic (trace (requested msgs tools sys st))) as [http | e];
    [| eexists; reflexivity].
  destruct (ok http); cbn [negb].
  - destruct (body_json http) as [r | e]; [reflexivity | eexists; reflexivity].
  - destruct (body_text http); eexists; reflexivity.
Qed.

Lemma sendMessage_answer msgs tools sys st r :
  truthy_string apiKey = true ->
  engine_answer (trace (requested msgs tools sys st)) = Some r ->
  sendMessage msgs tools sys st = (Normal r, responded msgs tools sys st r).
Proof.
  intros Hkey Hr. pose proof (sendMessage_cases msgs tools sys st Hkey) as H.
  now rewrite Hr in H.
Qed.

Lemma agentic_loop_done fuel msgs tools r st :
  stop_reason r <> tool_use -> agentic_loop fuel msgs tools r st = (Normal r, st).
Proof.
  intros H. destruct fuel; simpl; destruct (stop_reason r);
    first [reflexivity | congruence].
Qed.

(** C4: when the engine answers the first request with a response whose
    [stop_reason] is [end_turn], [chat] returns, whatever the fuel, after
    that one exchange: the debug log is the request entry followed by
    the response entry, the trace gains the request and four clock reads
    and no tool call, no tool call is reported, and the text returned is
    the text of the response's text blocks joined by newline, in the
    specification's sense: the texts in order, a newline between two
    consecutive ones. *)
Theorem end_turn_on_first_call (fuel : nat) (userMessage : string)
    (conversationHistory : loc) (mcpTools : list MCPTool) (st : State)
    (history : list AnthropicMessage) (r : AnthropicResponse) :
  let msgs : loc := fresh (dom (heap st)) in
  let tools := mcpToolsToAnthropic mcpTools in
  let sent := history ++ [{| role := user; message_content := Plain userMessage |}] in
  let fetched :=
    EvFetch {| wire_model := model_name; wire_max_tokens := 4096;
               wire_system := Some system; wire_tools := tools;
               wire_messages := sent |} in
  truthy_string apiKey = true ->
  heap st !! conversationHistory = Some history ->
  engine_answer (trace st ++ [EvDate; EvDate; fetched]) = Some r ->
  stop_reason r = end_turn ->
  exists res st',
    chat fuel userMessage conversationHistory mcpTools st = (Normal res, st')
    /\ final_response res = Spec.joined_by_newline (Spec.text_blocks (response_content r))
    /\ result_toolCalls res = []
    /\ map entry_type (entries (debugLogs res)) = [request; response]
    /\ recorded (entries (debugLogs res)) = [r]
    /\ trace st' = trace st ++ [EvDate; EvDate; fetched; EvDate; EvDate]
    /\ heap st' !! msgs = Some sent.
Proof.
  intros msgs tools sent fetched Hkey Hheap Hanswer Hstop.
  unfold Llm.chat.
  erewrite bind_normal by reflexivity.
  erewrite bind_normal by reflexivity.
  erewrite bind_normal by reflexivity.
  set (s0 := log_event EvDate (set_logEntries [] (set_toolCalls [] st))).
  assert (Hspread :
    spread_with conversationHistory
      {| role := user; message_content := Plain userMessage |} s0
    = (Normal msgs, set_heap (<[msgs := sent]> (heap st)) s0)).
  { unfold spread_with, bind, get, modify, ret. cbn [heap s0 log_event set_logEntries set_toolCalls].
    rewrite Hheap. reflexivity. }
  rewrite (bind_normal _ _ _ _ _ Hspread).
  set (s1 := set_heap (<[msgs := sent]> (heap st)) s0).
  assert (Hreq : trace (requested msgs tools (Some system) s1)
                 = trace st ++ [EvDate; EvDate; fetched]).
  { unfold requested, wire, request_body, fetched.
    cbn [trace heap log_event set_logEntries set_heap set_toolCalls s1 s0 messages
         model request_max_tokens system_prompt request_tools].
    rewrite lookup_insert_eq. cbn [default from_option].
    rewrite <- !app_assoc. reflexivity. }
  assert (Hsend : sendMessage msgs tools (Some system) s1
                  = (Normal r, responded msgs tools (Some system) s1 r)).
  { apply sendMessage_answer; [exact Hkey |]. now rewrite Hreq. }
  fold tools.
  rewrite (bind_normal _ _ _ _ _ Hsend).
  erewrite bind_normal by (apply agentic_loop_done; congruence).
  erewrite bind_normal by reflexivity.
  erewrite bind_normal by reflexivity.
  unfold ret. eexists _, _. split; [reflexivity |].
  cbn [final_response result_toolCalls debugLogs entries].
  split; [apply joined_text_spec |]. split; [reflexivity |].
  split; [reflexivity |]. split; [reflexivity |].
  split.
  - cbn [trace log_event responded set_logEntries]. rewrite Hreq.
    rewrite <- !app_assoc. reflexivity.
  - cbn [heap log_event responded requested set_logEntries set_heap s1].
    apply lookup_insert_eq.
Qed.

(** *** Token accounting *)

Lemma answers_app before evs1 evs2 :
  answers before (evs1 ++ evs2)
  = answers before evs1 ++ answers (before ++ evs1) evs2.
Proof.
  revert before. induction evs1 as [| ev evs1 IH]; intros before; simpl.
  - now rewrite app_nil_r.
  - rewrite IH, <- app_assoc. simpl.
    destruct ev; try reflexivity. destruct (engine_answer _); reflexivity.
Qed.

#[local] Instance tracks_preorder : PreOrder tracks.
Proof.
  split.
  - intros s. exists []. simpl. now rewrite !app_nil_r.
  - intros s1 s2 s3 (evs1 & T1 & L1) (evs2 & T2 & L2).
    exists (evs1 ++ evs2). split.
    + now rewrite T2, T1, app_assoc.
    + now rewrite L2, L1, T1, answers_app, app_assoc.
Qed.

Lemma tracks_silent (f : State -> State) :
  (forall s, trace (f s) = trace s) ->
  (forall s, logEntries (f s) = logEntries s) ->
  keeps tracks (modify f).
Proof.
  intros Ht Hl. apply keeps_modify. intros s. exists []. simpl.
  now rewrite Ht, Hl, !app_nil_r.
Qed.

Lemma tracks_event ev s :
  is_fetch ev = false -> tracks s (log_event ev s).
Proof.
  intros H. exists [ev]. split; [reflexivity |]. simpl.
  destruct ev; try discriminate; now rewrite app_nil_r.
Qed.

Lemma now_tracks : keeps tracks (now clock).
Proof.
  unfold now. repeat keeps_step.
  apply keeps_modify. intros s. now apply tracks_event.
Qed.

Lemma await_tracks {A} ev (oracle : list Event -> Outcome A) :
  is_fetch ev = false -> keeps tracks (await ev oracle).
Proof.
  intros H. unfold await. repeat keeps_step.
  apply keeps_modify. intros s. now apply tracks_event.
Qed.

Lemma call_back_tracks cb u : keeps tracks (call_back cb u).
Proof.
  intros s. unfold call_back, bind, modify; simpl.
  destruct (cb _); simpl; now apply tracks_event.
Qed.

Lemma notify_tracks u : keeps tracks (notify u).
Proof.
  unfold Llm.notify. destruct onInterimUpdate.
  - apply call_back_tracks.
  - keeps_step.
Qed.

Lemma recorded_app log1 log2 : recorded (log1 ++ log2) = recorded log1 ++ recorded log2.
Proof. apply omap_app. Qed.

Lemma sendMessage_tracks msgs tools sys : keeps tracks (sendMessage msgs tools sys).
Proof.
  intros s. destruct (truthy_string apiKey) eqn:Hkey.
  - pose proof (sendMessage_cases msgs tools sys s Hkey) as H.
    destruct (engine_answer (trace (requested msgs tools sys s))) as [r |] eqn:Hr.
    + rewrite H. simpl.
      exists [EvDate; EvFetch (wire (set_logEntries
                (logEntries s ++ [request_entry msgs tools sys s]) (log_event EvDate s))
                (request_body msgs tools sys)); EvDate].
      split.
      * simpl. now rewrite <- !app_assoc.
      * simpl. rewrite <- !app_assoc. simpl.
        unfold requested in Hr. simpl in Hr. rewrite <- app_assoc in Hr. simpl in Hr.
        rewrite Hr, recorded_app. reflexivity.
    + destruct H as [e ->]. simpl.
      exists [EvDate; EvFetch (wire (set_logEntries
                (logEntries s ++ [request_entry msgs tools sys s]) (log_event EvDate s))
                (request_body msgs tools sys))].
      split.
      * simpl. now rewrite <- !app_assoc.
      * simpl. rewrite <- !app_assoc. simpl.
        unfold requested in Hr. simpl in Hr. rewrite <- app_assoc in Hr. simpl in Hr.
        rewrite Hr, recorded_app. simpl. now rewrite !app_nil_r.
  - rewrite sendMessage_unconfigured by assumption. reflexivity.
Qed.

Lemma execute_tool_tracks toolUse : keeps tracks (execute_tool toolUse).
Proof.
  unfold Llm.execute_tool, push_toolResult.
  repeat first [ apply notify_tracks
               | apply await_tracks; reflexivity
               | apply tracks_silent; reflexivity
               | keeps_step ].
Qed.

Lemma surface_thinking_tracks r : keeps tracks (surface_thinking r).
Proof.
  unfold Llm.surface_thinking.
  repeat first [ apply call_back_tracks | keeps_step ].
Qed.

Lemma round_tracks msgs r : keeps tracks (round msgs r).
Proof.
  unfold Llm.round.
  repeat first [ apply surface_thinking_tracks
               | apply tracks_silent; reflexivity
               | simple apply keeps_for_of;
                   [typeclasses eauto | intros ?; apply execute_tool_tracks]
               | keeps_step ].
Qed.

Lemma agentic_loop_tracks fuel msgs tools r : keeps tracks (agentic_loop fuel msgs tools r).
Proof.
  revert r. induction fuel as [| fuel IH]; intros r; simpl.
  - destruct (stop_reason r); keeps_step.
  - destruct (stop_reason r); try keeps_step.
    + apply round_tracks.
    + apply keeps_bind; [typeclasses eauto | | intros r'; apply IH].
      apply sendMessage_tracks.
Qed.

(** The loop over the log computes the two sums. *)
Lemma count_tokens_sums log a b :
  fold_left count_tokens log (a, b)
  = (a + sum_input_tokens (recorded log), b + sum_output_tokens (recorded log)).
Proof.
  revert a b. induction log as [| entry log IH]; intros a b; simpl.
  - unfold sum_input_tokens, sum_output_tokens; simpl. f_equal; lia.
  - unfold count_tokens at 2.
    destruct (entry_type entry); [apply IH |].
    destruct (data entry) as [body | r]; [apply IH |].
    unfold sum_input_tokens, sum_output_tokens in *.
    destruct (usage r) as [u |] eqn:Hu; rewrite IH; simpl; rewrite Hu;
      f_equal; lia.
Qed.

Lemma bind_normal_inv {S A B} (m : M S A) (k : A -> M S B) s b s' :
  bind m k s = (Normal b, s') ->
  exists a s1, m s = (Normal a, s1) /\ k a s1 = (Normal b, s').
Proof.
  unfold bind. destruct (m s) as [[a | e |] s1]; intros H; try discriminate.
  now exists a, s1.
Qed.

(** C3: when a run of [chat] returns, the two totals of its debug log are
    the sums of [usage.input_tokens] and of [usage.output_tokens] over
    the responses recorded in the log, and the recorded responses are,
    in order, the responses the engine gave in this run. *)
Theorem token_totals_sum_the_responses (fuel : nat) (userMessage : string)
    (conversationHistory : loc) (mcpTools : list MCPTool) (st st' : State)
    (res : ChatResult) :
  chat fuel userMessage conversationHistory mcpTools st = (Normal res, st') ->
  let responses := recorded (entries (debugLogs res)) in
  totalInputTokens (debugLogs res) = sum_input_tokens responses
  /\ totalOutputTokens (debugLogs res) = sum_output_tokens responses
  /\ exists evs, trace st' = trace st ++ evs /\ responses = answers (trace st) evs.
Proof.
  intros H responses. subst responses. unfold Llm.chat in H.
  erewrite bind_normal in H by reflexivity.
  erewrite bind_normal in H by reflexivity.
  set (s0 := set_logEntries [] (set_toolCalls [] st)) in H.
  apply bind_normal_inv in H as (startTime & sA & HA & H).
  apply bind_normal_inv in H as (msgs & sB & HB & H).
  apply bind_normal_inv in H as (r1 & sC & HC & H).
  apply bind_normal_inv in H as (r & sD & HD & H).
  apply bind_normal_inv in H as (st1 & sE & HE & H).
  apply bind_normal_inv in H as (endTime & sF & HF & H).
  inversion HE; subst st1 sE; clear HE.
  inversion H; subst res st'; clear H.
  cbn [debugLogs entries totalInputTokens totalOutputTokens].
  rewrite count_tokens_sums. simpl. split; [reflexivity |]. split; [reflexivity |].
  assert (TA : tracks s0 sA).
  { pose proof (now_tracks s0) as T. now rewrite HA in T. }
  assert (TB : tracks sA sB).
  { assert (Hk : keeps tracks
                   (spread_with conversationHistory
                      {| role := user; message_content := Plain userMessage |})).
    { unfold spread_with.
      repeat first [ apply tracks_silent; reflexivity | keeps_step ]. }
    specialize (Hk sA). now rewrite HB in Hk. }
  assert (TC : tracks sB sC).
  { pose proof (sendMessage_tracks msgs (mcpToolsToAnthropic mcpTools) (Some system) sB) as T.
    now rewrite HC in T. }
  assert (TD : tracks sC sD).
  { pose proof (agentic_loop_tracks fuel msgs (mcpToolsToAnthropic mcpTools) r1 sC) as T.
    now rewrite HD in T. }
  assert (TF : tracks sD sF).
  { pose proof (now_tracks sD) as T. now rewrite HF in T. }
  assert (T : tracks s0 sD).
  { transitivity sA; [exact TA |]. transitivity sB; [exact TB |].
    transitivity sC; [exact TC | exact TD]. }
  destruct T as (evs & Ht & Hl). destruct TF as (evs' & Ht' & _).
  exists (evs ++ evs'). split.
  - rewrite Ht', Ht. simpl. now rewrite app_assoc.
  - rewrite Hl. simpl.
    rewrite answers_app.
    assert (Hdate : evs' = [EvDate]).
    { unfold now, bind, modify, get, ret in HF. inversion HF; subst sF.
      simpl in Ht'. now apply app_inv_head in Ht'. }
    subst evs'. simpl. now rewrite app_nil_r.
Qed.

(** *** Executing the tools of a round *)

Lemma notify_quiet u st :
  callback_returns -> notify u st = (Normal tt, notified u st).
Proof.
  intros Hq. unfold Llm.notify, notified, call_back, callback_returns in *.
  destruct onInterimUpdate as [cb |]; [| reflexivity].
  unfold bind, modify; simpl. now rewrite (Hq cb eq_refl).
Qed.

Lemma notified_fields u st :
  heap (notified u st) = heap st
  /\ logEntries (notified u st) = logEntries st
  /\ toolCalls (notified u st) = toolCalls st
  /\ toolResults (notified u st) = toolResults st
  /\ trace (notified u st) = trace st ++ update_events u.
Proof.
  unfold notified, update_events. destruct onInterimUpdate; simpl;
    rewrite ?app_nil_r; auto.
Qed.

Lemma update_events_not_tool_call u : Forall not_tool_call (update_events u).
Proof. unfold update_events. destruct onInterimUpdate; repeat constructor. Qed.

(** The end of both branches of [execute_tool]: the result block is
    pushed and the notification returns. *)
Ltac push_and_notify Hq Hr Hh Hhist :=
  unfold bind at 1; unfold push_toolResult at 1; unfold modify at 1;
  cbv beta iota; rewrite notify_quiet by exact Hq;
  match goal with
  | |- context [Llm.notified _ ?u ?s] =>
      let Hh' := fresh "Hh" in
      let Hr' := fresh "Hr" in
      let Ht' := fresh "Ht" in
      destruct (notified_fields u s) as (Hh' & _ & _ & Hr' & Ht');
      eexists _, _; split; [reflexivity |];
      rewrite Hr', Hh', Ht';
      cbn [toolResults heap trace set_toolResults set_toolCalls log_event];
      rewrite Hr, Hh, Hhist; repeat split; apply update_events_not_tool_call
  end.

(** With a callback that returns, executing a tool use returns normally
    and adds exactly one result block, which answers that tool use. *)
Lemma execute_tool_returns toolUse st :
  callback_returns ->
  exists st' evs,
    execute_tool toolUse st = (Normal tt, st')
    /\ toolResults st'
       = toolResults st
         ++ [tool_result_of toolUse (result_content (call_history (trace st) toolUse))]
    /\ heap st' = heap st
    /\ trace st' = call_history (trace st) toolUse ++ evs
    /\ Forall not_tool_call evs.
Proof.
  intros Hq. unfold Llm.execute_tool.
  fold (start_update toolUse). fold (call_event toolUse).
  unfold bind at 1. rewrite notify_quiet by assumption.
  destruct (notified_fields (start_update toolUse) st) as (Hh & _ & _ & Hr & Ht).
  unfold try_catch, await. unfold bind at 1. unfold bind at 1.
  unfold modify at 1. cbv beta iota. unfold settle at 1.
  cbn [trace log_event].
  assert (Hhist : trace (notified (start_update toolUse) st) ++ [call_event toolUse]
                  = call_history (trace st) toolUse).
  { unfold Llm.call_history. now rewrite Ht, app_assoc. }
  rewrite Hhist. unfold Llm.result_content.
  destruct (callTool (call_history (trace st) toolUse)) as [v | e].
  - unfold bind at 1. unfold modify at 1. cbv beta iota.
    unfold bind at 1. unfold settle at 1.
    destruct (JSON_stringify v) as [str | e]; push_and_notify Hq Hr Hh Hhist.
  - push_and_notify Hq Hr Hh Hhist.
Qed.

Lemma tools_loop_returns blocks st :
  callback_returns ->
  exists st' added evs,
    for_of blocks execute_tool st = (Normal tt, st')
    /\ toolResults st' = toolResults st ++ added
    /\ map tool_use_id added = map id blocks
    /\ heap st' = heap st
    /\ trace st' = trace st ++ evs
    /\ List.filter is_tool_call evs = map call_event blocks.
Proof.
  intros Hq. revert st. induction blocks as [| b blocks IH]; intros st.
  - exists st, [], []. simpl. now rewrite !app_nil_r.
  - destruct (execute_tool_returns b st Hq) as (s1 & evs1 & Hrun & Hres & Hheap & Htr & Hev).
    destruct (IH s1) as (s2 & added & evs2 & Hrun2 & Hres2 & Hids & Hheap2 & Htr2 & Hev2).
    exists s2, (tool_result_of b (result_content (call_history (trace st) b)) :: added),
      (update_events (start_update b) ++ [call_event b] ++ evs1 ++ evs2).
    split; [simpl; now rewrite (bind_normal _ _ _ _ _ Hrun) |].
    split; [rewrite Hres2, Hres, <- app_assoc; reflexivity |].
    split; [simpl; now rewrite Hids |].
    split; [congruence |].
    split.
    + rewrite Htr2, Htr. unfold call_history. now rewrite <- !app_assoc.
    + rewrite !List.filter_app, Hev2. simpl.
      assert (Hnone : forall evs, Forall not_tool_call evs -> List.filter is_tool_call evs = []).
      { induction 1 as [| ev evs Hev' _ IH']; simpl; [reflexivity |].
        unfold not_tool_call in Hev'. now rewrite Hev'. }
      rewrite (Hnone _ (update_events_not_tool_call _)), (Hnone _ Hev). reflexivity.
Qed.

Lemma surface_thinking_quiet r st :
  callback_returns ->
  exists s1,
    surface_thinking r st = (Normal tt, s1)
    /\ heap s1 = heap st
    /\ trace s1 = trace st ++ thinking_events r.
Proof.
  intros Hq.
  pose proof (surface_thinking_trace r st) as Ht.
  pose proof (surface_thinking_same_heap r st) as Hh.
  unfold Llm.surface_thinking, callback_returns in *.
  destruct (List.filter (is_type text_block) (response_content r));
    [eexists; split; [reflexivity | split; assumption] |].
  destruct onInterimUpdate as [cb |];
    [| eexists; split; [reflexivity | split; assumption]].
  destruct (truthy_string _);
    [| eexists; split; [reflexivity | split; assumption]].
  unfold call_back, bind, modify in *; simpl in *.
  rewrite (Hq cb eq_refl) in *. eexists; split; [reflexivity | split; assumption].
Qed.

(** *** The trace only grows *)

Lemma sendMessage_grows msgs tools sys : keeps (adds any_event) (sendMessage msgs tools sys).
Proof.
  unfold Llm.sendMessage, push_log.
  repeat first [ apply now_adds; exact I | apply await_adds; exact I
               | apply adds_silent; reflexivity | keeps_step ].
Qed.

Lemma round_grows msgs r : keeps (adds any_event) (round msgs r).
Proof.
  unfold Llm.round, Llm.surface_thinking, Llm.execute_tool, push_toolResult.
  repeat first [ apply call_back_adds; exact I | apply notify_adds; exact I
               | apply await_adds; exact I
               | apply adds_silent; reflexivity | keeps_step ].
Qed.

Lemma agentic_loop_grows fuel msgs tools r :
  keeps (adds any_event) (agentic_loop fuel msgs tools r).
Proof.
  revert r. induction fuel as [| fuel IH]; intros r; simpl.
  - destruct (stop_reason r); keeps_step.
  - destruct (stop_reason r); try keeps_step.
    + apply round_grows.
    + apply keeps_bind; [typeclasses eauto | | intros r'; apply IH].
      apply sendMessage_grows.
Qed.

(** With a callback that returns, a round returns normally, whatever the
    tools do: it executes every tool use in order and appends a user
    message with one result per tool use, in the same order. *)
Lemma round_returns msgs r st :
  callback_returns ->
  exists st' results evs,
    round msgs r st = (Normal tt, st')
    /\ heap st' !! msgs = Some (with_round (default [] (heap st !! msgs)) r results)
    /\ map tool_use_id results
       = map id (List.filter (is_type tool_use_block) (response_content r))
    /\ trace st' = trace st ++ evs
    /\ List.filter is_tool_call evs
       = map call_event (List.filter (is_type tool_use_block) (response_content r))
    /\ toolResults st' = results.
Proof.
  intros Hq. unfold Llm.round.
  destruct (surface_thinking_quiet r st Hq) as (s1 & Hth & Hh1 & Ht1).
  rewrite (bind_normal _ _ _ _ _ Hth).
  erewrite bind_normal by reflexivity.
  destruct (tools_loop_returns
              (List.filter (is_type tool_use_block) (response_content r))
              (set_toolResults [] s1) Hq)
    as (s2 & results & evs & Hrun & Hres & Hids & Hh2 & Ht2 & Hev).
  rewrite (bind_normal _ _ _ _ _ Hrun).
  erewrite bind_normal by reflexivity.
  erewrite bind_normal by reflexivity.
  simpl in Hres, Hh2, Ht2.
  exists (heap_push msgs {| role := user; message_content := Blocks (toolResults s2) |}
            (heap_push msgs {| role := assistant;
                               message_content := Blocks (response_content r) |} s2)),
    results, (thinking_events r ++ evs).
  split; [reflexivity |].
  split.
  { unfold heap_push, with_round; simpl. rewrite lookup_insert_eq; simpl.
    rewrite lookup_insert_eq; simpl. rewrite Hh2, Hh1, Hres, <- app_assoc. reflexivity. }
  split; [exact Hids |].
  split; [simpl; rewrite Ht2, Ht1; now rewrite app_assoc |].
  split; [| exact Hres].
  rewrite List.filter_app, Hev.
  unfold thinking_events. destruct (surfaces_thinking r); reflexivity.
Qed.

(** *** A round whose callback may throw on [tool_complete] *)

Lemma notify_outside u st :
  returns_outside_try ->
  update_type u <> tool_complete ->
  notify u st = (Normal tt, notified u st).
Proof.
  intros Hq Hu. unfold Llm.notify, notified, call_back, Llm.returns_outside_try in *.
  destruct onInterimUpdate as [cb |]; [| reflexivity].
  unfold bind, modify. cbn [trace log_event]. now rewrite (Hq cb eq_refl _ _ Hu).
Qed.

Lemma notify_cases u st :
  notify u st = (Normal tt, notified u st)
  \/ exists e, notify u st = (Throw e, notified u st).
Proof.
  unfold Llm.notify, notified, call_back.
  destruct onInterimUpdate as [cb |]; [| now left].
  unfold bind, modify. cbn [trace log_event].
  destruct (cb _) as [e |]; [right; now exists e | now left].
Qed.

Lemma notified_toolResults u st : toolResults (notified u st) = toolResults st.
Proof. apply notified_fields. Qed.

Lemma notified_heap u st : heap (notified u st) = heap st.
Proof. apply notified_fields. Qed.

Lemma notified_trace u st : trace (notified u st) = trace st ++ update_events u.
Proof. apply notified_fields. Qed.

(** The fields of a state under the notifications and pushes of
    [execute_tool]. *)
Ltac read_fields :=
  repeat first [ rewrite notified_toolResults | rewrite notified_heap
               | rewrite notified_trace
               | progress cbn [toolResults heap trace set_toolResults set_toolCalls
                               log_event] ].

(** The [catch] block of [execute_tool]: the error block is pushed and
    the [tool_error] notification returns. *)
Ltac catch_block Hq :=
  unfold bind at 1; unfold push_toolResult at 1; unfold modify at 1;
  cbv beta iota; rewrite notify_outside by (exact Hq || discriminate).

(** Whatever the callback does on [tool_complete], executing a tool use
    returns normally; the blocks it adds all answer that tool use, and
    when [callTool] rejects it adds one block, the error. *)
Lemma execute_tool_contained toolUse st :
  returns_outside_try ->
  exists st' added evs,
    execute_tool toolUse st = (Normal tt, st')
    /\ toolResults st' = toolResults st ++ added
    /\ Forall (fun b => tool_use_id b = id toolUse) added
    /\ (forall e, callTool (call_history (trace st) toolUse) = Throws e ->
                  added = [tool_result_of toolUse (Some ("Error: " +:+ errorMsg e))])
    /\ heap st' = heap st
    /\ trace st' = call_history (trace st) toolUse ++ evs
    /\ Forall not_tool_call evs.
Proof.
  intros Hq. unfold Llm.execute_tool.
  fold (start_update toolUse). fold (call_event toolUse).
  unfold bind at 1. rewrite notify_outside by (assumption || discriminate).
  destruct (notified_fields (start_update toolUse) st) as (Hh & _ & _ & Hr & Ht).
  unfold try_catch, await. unfold bind at 1. unfold bind at 1.
  unfold modify at 1. cbv beta iota. unfold settle at 1.
  cbn [trace log_event].
  assert (Hhist : trace (notified (start_update toolUse) st) ++ [call_event toolUse]
                  = call_history (trace st) toolUse).
  { unfold Llm.call_history. now rewrite Ht, app_assoc. }
  rewrite Hhist.
  assert (Hhist' : (trace st ++ update_events (start_update toolUse)) ++ [call_event toolUse]
                   = call_history (trace st) toolUse)
    by (unfold Llm.call_history; now rewrite app_assoc).
  assert (Hquiet : forall u, Forall not_tool_call (update_events u))
    by apply update_events_not_tool_call.
  destruct (callTool (call_history (trace st) toolUse)) as [v | e].
  - unfold bind at 1. unfold modify at 1. cbv beta iota.
    unfold bind at 1. unfold settle at 1.
    destruct (JSON_stringify v) as [str | e].
    + unfold bind at 1. unfold push_toolResult at 1. unfold modify at 1. cbv beta iota.
      match goal with
      | |- context [Llm.notify _ ?u ?s] =>
          destruct (notify_cases u s) as [Hn | (e & Hn)]; rewrite Hn
      end.
      * eexists _, _, _. split; [reflexivity |]. read_fields. rewrite Hhist'.
        split; [reflexivity |]. split; [repeat constructor |].
        split; [discriminate |]. split; [reflexivity |].
        split; [reflexivity | apply Hquiet].
      * catch_block Hq.
        eexists _, _, _. split; [reflexivity |]. read_fields. rewrite Hhist'.
        split; [rewrite <- app_assoc; reflexivity |]. split; [repeat constructor |].
        split; [discriminate |]. split; [reflexivity |].
        split; [rewrite <- app_assoc; reflexivity |].
        apply Forall_app; split; apply Hquiet.
    + catch_block Hq.
      eexists _, _, _. split; [reflexivity |]. read_fields. rewrite Hhist'.
      split; [reflexivity |]. split; [repeat constructor |].
      split; [discriminate |]. split; [reflexivity |].
      split; [reflexivity | apply Hquiet].
  - catch_block Hq.
    eexists _, _, _. split; [reflexivity |]. read_fields. rewrite Hhist'.
    split; [reflexivity |]. split; [repeat constructor |].
    split; [intros e' [= <-]; reflexivity |]. split; [reflexivity |].
    split; [reflexivity | apply Hquiet].
Qed.

Lemma tools_loop_contained blocks st :
  returns_outside_try ->
  exists st' added evs,
    for_of blocks execute_tool st = (Normal tt, st')
    /\ toolResults st' = toolResults st ++ added
    /\ Forall (fun b => In (tool_use_id b) (map id blocks)) added
    /\ heap st' = heap st
    /\ trace st' = trace st ++ evs
    /\ List.filter is_tool_call evs = map call_event blocks.
Proof.
  intros Hq. revert st. induction blocks as [| b blocks IH]; intros st.
  - exists st, [], []. simpl. rewrite !app_nil_r. repeat split. constructor.
  - destruct (execute_tool_contained b st Hq)
      as (s1 & added1 & evs1 & Hrun & Hres & Hids & _ & Hheap & Htr & Hev).
    destruct (IH s1) as (s2 & added2 & evs2 & Hrun2 & Hres2 & Hids2 & Hheap2 & Htr2 & Hev2).
    exists s2, (added1 ++ added2),
      (update_events (start_update b) ++ [call_event b] ++ evs1 ++ evs2).
    split; [simpl; now rewrite (bind_normal _ _ _ _ _ Hrun) |].
    split; [rewrite Hres2, Hres, <- app_assoc; reflexivity |].
    split.
    { apply Forall_app; split.
      - eapply Forall_impl; [exact Hids |]. cbn beta. intros x ->. now left.
      - eapply Forall_impl; [exact Hids2 |]. cbn beta. intros x Hx. now right. }
    split; [congruence |].
    split.
    + rewrite Htr2, Htr. unfold Llm.call_history. now rewrite <- !app_assoc.
    + rewrite !List.filter_app, Hev2. simpl.
      assert (Hnone : forall evs, Forall not_tool_call evs -> List.filter is_tool_call evs = []).
      { induction 1 as [| ev evs Hev' _ IH']; simpl; [reflexivity |].
        unfold not_tool_call in Hev'. now rewrite Hev'. }
      rewrite (Hnone _ (update_events_not_tool_call _)), (Hnone _ Hev). reflexivity.
Qed.

Lemma surface_thinking_outside r st :
  returns_outside_try ->
  exists s1,
    surface_thinking r st = (Normal tt, s1)
    /\ heap s1 = heap st
    /\ trace s1 = trace st ++ thinking_events r.
Proof.
  intros Hq.
  pose proof (surface_thinking_trace r st) as Ht.
  pose proof (surface_thinking_same_heap r st) as Hh.
  unfold Llm.surface_thinking, Llm.returns_outside_try in *.
  destruct (List.filter (is_type text_block) (response_content r));
    [eexists; split; [reflexivity | split; assumption] |].
  destruct onInterimUpdate as [cb |];
    [| eexists; split; [reflexivity | split; assumption]].
  destruct (truthy_string _);
    [| eexists; split; [reflexivity | split; assumption]].
  unfold call_back, bind, modify in *; cbn [trace log_event fst snd] in *.
  rewrite (Hq cb eq_refl) in * by discriminate.
  eexists; split; [reflexivity | split; assumption].
Qed.


(** *** What a run reports: the tool calls *)

Abbreviation fulfilled := (Llm.fulfilled callTool).
Abbreviation reports := (Llm.reports callTool).

Lemma fulfilled_app before evs1 evs2 :
  fulfilled before (evs1 ++ evs2)
  = fulfilled before evs1 ++ fulfilled (before ++ evs1) evs2.
Proof.
  revert before. induction evs1 as [| ev evs1 IH]; intros before; simpl.
  - now rewrite app_nil_r.
  - rewrite IH, <- app_assoc. simpl.
    destruct ev; try reflexivity. destruct (callTool _); reflexivity.
Qed.

#[local] Instance reports_preorder : PreOrder reports.
Proof.
  split.
  - intros s. exists []. simpl. now rewrite !app_nil_r.
  - intros s1 s2 s3 (evs1 & T1 & L1) (evs2 & T2 & L2).
    exists (evs1 ++ evs2). split.
    + now rewrite T2, T1, app_assoc.
    + now rewrite L2, L1, T1, fulfilled_app, app_assoc.
Qed.

Lemma reports_silent (f : State -> State) :
  (forall s, trace (f s) = trace s) ->
  (forall s, toolCalls (f s) = toolCalls s) ->
  keeps reports (modify f).
Proof.
  intros Ht Hl. apply keeps_modify. intros s. exists []. simpl.
  now rewrite Ht, Hl, !app_nil_r.
Qed.

Lemma reports_event ev s :
  is_tool_call ev = false -> reports s (log_event ev s).
Proof.
  intros H. exists [ev]. split; [reflexivity |]. simpl.
  destruct ev; try discriminate; now rewrite app_nil_r.
Qed.

Lemma now_reports : keeps reports (now clock).
Proof.
  unfold now. repeat keeps_step.
  apply keeps_modify. intros s. now apply reports_event.
Qed.

Lemma await_reports {A} ev (oracle : list Event -> Outcome A) :
  is_tool_call ev = false -> keeps reports (await ev oracle).
Proof.
  intros H. unfold await. repeat keeps_step.
  apply keeps_modify. intros s. now apply reports_event.
Qed.

Lemma call_back_reports cb u : keeps reports (call_back cb u).
Proof.
  intros s. unfold call_back, bind, modify; simpl.
  destruct (cb _); simpl; now apply reports_event.
Qed.

Lemma notify_reports u : keeps reports (notify u).
Proof.
  unfold Llm.notify. destruct onInterimUpdate.
  - apply call_back_reports.
  - keeps_step.
Qed.

Lemma sendMessage_reports msgs tools sys : keeps reports (sendMessage msgs tools sys).
Proof.
  unfold Llm.sendMessage, push_log.
  repeat first [ apply now_reports | apply await_reports; reflexivity
               | apply reports_silent; reflexivity | keeps_step ].
Qed.

(** The call and the push that records it, as one step: the state after
    it reports the call if, and only if, it was fulfilled. *)
Lemma execute_tool_reports toolUse : keeps reports (execute_tool toolUse).
Proof.
  unfold Llm.execute_tool.
  apply keeps_bind; [typeclasses eauto | apply notify_reports | intros _].
  intros s. unfold try_catch. unfold bind at 1. unfold await, bind at 1.
  unfold modify at 1. cbv beta iota. unfold settle at 1. cbn [trace log_event].
  set (ev := EvCallTool (block_name toolUse) (input toolUse)).
  destruct (callTool (trace s ++ [ev])) as [v | e] eqn:Hcall.
  - unfold bind at 1. unfold modify at 1. cbv beta iota.
    match goal with
    | |- reports s (snd (match ?m ?s1 with _ => _ end)) =>
        assert (Hfirst : reports s s1);
        [| assert (Hk : keeps reports m);
           [| assert (Hh : forall err, keeps reports
                 (bind (push_toolResult (tool_result_of toolUse (Some ("Error: " +:+ errorMsg err))))
                    (fun _ => notify {| update_type := tool_error; update_content := None;
                                        toolName := block_name toolUse; toolInput := None;
                                        toolResult := None; error := Some (errorMsg err) |})));
              [| specialize (Hk s1); destruct (m s1) as [[a | err |] s2]; simpl in Hk |- *;
                 [ etransitivity; eassumption
                 | etransitivity; [exact Hfirst |]; etransitivity; [exact Hk | apply Hh]
                 | etransitivity; eassumption ] ] ] ]
    end.
    + exists [ev]. split; [reflexivity |]. simpl. subst ev. rewrite Hcall. reflexivity.
    + unfold push_toolResult.
      repeat first [ apply notify_reports | apply reports_silent; reflexivity | keeps_step ].
    + intros err. unfold push_toolResult.
      repeat first [ apply notify_reports | apply reports_silent; reflexivity | keeps_step ].
  - match goal with
    | |- reports s (snd (?h ?s1)) =>
        assert (Hfirst : reports s s1); [| assert (Hk : keeps reports h);
          [| etransitivity; [exact Hfirst | apply Hk] ] ]
    end.
    + exists [ev]. split; [reflexivity |]. simpl. subst ev. rewrite Hcall.
      now rewrite app_nil_r.
    + unfold push_toolResult.
      repeat first [ apply notify_reports | apply reports_silent; reflexivity | keeps_step ].
Qed.

Lemma surface_thinking_reports r : keeps reports (surface_thinking r).
Proof.
  unfold Llm.surface_thinking.
  repeat first [ apply call_back_reports | keeps_step ].
Qed.

Lemma round_reports msgs r : keeps reports (round msgs r).
Proof.
  unfold Llm.round.
  repeat first [ apply surface_thinking_reports
               | apply reports_silent; reflexivity
               | simple apply keeps_for_of;
                   [typeclasses eauto | intros ?; apply execute_tool_reports]
               | keeps_step ].
Qed.

Lemma agentic_loop_reports fuel msgs tools r :
  keeps reports (agentic_loop fuel msgs tools r).
Proof.
  revert r. induction fuel as [| fuel IH]; intros r; simpl.
  - destruct (stop_reason r); keeps_step.
  - destruct (stop_reason r); try keeps_step.
    + apply round_reports.
    + apply keeps_bind; [typeclasses eauto | | intros r'; apply IH].
      apply sendMessage_reports.
Qed.

(** X1: when a run of [chat] returns, the [toolCalls] of its result are,
    in order, the calls of [callTool] that were fulfilled during the run,
    each with the name it was called under and the value it resolved to;
    a call that was rejected is not among them. *)
Theorem tool_calls_are_the_fulfilled_calls (fuel : nat) (userMessage : string)
    (conversationHistory : loc) (mcpTools : list MCPTool) (st st' : State)
    (res : ChatResult) :
  chat fuel userMessage conversationHistory mcpTools st = (Normal res, st') ->
  exists evs,
    trace st' = trace st ++ evs
    /\ result_toolCalls res = fulfilled (trace st) evs.
Proof.
  intros H. unfold Llm.chat in H.
  erewrite bind_normal in H by reflexivity.
  erewrite bind_normal in H by reflexivity.
  set (s0 := set_logEntries [] (set_toolCalls [] st)) in H.
  apply bind_normal_inv in H as (startTime & sA & HA & H).
  apply bind_normal_inv in H as (msgs & sB & HB & H).
  apply bind_normal_inv in H as (r1 & sC & HC & H).
  apply bind_normal_inv in H as (r & sD & HD & H).
  apply bind_normal_inv in H as (st1 & sE & HE & H).
  apply bind_normal_inv in H as (endTime & sF & HF & H).
  inversion HE; subst st1 sE; clear HE.
  inversion H; subst res st'; clear H.
  cbn [result_toolCalls].
  assert (TA : reports s0 sA).
  { pose proof (now_reports s0) as T. now rewrite HA in T. }
  assert (TB : reports sA sB).
  { assert (Hk : keeps reports
                   (spread_with conversationHistory
                      {| role := user; message_content := Plain userMessage |})).
    { unfold spread_with.
      repeat first [ apply reports_silent; reflexivity | keeps_step ]. }
    specialize (Hk sA). now rewrite HB in Hk. }
  assert (TC : reports sB sC).
  { pose proof (sendMessage_reports msgs (mcpToolsToAnthropic mcpTools) (Some system) sB) as T.
    now rewrite HC in T. }
  assert (TD : reports sC sD).
  { pose proof (agentic_loop_reports fuel msgs (mcpToolsToAnthropic mcpTools) r1 sC) as T.
    now rewrite HD in T. }
  assert (TF : reports sD sF).
  { pose proof (now_reports sD) as T. now rewrite HF in T. }
  assert (T : reports s0 sD).
  { transitivity sA; [exact TA |]. transitivity sB; [exact TB |].
    transitivity sC; [exact TC | exact TD]. }
  destruct T as (evs & Ht & Hl). destruct TF as (evs' & Ht' & _).
  exists (evs ++ evs'). split.
  - rewrite Ht', Ht. simpl. now rewrite app_assoc.
  - rewrite Hl. simpl. rewrite fulfilled_app.
    assert (Hdate : evs' = [EvDate]).
    { unfold now, bind, modify, get, ret in HF. inversion HF; subst sF.
      simpl in Ht'. now apply app_inv_head in Ht'. }
    subst evs'. simpl. now rewrite app_nil_r.
Qed.

(** *** What a run records: the debug log *)

Abbreviation exchanges := Llm.exchanges.

#[local] Instance same_log_preorder : PreOrder same_log.
Proof.
  split.
  - intros s. reflexivity.
  - intros s1 s2 s3 H12 H23. unfold same_log in *. congruence.
Qed.

Ltac modify_keeps_log :=
  simple apply keeps_modify; intros ?; unfold same_log; reflexivity.

Lemma call_back_same_log cb u : keeps same_log (call_back cb u).
Proof.
  intros s. unfold call_back, bind, modify; simpl.
  destruct (cb _); reflexivity.
Qed.

Lemma notify_same_log u : keeps same_log (notify u).
Proof.
  unfold Llm.notify. destruct onInterimUpdate.
  - apply call_back_same_log.
  - keeps_step.
Qed.

(** A round makes no entry in the log. *)
Lemma round_same_log msgs r : keeps same_log (round msgs r).
Proof.
  unfold Llm.round, Llm.surface_thinking, Llm.execute_tool, push_toolResult, await.
  repeat first [ apply call_back_same_log | apply notify_same_log
               | modify_keeps_log | keeps_step ].
Qed.

(** An exchange that returns has gone all the way: request logged and
    sent, response decoded and logged. *)
Lemma sendMessage_returns msgs tools sys st r st' :
  sendMessage msgs tools sys st = (Normal r, st') ->
  st' = responded msgs tools sys st r
  /\ engine_answer (trace (requested msgs tools sys st)) = Some r.
Proof.
  intros H. destruct (truthy_string apiKey) eqn:Hkey.
  - pose proof (sendMessage_cases msgs tools sys st Hkey) as Hc.
    destruct (engine_answer (trace (requested msgs tools sys st))) as [r0 |].
    + rewrite Hc in H. inversion H; subst. auto.
    + destruct Hc as [e Hc]. rewrite Hc in H. discriminate.
  - rewrite sendMessage_unconfigured in H by assumption. discriminate.
Qed.

Lemma responded_log msgs tools sys st r :
  logEntries (responded msgs tools sys st r)
  = logEntries st ++ [request_entry msgs tools sys st; response_entry msgs tools sys st r].
Proof.
  unfold Llm.responded, Llm.requested.
  cbn [logEntries log_event set_logEntries]. now rewrite <- app_assoc.
Qed.

Lemma exchange_entries msgs tools sys st r rest :
  exchanges msgs (request_entry msgs tools sys st :: response_entry msgs tools sys st r :: rest)
  = exchanges msgs rest.
Proof.
  cbn [Llm.exchanges].
  unfold is_request_at, is_response_to, Llm.request_entry, Llm.response_entry,
    Llm.request_body.
  cbn [entry_type data duration messages timestamp].
  now rewrite Pos.eqb_refl, Z.eqb_refl.
Qed.

(** The loop, when it returns, has added whole exchanges to the log; the
    responses they record all asked for tools, the last one excepted,
    which is the response the loop returns. *)
Lemma agentic_loop_log fuel msgs tools r st r' st' :
  agentic_loop fuel msgs tools r st = (Normal r', st') ->
  exists new earlier,
    logEntries st' = logEntries st ++ new
    /\ exchanges msgs new = true
    /\ length new = (2 * length (recorded new))%nat
    /\ r :: recorded new = earlier ++ [r']
    /\ Forall (fun x => stop_reason x = tool_use) earlier
    /\ stop_reason r' <> tool_use.
Proof.
  revert r st. induction fuel as [| fuel IH]; intros r st H.
  - simpl in H. destruct (stop_reason r) eqn:Hstop; try discriminate;
      inversion H; subst; exists [], [];
        rewrite app_nil_r; repeat split; auto; congruence.
  - simpl in H. destruct (stop_reason r) eqn:Hstop;
      try (inversion H; subst; exists [], [];
           rewrite app_nil_r; repeat split; auto; congruence).
    apply bind_normal_inv in H as ([] & s1 & Hround & H).
    apply bind_normal_inv in H as (r1 & s2 & Hsend & H).
    apply sendMessage_returns in Hsend as [-> _].
    apply IH in H as (new & earlier & Hlog & Hex & Hlen & Hrec & Hall & Hlast).
    pose proof (round_same_log msgs r st) as Hsame. rewrite Hround in Hsame.
    unfold same_log in Hsame. simpl in Hsame.
    exists (request_entry msgs tools (Some system) s1
            :: response_entry msgs tools (Some system) s1 r1 :: new), (r :: earlier).
    split; [rewrite Hlog, responded_log, Hsame, <- app_assoc; reflexivity |].
    split; [now rewrite exchange_entries |].
    split; [simpl; lia |].
    split; [simpl; now rewrite Hrec |].
    split; [now constructor | exact Hlast].
Qed.

(** What [chat] does when it returns, step by step. *)
Lemma chat_returns fuel userMessage conversationHistory mcpTools st res st' :
  chat fuel userMessage conversationHistory mcpTools st = (Normal res, st') ->
  let tools := mcpToolsToAnthropic mcpTools in
  let s0 := log_event EvDate (set_logEntries [] (set_toolCalls [] st)) in
  exists msgs sB r1 r sD,
    spread_with conversationHistory
      {| role := user; message_content := Plain userMessage |} s0 = (Normal msgs, sB)
    /\ sendMessage msgs tools (Some system) sB
       = (Normal r1, responded msgs tools (Some system) sB r1)
    /\ agentic_loop fuel msgs tools r1 (responded msgs tools (Some system) sB r1)
       = (Normal r, sD)
    /\ st' = log_event EvDate sD
    /\ final_response res = joined_text (response_content r)
    /\ result_toolCalls res = toolCalls sD
    /\ entries (debugLogs res) = logEntries sD.
Proof.
  intros H tools s0. unfold Llm.chat in H. fold tools in H.
  erewrite bind_normal in H by reflexivity.
  erewrite bind_normal in H by reflexivity.
  erewrite bind_normal in H by reflexivity.
  fold s0 in H.
  apply bind_normal_inv in H as (msgs & sB & HB & H).
  apply bind_normal_inv in H as (r1 & sC & HC & H).
  apply bind_normal_inv in H as (r & sD & HD & H).
  erewrite bind_normal in H by reflexivity.
  erewrite bind_normal in H by reflexivity.
  inversion H; subst res st'; clear H.
  pose proof (sendMessage_returns _ _ _ _ _ _ HC) as [-> _].
  exists msgs, sB, r1, r, sD. repeat split; assumption.
Qed.

Lemma spread_with_returns l m st msgs st' :
  spread_with l m st = (Normal msgs, st') ->
  exists history,
    heap st !! l = Some history
    /\ msgs = fresh (dom (heap st))
    /\ st' = set_heap (<[msgs := history ++ [m]]> (heap st)) st.
Proof.
  unfold spread_with, bind, get, modify, ret, throw.
  destruct (heap st !! l) as [history |]; intros H; inversion H; subst.
  now exists history.
Qed.

(** X2: when a run of [chat] returns, its debug log is a sequence of
    exchanges: a request entry (with no duration, and with the message
    array of the run as its [messages]) followed by the response entry
    that answers it, whose duration is the difference of the two
    timestamps; so the log has twice as many entries as it records
    responses, and no request is left without its response. *)
Theorem debug_log_is_a_sequence_of_exchanges (fuel : nat) (userMessage : string)
    (conversationHistory : loc) (mcpTools : list MCPTool) (st st' : State)
    (res : ChatResult) :
  chat fuel userMessage conversationHistory mcpTools st = (Normal res, st') ->
  exists msgs,
    heap st !! msgs = None
    /\ exchanges msgs (entries (debugLogs res)) = true
    /\ length (entries (debugLogs res))
       = (2 * length (recorded (entries (debugLogs res))))%nat.
Proof.
  intros H.
  apply chat_returns in H as (msgs & sB & r1 & r & sD & HB & _ & HD & _ & _ & _ & Hlog).
  apply spread_with_returns in HB as (history & _ & Hmsgs & HsB).
  apply agentic_loop_log in HD as (new & earlier & Hnew & Hex & Hlen & _).
  exists msgs. split.
  { subst msgs. apply not_elem_of_dom. apply is_fresh. }
  rewrite Hlog, Hnew, responded_log. subst sB.
  cbn [logEntries set_heap log_event set_logEntries app].
  split; [now rewrite exchange_entries |].
  simpl. lia.
Qed.

(** X3: when a run of [chat] returns, every response its log records but
    the last asked for tools ([stop_reason] is [tool_use]), the last one
    did not, and the text returned is the text of that last response's
    text blocks, in order, with a newline between two consecutive ones
    (a text block without text counting as the empty text). *)
Theorem final_response_is_the_last_answer (fuel : nat) (userMessage : string)
    (conversationHistory : loc) (mcpTools : list MCPTool) (st st' : State)
    (res : ChatResult) :
  chat fuel userMessage conversationHistory mcpTools st = (Normal res, st') ->
  exists earlier final,
    recorded (entries (debugLogs res)) = earlier ++ [final]
    /\ Forall (fun r => stop_reason r = tool_use) earlier
    /\ stop_reason final <> tool_use
    /\ final_response res
       = Spec.joined_by_newline (Spec.text_blocks (response_content final)).
Proof.
  intros H.
  apply chat_returns in H as (msgs & sB & r1 & r & sD & HB & _ & HD & _ & Htext & _ & Hlog).
  rewrite joined_text_spec in Htext.
  apply spread_with_returns in HB as (history & _ & _ & HsB).
  apply agentic_loop_log in HD as (new & earlier & Hnew & _ & _ & Hrec & Hall & Hlast).
  exists earlier, r. rewrite Hlog, Hnew, responded_log. subst sB.
  cbn [logEntries set_heap log_event set_logEntries app].
  split; [| auto].
  rewrite <- Hrec. reflexivity.
Qed.

(** *** What a run sends *)

Abbreviation carries := (Llm.carries model_name).
Abbreviation sends := (Llm.sends model_name).
Abbreviation hasLLMConfig := (Llm.hasLLMConfig apiKey).

#[local] Instance sends_preorder msgs tools opening : PreOrder (sends msgs tools opening).
Proof.
  split.
  - intros s H. split; [exact H |]. exists []. split; [now rewrite app_nil_r | constructor].
  - intros s1 s2 s3 H12 H23 H1.
    destruct (H12 H1) as (H2 & evs1 & T1 & F1).
    destruct (H23 H2) as (H3 & evs2 & T2 & F2).
    split; [exact H3 |]. exists (evs1 ++ evs2). split.
    + now rewrite T2, T1, app_assoc.
    + now apply Forall_app.
Qed.

Lemma sends_silent msgs tools opening (f : State -> State) :
  (forall s, trace (f s) = trace s) ->
  (forall s, heap (f s) = heap s) ->
  keeps (sends msgs tools opening) (modify f).
Proof.
  intros Ht Hh. apply keeps_modify. intros s (later & H). split.
  - exists later. now rewrite Hh.
  - exists []. split; [now rewrite Ht, app_nil_r | constructor].
Qed.

Lemma sends_event msgs tools opening ev s :
  carries tools opening ev -> sends msgs tools opening s (log_event ev s).
Proof.
  intros H Hopen. split; [exact Hopen |].
  exists [ev]. split; [reflexivity | now repeat constructor].
Qed.

Lemma await_sends {A} msgs tools opening ev (oracle : list Event -> Outcome A) :
  carries tools opening ev -> keeps (sends msgs tools opening) (await ev oracle).
Proof.
  intros H. unfold await. repeat keeps_step.
  apply keeps_modify. intros s. now apply sends_event.
Qed.

Lemma now_sends msgs tools opening : keeps (sends msgs tools opening) (now clock).
Proof.
  unfold now. repeat keeps_step.
  apply keeps_modify. intros s. now apply sends_event.
Qed.

Lemma call_back_sends msgs tools opening cb u :
  keeps (sends msgs tools opening) (call_back cb u).
Proof.
  intros s. unfold call_back, bind, modify; simpl.
  destruct (cb _); simpl; now apply sends_event.
Qed.

Lemma notify_sends msgs tools opening u : keeps (sends msgs tools opening) (notify u).
Proof.
  unfold Llm.notify. destruct onInterimUpdate.
  - apply call_back_sends.
  - keeps_step.
Qed.

(** A push on the array of the run keeps what it starts with. *)
Lemma sends_push msgs tools opening m :
  keeps (sends msgs tools opening) (modify (heap_push msgs m)).
Proof.
  apply keeps_modify. intros s (later & H). split.
  - exists (later ++ [m]). unfold heap_push; simpl.
    rewrite lookup_insert_eq, H; simpl. now rewrite app_assoc.
  - exists []. split; [simpl; now rewrite app_nil_r | constructor].
Qed.

Lemma sendMessage_sends msgs tools opening :
  keeps (sends msgs tools opening) (sendMessage msgs tools (Some system)).
Proof.
  intros s (later & Hopen).
  assert (Hcarries : carries tools opening
            (EvFetch (wire (set_logEntries
                       (logEntries s ++ [request_entry msgs tools (Some system) s])
                       (log_event EvDate s))
                     (request_body msgs tools (Some system))))).
  { unfold wire, Llm.request_body. simpl. rewrite Hopen; simpl.
    repeat split. now exists later. }
  destruct (truthy_string apiKey) eqn:Hkey.
  - pose proof (sendMessage_cases msgs tools (Some system) s Hkey) as H.
    destruct (engine_answer (trace (requested msgs tools (Some system) s))) as [r |].
    + rewrite H. split; [now exists later |].
      eexists [EvDate; EvFetch _; EvDate]. split.
      * simpl. rewrite <- !app_assoc. reflexivity.
      * constructor; [exact I |]. constructor; [exact Hcarries |].
        constructor; [exact I | constructor].
    + destruct H as [e ->]. split; [now exists later |].
      eexists [EvDate; EvFetch _]. split.
      * simpl. rewrite <- !app_assoc. reflexivity.
      * constructor; [exact I |]. constructor; [exact Hcarries | constructor].
  - rewrite sendMessage_unconfigured by assumption. split; [now exists later |].
    exists []. split; [simpl; now rewrite app_nil_r | constructor].
Qed.

Lemma round_sends msgs tools opening r : keeps (sends msgs tools opening) (round msgs r).
Proof.
  unfold Llm.round, Llm.surface_thinking, Llm.execute_tool, push_toolResult.
  repeat first [ apply call_back_sends | apply notify_sends
               | apply await_sends; exact I
               | apply sends_push
               | apply sends_silent; reflexivity | keeps_step ].
Qed.

Lemma agentic_loop_sends fuel msgs tools opening r :
  keeps (sends msgs tools opening) (agentic_loop fuel msgs tools r).
Proof.
  revert r. induction fuel as [| fuel IH]; intros r; simpl.
  - destruct (stop_reason r); keeps_step.
  - destruct (stop_reason r); try keeps_step.
    + apply round_sends.
    + apply keeps_bind; [typeclasses eauto | | intros r'; apply IH].
      apply sendMessage_sends.
Qed.

(** X4: every request that a run of [chat] sends to the engine, the first
    one and the one after each round, carries the configured model, a
    token limit of 4096, the system prompt, the converted tools, and a
    message list that starts with the caller's history followed by the
    user's message; this holds whatever way the run ends. *)
Theorem every_request_carries_the_conversation (fuel : nat) (userMessage : string)
    (conversationHistory : loc) (mcpTools : list MCPTool) (st : State)
    (history : list AnthropicMessage) :
  heap st !! conversationHistory = Some history ->
  exists evs,
    trace (snd (chat fuel userMessage conversationHistory mcpTools st)) = trace st ++ evs
    /\ Forall (carries (mcpToolsToAnthropic mcpTools)
                 (history ++ [{| role := user; message_content := Plain userMessage |}]))
         evs.
Proof.
  intros Hheap.
  set (tools := mcpToolsToAnthropic mcpTools).
  set (opening := history ++ [{| role := user; message_content := Plain userMessage |}]).
  set (msgs := fresh (dom (heap st))).
  unfold Llm.chat. fold tools.
  erewrite bind_normal by reflexivity.
  erewrite bind_normal by reflexivity.
  erewrite bind_normal by reflexivity.
  set (s0 := log_event EvDate (set_logEntries [] (set_toolCalls [] st))).
  assert (Hspread :
    spread_with conversationHistory
      {| role := user; message_content := Plain userMessage |} s0
    = (Normal msgs, set_heap (<[msgs := opening]> (heap st)) s0)).
  { unfold spread_with, bind, get, modify, ret.
    cbn [heap s0 log_event set_logEntries set_toolCalls].
    rewrite Hheap. reflexivity. }
  rewrite (bind_normal _ _ _ _ _ Hspread).
  set (s1 := set_heap (<[msgs := opening]> (heap st)) s0).
  match goal with
  | |- exists evs, trace (snd (?m s1)) = _ /\ _ =>
      assert (Hk : keeps (sends msgs tools opening) m)
  end.
  { repeat first [ apply sendMessage_sends | apply agentic_loop_sends
                 | apply now_sends | keeps_step ]. }
  destruct (Hk s1) as (_ & evs & Hevs & F).
  { exists []. subst s1. simpl. rewrite lookup_insert_eq. now rewrite app_nil_r. }
  exists (EvDate :: evs). split.
  - rewrite Hevs. subst s1 s0. simpl. now rewrite <- app_assoc.
  - constructor; [exact I | exact F].
Qed.

(** X5: without an API key ([hasLLMConfig()] is false) a run of [chat]
    throws "Anthropic API key not configured" before anything leaves the
    browser: it has read the clock once, and has sent no request, called
    no tool and made no progress update; the caller's history is as it
    was. *)
Theorem no_request_without_an_api_key (fuel : nat) (userMessage : string)
    (conversationHistory : loc) (mcpTools : list MCPTool) (st : State)
    (history : list AnthropicMessage) :
  hasLLMConfig = false ->
  heap st !! conversationHistory = Some history ->
  exists st',
    chat fuel userMessage conversationHistory mcpTools st
    = (Throw (JSError "Anthropic API key not configured"), st')
    /\ trace st' = trace st ++ [EvDate]
    /\ heap st' !! conversationHistory = Some history.
Proof.
  intros Hkey Hheap. unfold Llm.hasLLMConfig in Hkey.
  set (msgs := fresh (dom (heap st))).
  assert (Hfresh : heap st !! msgs = None).
  { apply not_elem_of_dom. apply is_fresh. }
  unfold Llm.chat.
  erewrite bind_normal by reflexivity.
  erewrite bind_normal by reflexivity.
  erewrite bind_normal by reflexivity.
  set (s0 := log_event EvDate (set_logEntries [] (set_toolCalls [] st))).
  assert (Hspread :
    spread_with conversationHistory
      {| role := user; message_content := Plain userMessage |} s0
    = (Normal msgs,
       set_heap (<[msgs := history ++ [{| role := user; message_content := Plain userMessage |}]]>
                   (heap st)) s0)).
  { unfold spread_with, bind, get, modify, ret.
    cbn [heap s0 log_event set_logEntries set_toolCalls].
    rewrite Hheap. reflexivity. }
  rewrite (bind_normal _ _ _ _ _ Hspread).
  erewrite bind_throw by (apply sendMessage_unconfigured; exact Hkey).
  eexists. split; [reflexivity |]. split; [reflexivity |].
  simpl. rewrite lookup_insert_ne; [exact Hheap |].
  intros ->. congruence.
Qed.

(** *** The tools offered to the engine *)

Lemma or_string_nonempty (s : option string) (d : string) :
  d <> "" -> or_string s d <> "".
Proof.
  intros Hd. unfold or_string, truthy_string.
  destruct s as [t |]; [| exact Hd].
  destruct (String.eqb_spec t ""); simpl; assumption.
Qed.

(** X6: [mcpToolsToAnthropic] converts tool by tool, in order, keeping
    each name; a description is kept when it is there and not empty, and
    is "Tool: " followed by the name when it is missing or empty, so that
    no converted tool has an empty description; an input schema is kept
    when it is there and truthy, and is [{type: "object", properties: {}}]
    when it is missing or falsy, so that every converted tool has one. *)
Theorem converted_tools_are_complete (mcpTools : list MCPTool) :
  map tool_name (mcpToolsToAnthropic mcpTools) = map name mcpTools
  /\ Forall (fun t => tool_description t <> "" /\ truthy (input_schema t) = true)
       (mcpToolsToAnthropic mcpTools)
  /\ forall (i : nat) (tool : MCPTool),
       mcpTools !! i = Some tool ->
       exists t,
         mcpToolsToAnthropic mcpTools !! i = Some t
         /\ (forall d, description tool = Some d -> d <> "" -> tool_description t = d)
         /\ (description tool = None \/ description tool = Some "" ->
             tool_description t = String.append "Tool: " (name tool))
         /\ (forall schema, inputSchema tool = Some schema -> truthy schema = true ->
                            input_schema t = schema)
         /\ (inputSchema tool = None
             \/ (exists schema, inputSchema tool = Some schema /\ truthy schema = false) ->
             input_schema t
             = JSObject [("type", JSString "object"); ("properties", JSObject [])]).
Proof.
  unfold mcpToolsToAnthropic. split; [| split].
  - rewrite map_map. reflexivity.
  - apply Forall_map. apply Forall_forall. intros tool _. simpl. split.
    + apply or_string_nonempty. discriminate.
    + destruct (inputSchema tool) as [schema |]; [| reflexivity].
      destruct (truthy schema) eqn:E; [exact E | reflexivity].
  - intros i tool Hi. eexists. split.
    + change (@map MCPTool) with (@fmap list _ MCPTool).
      rewrite list_lookup_fmap, Hi. reflexivity.
    + simpl. split; [| split; [| split]].
      * intros d -> Hd. unfold or_string, truthy_string.
        destruct (String.eqb_spec d ""); [contradiction | reflexivity].
      * intros [-> | ->]; reflexivity.
      * intros schema -> Hs. now rewrite Hs.
      * intros [-> | (schema & -> & Hs)]; [reflexivity | now rewrite Hs].
Qed.

(** *** The page's handler of progress updates *)

Section PageFacts.

Import ChatPage.

Lemma same_name_refl a : same_name a a = true.
Proof. destruct a; simpl; [apply String.eqb_refl | reflexivity]. Qed.

Lemma settle_last_snoc name s steps step :
  is_pending_for name step = true ->
  settle_last name s (steps ++ [step]) = steps ++ [set_status s step].
Proof.
  intros H. unfold settle_last. rewrite rev_unit. simpl. rewrite H. simpl.
  now rewrite rev_involutive.
Qed.

(** A tool step that is started and then finished ends up complete or
    in error, whatever the steps before it. *)
Lemma start_then_finish n1 n2 toolUse u steps :
  finishes toolUse u ->
  exists step,
    handleInterimUpdate n2 u (handleInterimUpdate n1 (start_update toolUse) steps)
    = steps ++ [step]
    /\ is_pending step = false
    /\ is_tool_step step = true
    /\ step_toolName step = block_name toolUse.
Proof.
  intros [[res ->] | [err ->]]; unfold handleInterimUpdate;
    cbn [update_type start_update complete_update error_update toolName];
    (rewrite settle_last_snoc;
     [| unfold is_pending_for; cbn [step_toolName status];
        now rewrite same_name_refl]);
    eexists; (split; [reflexivity |]); repeat split.
Qed.

Lemma steps_after_tools Date_now blocks ends :
  Forall2 finishes blocks ends ->
  forall handled steps,
  exists added,
    steps_after Date_now handled (tool_updates blocks ends) steps = steps ++ added
    /\ Forall (fun step => is_pending step = false) added
    /\ Forall (fun step => is_tool_step step = true) added
    /\ map step_toolName added = map block_name blocks.
Proof.
  induction 1 as [| toolUse u blocks ends Hfin _ IH]; intros handled steps.
  - exists []. simpl. rewrite app_nil_r. repeat split; constructor.
  - unfold tool_updates. cbn [zip_with concat app steps_after].
    destruct (start_then_finish
                (Date_now (handled ++ [start_update toolUse]))
                (Date_now ((handled ++ [start_update toolUse]) ++ [u]))
                toolUse u steps Hfin) as (step & -> & Hp & Ht & Hn).
    destruct (IH ((handled ++ [start_update toolUse]) ++ [u]) (steps ++ [step]))
      as (added & Hrun & Hps & Hts & Hns).
    exists (step :: added). unfold tool_updates in Hrun. rewrite Hrun.
    rewrite <- app_assoc. simpl. repeat split; try (constructor; assumption).
    now rewrite Hn, Hns.
Qed.

Lemma updates_of_app evs1 evs2 :
  updates_of (evs1 ++ evs2) = updates_of evs1 ++ updates_of evs2.
Proof. apply omap_app. Qed.

Lemma steps_after_app Date_now us1 us2 :
  forall handled steps,
    steps_after Date_now handled (us1 ++ us2) steps
    = steps_after Date_now (handled ++ us1) us2 (steps_after Date_now handled us1 steps).
Proof.
  induction us1 as [| u us1 IH]; intros handled steps; simpl.
  - now rewrite app_nil_r.
  - rewrite IH, <- app_assoc. reflexivity.
Qed.

(** With a callback that returns, the execution of a tool use goes
    through a start update, the call, and one finishing update. *)
Lemma execute_tool_updates cb toolUse st :
  onInterimUpdate = Some cb ->
  callback_returns ->
  exists st' u,
    execute_tool toolUse st = (Normal tt, st')
    /\ trace st' = trace st ++ [EvUpdate (start_update toolUse); call_event toolUse; EvUpdate u]
    /\ finishes toolUse u.
Proof.
  intros Hcb Hq. unfold Llm.execute_tool.
  fold (start_update toolUse). fold (call_event toolUse).
  unfold bind at 1. rewrite notify_quiet by assumption.
  assert (Hupd : forall u, update_events u = [EvUpdate u]).
  { intros u. unfold Llm.update_events. now rewrite Hcb. }
  assert (Hend : forall u s, trace (notified u s) = trace s ++ [EvUpdate u]).
  { intros u s. destruct (notified_fields u s) as (_ & _ & _ & _ & H).
    now rewrite Hupd in H. }
  pose proof (Hend (start_update toolUse) st) as Ht.
  unfold try_catch, await. unfold bind at 1. unfold bind at 1.
  unfold modify at 1. cbv beta iota. unfold settle at 1.
  cbn [trace log_event]. rewrite Ht.
  destruct (callTool _) as [v | e].
  - unfold bind at 1. unfold modify at 1. cbv beta iota.
    unfold bind at 1. unfold settle at 1.
    destruct (JSON_stringify v) as [str | e].
    + unfold bind at 1; unfold push_toolResult at 1; unfold modify at 1.
      cbv beta iota. fold (complete_update toolUse v).
      rewrite notify_quiet by exact Hq.
      eexists _, (complete_update toolUse v). split; [reflexivity |].
      split; [| left; now exists v].
      rewrite Hend. cbn [trace set_toolResults set_toolCalls log_event].
      rewrite Ht, <- !app_assoc. reflexivity.
    + unfold bind at 1; unfold push_toolResult at 1; unfold modify at 1.
      cbv beta iota. fold (error_update toolUse e).
      rewrite notify_quiet by exact Hq.
      eexists _, (error_update toolUse e). split; [reflexivity |].
      split; [| right; now exists e].
      rewrite Hend. cbn [trace set_toolResults set_toolCalls log_event].
      rewrite Ht, <- !app_assoc. reflexivity.
  - unfold bind at 1; unfold push_toolResult at 1; unfold modify at 1.
    cbv beta iota. fold (error_update toolUse e).
    rewrite notify_quiet by exact Hq.
    eexists _, (error_update toolUse e). split; [reflexivity |].
    split; [| right; now exists e].
    rewrite Hend. cbn [trace set_toolResults set_toolCalls log_event].
    rewrite Ht, <- !app_assoc. reflexivity.
Qed.

Lemma tools_loop_updates cb blocks st :
  onInterimUpdate = Some cb ->
  callback_returns ->
  exists st' evs ends,
    for_of blocks execute_tool st = (Normal tt, st')
    /\ trace st' = trace st ++ evs
    /\ Forall2 finishes blocks ends
    /\ updates_of evs = tool_updates blocks ends.
Proof.
  intros Hcb Hq. revert st. induction blocks as [| b blocks IH]; intros st.
  - exists st, [], []. simpl. rewrite app_nil_r. repeat split. constructor.
  - destruct (execute_tool_updates cb b st Hcb Hq) as (s1 & u & Hrun & Htr & Hfin).
    destruct (IH s1) as (s2 & evs & ends & Hrun2 & Htr2 & Hfins & Hups).
    exists s2, ([EvUpdate (start_update b); call_event b; EvUpdate u] ++ evs), (u :: ends).
    split; [simpl; now rewrite (bind_normal _ _ _ _ _ Hrun) |].
    split; [rewrite Htr2, Htr, <- app_assoc; reflexivity |].
    split; [now constructor |].
    rewrite updates_of_app, Hups. reflexivity.
Qed.

(** X7: the page's handler, fed the progress updates of a round in the
    order [chat] makes them, adds one step for the thinking update (when
    there is one) and one step per tool use, in order and under the
    tool's name; it leaves none of the steps it adds pending (each tool
    step is complete or in error by the time the round ends) and does not
    touch the steps that were there before. *)
Theorem round_leaves_no_step_pending (msgs : loc) (r : AnthropicResponse) (st : State)
    (cb : list Event -> option JSValue) (Date_now : list InterimUpdate -> Z)
    (prev : list ThinkingStep) :
  onInterimUpdate = Some cb ->
  callback_returns ->
  exists evs added,
    trace (snd (round msgs r st)) = trace st ++ evs
    /\ steps_after Date_now [] (updates_of evs) prev = prev ++ added
    /\ Forall (fun step => is_pending step = false) added
    /\ map step_toolName (List.filter is_tool_step added)
       = map block_name (List.filter (is_type tool_use_block) (response_content r))
    /\ length added
       = (length (thinking_events r)
          + length (List.filter (is_type tool_use_block) (response_content r)))%nat.
Proof.
  intros Hcb Hq. unfold Llm.round.
  destruct (surface_thinking_quiet r st Hq) as (s1 & Hth & _ & Ht1).
  rewrite (bind_normal _ _ _ _ _ Hth).
  erewrite bind_normal by reflexivity.
  destruct (tools_loop_updates cb
              (List.filter (is_type tool_use_block) (response_content r))
              (set_toolResults [] s1) Hcb Hq)
    as (s2 & evs & ends & Hrun & Ht2 & Hfins & Hups).
  rewrite (bind_normal _ _ _ _ _ Hrun).
  erewrite bind_normal by reflexivity.
  erewrite bind_normal by reflexivity.
  cbn [snd modify trace heap_push set_heap]. simpl in Ht2.
  destruct (steps_after_tools Date_now _ _ Hfins
              (updates_of (thinking_events r))
              (steps_after Date_now [] (updates_of (thinking_events r)) prev))
    as (added & Hsteps & Hps & Hts & Hns).
  assert (Hthink : exists first,
             steps_after Date_now [] (updates_of (thinking_events r)) prev = prev ++ first
             /\ Forall (fun step => is_pending step = false) first
             /\ List.filter is_tool_step first = []
             /\ length first = length (thinking_events r)).
  { unfold Llm.thinking_events. destruct (surfaces_thinking r); simpl.
    - eexists [_]. split; [reflexivity |]. repeat split. now repeat constructor.
    - exists []. rewrite app_nil_r. repeat split. constructor. }
  destruct Hthink as (first & Hfirst & Hp1 & Hf1 & Hl1).
  exists (thinking_events r ++ evs), (first ++ added).
  split; [rewrite Ht2, Ht1; now rewrite app_assoc |].
  split.
  { rewrite updates_of_app, steps_after_app, Hups. simpl.
    rewrite Hsteps, Hfirst. now rewrite app_assoc. }
  split; [now apply Forall_app |].
  split.
  { rewrite List.filter_app, Hf1. simpl.
    assert (Hall : List.filter is_tool_step added = added).
    { clear -Hts. induction Hts as [| step added Hstep _ IH]; simpl; [reflexivity |].
      now rewrite Hstep, IH. }
    now rewrite Hall. }
  rewrite length_app, Hl1. f_equal.
  rewrite <- (length_map step_toolName), Hns. apply length_map.
Qed.

Lemma by_pairs {A} (P : list A -> Prop) :
  P [] -> (forall a, P [a]) -> (forall a b l, P l -> P (a :: b :: l)) ->
  forall l, P l.
Proof.
  intros H0 H1 H2. fix IH 1.
  intros [| a [| b l]]; [exact H0 | apply H1 | apply H2, IH].
Qed.

(** Every request entry of a log of exchanges refers to the same array:
    the loop over the log reads that array once per exchange. *)
Lemma extractedQueries_of_exchanges store msgs log :
  exchanges msgs log = true ->
  extractedQueries store log
  = concat (replicate (length (recorded log))
              (flat_map queries_of_message (default [] (store !! msgs)))).
Proof.
  induction log as [| a | req resp log IH] using by_pairs; intros H.
  - reflexivity.
  - discriminate.
  - cbn [Llm.exchanges] in H.
    apply andb_prop in H as [H Hrest]. apply andb_prop in H as [Hreq Hresp].
    specialize (IH Hrest).
    unfold is_request_at in Hreq. unfold is_response_to in Hresp.
    unfold extractedQueries, recorded in *. cbn [flat_map omap list_omap].
    destruct (entry_type req); try discriminate.
    destruct (data req) as [body |]; try discriminate.
    destruct (duration req); try discriminate.
    apply Pos.eqb_eq in Hreq. rewrite Hreq.
    destruct (entry_type resp); try discriminate.
    destruct (data resp) as [| r]; try discriminate.
    cbn [app length replicate concat]. now rewrite IH.
Qed.

(** X8: when a run of [chat] returns, the queries that the page extracts
    from its debug log are the queries of the message array as the run
    left it (the [tool_use] blocks named "queryData" whose input has a
    truthy [query]), repeated once per request of the run: every request
    entry of the log holds that one array, not a copy of it as it was at
    the time of the request. *)
Theorem extracted_queries_repeat_per_request (fuel : nat) (userMessage : string)
    (conversationHistory : loc) (mcpTools : list MCPTool) (st st' : State)
    (res : ChatResult) :
  chat fuel userMessage conversationHistory mcpTools st = (Normal res, st') ->
  exists msgs final,
    heap st !! msgs = None
    /\ heap st' !! msgs = Some final
    /\ extractedQueries (heap st') (entries (debugLogs res))
       = concat (replicate (length (recorded (entries (debugLogs res))))
                   (flat_map queries_of_message final)).
Proof.
  intros H.
  apply chat_returns in H as (msgs & sB & r1 & r & sD & HB & _ & HD & Hst' & _ & _ & Hlog).
  apply spread_with_returns in HB as (history & _ & Hmsgs & HsB).
  pose proof (agentic_loop_sends fuel msgs (mcpToolsToAnthropic mcpTools)
                (history ++ [{| role := user; message_content := Plain userMessage |}])
                r1 (responded msgs (mcpToolsToAnthropic mcpTools) (Some system) sB r1))
    as Hsends.
  rewrite HD in Hsends. cbn [snd] in Hsends.
  destruct Hsends as ((later & Hfinal) & _).
  { exists []. subst sB. simpl. rewrite lookup_insert_eq. now rewrite app_nil_r. }
  apply agentic_loop_log in HD as (new & earlier & Hnew & Hex & _).
  exists msgs, ((history ++ [{| role := user; message_content := Plain userMessage |}]) ++ later).
  split.
  { subst msgs. apply not_elem_of_dom. apply is_fresh. }
  split; [subst st'; exact Hfinal |].
  rewrite (extractedQueries_of_exchanges _ msgs).
  - subst st'. cbn [heap log_event]. now rewrite Hfinal.
  - rewrite Hlog, Hnew, responded_log. subst sB.
    cbn [logEntries set_heap log_event set_logEntries app].
    now rewrite exchange_entries.
Qed.

End PageFacts.

End ChatFacts.

Section ChatRuns.

Import Llm AsciiRuntime Scenario.

Lemma listener_returns : callback_returns (Some listener).
Proof. intros cb [= <-] tr. reflexivity. Qed.

(** C1 fails on the code when the progress callback throws while it
    handles [tool_complete]: the engine asked for one tool, the tool
    succeeded, and the user message of the next request carries two
    result blocks for that one tool use, the second an error. *)
Theorem listener_failure_duplicates_tool_result :
  let run := chat "key" "claude" wall_clock (scripted asks_one_tool [answer])
               tool_succeeds (Some listener_failing_on_complete)
               5 question history [] start in
  map id (List.filter (is_type tool_use_block) (response_content asks_one_tool))
  = [Some "toolu_1"]
  /\ blocks_of (last (last_request (trace (snd run))))
     = [ (Some "toolu_1", stringify (JSArray [JSObject [("AccountId", JSString "1");
                                                        ("count", JSNumber 3)]]));
         (Some "toolu_1", Some "Error: render failed") ]
  /\ exists res, fst run = Normal res
                 /\ final_response res = "Account 1 has 3 open tickets.".
Proof.
  split; [reflexivity |]. split; [vm_compute; reflexivity |].
  eexists. split; vm_compute; reflexivity.
Qed.

Lemma listener_returns_outside_try : returns_outside_try (Some listener_failing_on_complete).
Proof.
  intros cb [= <-] tr u Hu. unfold listener_failing_on_complete.
  rewrite last_last. destruct (update_type u); congruence.
Qed.



(** The theorem of C3 on a run of three exchanges. *)
Lemma token_totals_witness :
  let run := chat "key" "claude" wall_clock
               (scripted asks_one_tool [asks_one_tool; answer])
               tool_succeeds (Some listener) 5 question history [] start in
  exists res st',
    run = (Normal res, st')
    /\ recorded (entries (debugLogs res)) = [asks_one_tool; asks_one_tool; answer]
    /\ totalInputTokens (debugLogs res) = 90
    /\ totalOutputTokens (debugLogs res) = 33.
Proof.
  cbv zeta. eexists _, _. split; [vm_compute; reflexivity |].
  match goal with
  | |- recorded (entries (debugLogs ?res)) = _ /\ _ =>
      pose proof (fun st' H =>
                    token_totals_sum_the_responses "key" "claude" wall_clock
                      (scripted asks_one_tool [asks_one_tool; answer])
                      tool_succeeds (Some listener) 5 question history [] start st' res H)
        as Hsum
  end.
  specialize (Hsum _ ltac:(vm_compute; reflexivity)).
  cbv zeta in Hsum. destruct Hsum as (Hin & Hout & _).
  split; [vm_compute; reflexivity |].
  rewrite Hin, Hout. split; vm_compute; reflexivity.
Defined.

(** The theorem of C4 on an engine that answers at once, in two text
    blocks, with no fuel for the loop at all: the text returned is the
    two texts with a newline between them. *)
Lemma end_turn_witness :
  let run := chat "key" "claude" wall_clock (scripted answer_in_two_parts [])
               tool_succeeds (Some listener) 0 question history [] start in
  stop_reason answer_in_two_parts = end_turn
  /\ exists res,
       fst run = Normal res
       /\ final_response res = "Account 1 has 3 open tickets.
Two of them are urgent."
       /\ result_toolCalls res = []
       /\ map entry_type (entries (debugLogs res)) = [request; response]
       /\ List.filter is_tool_call (trace (snd run)) = []
       /\ length (List.filter is_fetch (trace (snd run))) = 1%nat.
Proof.
  destruct (end_turn_on_first_call "key" "claude" wall_clock
              (scripted answer_in_two_parts [])
              tool_succeeds (Some listener) 0 question history [] start
              _ answer_in_two_parts eq_refl eq_refl eq_refl eq_refl)
    as (res & st' & Hrun & Htext & Hcalls & Hlog & _ & Htrace & _).
  cbv zeta. rewrite Hrun. split; [reflexivity |].
  exists res. cbn [fst snd]. rewrite Htext, Hcalls, Hlog, Htrace.
  repeat split; reflexivity.
Defined.

(** The theorem of C8 on a round whose response has a text block before
    and after its tool use: the round starts with one [thinking] update,
    whose content is the two texts with a newline between them, and the
    tool is called after it. *)
Lemma thinking_witness :
  let run := round tool_succeeds (Some listener) messages_of_run asks_with_two_texts asked in
  exists evs,
    trace (snd run)
    = EvUpdate (Spec.thinking_of "Let me look that up.
One moment.") :: evs
    /\ Forall not_thinking evs
    /\ length (List.filter is_tool_call evs) = 1%nat.
Proof.
  destruct (thinking_is_surfaced_once_before_tools (rt := runtime) tool_succeeds
              (Some listener) messages_of_run asks_with_two_texts asked)
    as (evs & Htrace & Hall).
  cbv zeta. exists evs. split; [exact Htrace |]. split; [exact Hall |].
  vm_compute in Htrace. injection Htrace as <-. reflexivity.
Defined.

(** C8 as stated fails on a response whose only text block is a blank:
    the response requests a tool and has a text block, a callback is
    supplied, the tool is executed and the run completes, and no
    [thinking] update is emitted. *)
Lemma blank_text_is_not_surfaced :
  let run := chat "key" "claude" wall_clock (scripted asks_with_blank_text [answer])
               tool_succeeds (Some listener) 5 question history [] start in
  stop_reason asks_with_blank_text = tool_use
  /\ List.filter (is_type text_block) (response_content asks_with_blank_text)
     = [text_of " "]
  /\ List.filter is_thinking (trace (snd run)) = []
  /\ length (List.filter is_tool_call (trace (snd run))) = 1%nat
  /\ exists res, fst run = Normal res.
Proof.
  split; [reflexivity |]. split; [reflexivity |].
  split; [vm_compute; reflexivity |]. split; [vm_compute; reflexivity |].
  eexists. vm_compute. reflexivity.
Qed.

(** The theorem of X1 on a run whose one round has two tool uses, the
    first of which is turned down: the result reports the second call
    only. *)
Lemma tool_calls_witness :
  let run := chat "key" "claude" wall_clock (scripted asks_two_tools [answer])
               first_tool_fails (Some listener) 5 question history [] start in
  exists res st',
    run = (Normal res, st')
    /\ result_toolCalls res = fulfilled first_tool_fails [] (trace st')
    /\ map call_name (result_toolCalls res) = [Some "queryData"]
    /\ length (List.filter is_tool_call (trace st')) = 2%nat.
Proof.
  cbv zeta. eexists _, _. split; [vm_compute; reflexivity |].
  match goal with
  | |- result_toolCalls ?res = fulfilled _ _ (trace ?st') /\ _ =>
      destruct (tool_calls_are_the_fulfilled_calls (rt := runtime) "key" "claude" wall_clock
                  (scripted asks_two_tools [answer]) first_tool_fails (Some listener)
                  5 question history [] start st' res
                  ltac:(vm_compute; reflexivity)) as (evs & Htrace & Hcalls)
  end.
  change (trace start ++ evs) with evs in Htrace. rewrite <- Htrace in Hcalls.
  split; [exact Hcalls |]. split; vm_compute; reflexivity.
Defined.

(** The theorem of X2 on a run of two exchanges. *)
Lemma debug_log_witness :
  let run := chat "key" "claude" wall_clock (scripted asks_one_tool [answer])
               tool_succeeds (Some listener) 5 question history [] start in
  exists res st',
    run = (Normal res, st')
    /\ map entry_type (entries (debugLogs res)) = [request; response; request; response]
    /\ (exists msgs, exchanges msgs (entries (debugLogs res)) = true)
    /\ length (recorded (entries (debugLogs res))) = 2%nat.
Proof.
  cbv zeta. eexists _, _. split; [vm_compute; reflexivity |].
  match goal with
  | |- map entry_type (entries (debugLogs ?res)) = _ /\ _ =>
      destruct (debug_log_is_a_sequence_of_exchanges (rt := runtime) "key" "claude" wall_clock
                  (scripted asks_one_tool [answer]) tool_succeeds (Some listener)
                  5 question history [] start _ res
                  ltac:(vm_compute; reflexivity)) as (msgs & _ & Hex & Hlen)
  end.
  split; [vm_compute; reflexivity |].
  split; [exists msgs; exact Hex |].
  vm_compute; reflexivity.
Defined.

(** The theorem of X3 on a run of three exchanges: two rounds, then an
    answer in two text blocks. *)
Lemma final_response_witness :
  let run := chat "key" "claude" wall_clock
               (scripted asks_with_two_texts [asks_one_tool; answer_in_two_parts])
               tool_succeeds (Some listener) 5 question history [] start in
  exists res st',
    run = (Normal res, st')
    /\ recorded (entries (debugLogs res))
       = [asks_with_two_texts; asks_one_tool] ++ [answer_in_two_parts]
    /\ final_response res = "Account 1 has 3 open tickets.
Two of them are urgent.".
Proof.
  cbv zeta. eexists _, _. split; [vm_compute; reflexivity |].
  match goal with
  | |- recorded (entries (debugLogs ?res)) = _ /\ _ =>
      destruct (final_response_is_the_last_answer (rt := runtime) "key" "claude" wall_clock
                  (scripted asks_with_two_texts [asks_one_tool; answer_in_two_parts])
                  tool_succeeds (Some listener)
                  5 question history [] start _ res
                  ltac:(vm_compute; reflexivity))
        as (earlier & final & Hrec & _ & _ & Htext)
  end.
  assert (Hrec' : earlier ++ [final]
                  = [asks_with_two_texts; asks_one_tool] ++ [answer_in_two_parts])
    by (rewrite <- Hrec; vm_compute; reflexivity).
  apply app_inj_tail in Hrec' as [_ ->].
  split; [vm_compute; reflexivity |].
  rewrite Htext. vm_compute; reflexivity.
Defined.

(** The theorem of X4 on a run of two exchanges: both requests carry the
    model and the system prompt and start with the history and the
    question. *)
Lemma every_request_witness :
  let run := chat "key" "claude" wall_clock (scripted asks_one_tool [answer])
               tool_succeeds (Some listener) 5 question history [] start in
  heap start !! history
  = Some [ {| role := user; message_content := Plain "Hello" |};
           {| role := assistant; message_content := Plain "Hi!" |} ]
  /\ Forall (carries "claude" []
               [ {| role := user; message_content := Plain "Hello" |};
                 {| role := assistant; message_content := Plain "Hi!" |};
                 {| role := user; message_content := Plain question |} ])
       (trace (snd run))
  /\ length (List.filter is_fetch (trace (snd run))) = 2%nat.
Proof.
  cbv zeta. split; [reflexivity |].
  destruct (every_request_carries_the_conversation "key" "claude" wall_clock
              (scripted asks_one_tool [answer]) tool_succeeds (Some listener)
              5 question history [] start _ eq_refl) as (evs & Htrace & Hall).
  change (trace start ++ evs) with evs in Htrace. rewrite <- Htrace in Hall.
  split; [exact Hall | vm_compute; reflexivity].
Defined.

(** The theorem of X5 on the empty key. *)
Lemma no_api_key_witness :
  let run := chat "" "claude" wall_clock (scripted answer []) tool_succeeds
               (Some listener) 5 question history [] start in
  hasLLMConfig "" = false
  /\ fst run = Throw (JSError "Anthropic API key not configured")
  /\ trace (snd run) = [EvDate].
Proof.
  cbv zeta. split; [reflexivity |].
  destruct (no_request_without_an_api_key "" "claude" wall_clock (scripted answer [])
              tool_succeeds (Some listener) 5 question history [] start _
              eq_refl eq_refl) as (st' & Hrun & Htrace & _).
  rewrite Hrun. split; [reflexivity | exact Htrace].
Defined.

(** The theorem of X6 on three tools: the first is kept as it is, the
    other two get the default description and the default schema. *)
Lemma converted_tools_witness :
  mcpToolsToAnthropic offered_tools
  = [ {| tool_name := "queryData"; tool_description := "Run a SQL query";
         input_schema := JSObject [("type", JSString "object");
                                   ("required", JSArray [JSString "query"])] |};
      {| tool_name := "getTables"; tool_description := "Tool: getTables";
         input_schema := JSObject [("type", JSString "object");
                                   ("properties", JSObject [])] |};
      {| tool_name := "getColumns"; tool_description := "Tool: getColumns";
         input_schema := JSObject [("type", JSString "object");
                                   ("properties", JSObject [])] |} ].
Proof.
  destruct (converted_tools_are_complete offered_tools) as (Hnames & _ & Hat).
  destruct (Hat 0%nat _ eq_refl) as (t0 & H0 & Hd0 & _ & Hs0 & _).
  destruct (Hat 1%nat _ eq_refl) as (t1 & H1 & _ & Hd1 & _ & Hs1).
  destruct (Hat 2%nat _ eq_refl) as (t2 & H2 & _ & Hd2 & _ & Hs2).
  specialize (Hd0 _ eq_refl ltac:(discriminate)). specialize (Hs0 _ eq_refl eq_refl).
  specialize (Hd1 (or_introl eq_refl)). specialize (Hs1 (or_introl eq_refl)).
  specialize (Hd2 (or_intror eq_refl)).
  specialize (Hs2 (or_intror (ex_intro _ JSNull (conj eq_refl eq_refl)))).
  assert (Hlist : mcpToolsToAnthropic offered_tools = [t0; t1; t2]).
  { apply list_eq. intros [| [| [| n]]]; [exact H0 | exact H1 | exact H2 | reflexivity]. }
  rewrite Hlist in Hnames |- *. injection Hnames as Hn0 Hn1 Hn2.
  destruct t0, t1, t2. cbn in *. now subst.
Defined.

(** The theorem of X7 on a round of two tool uses, the first of which is
    turned down: the page ends with one step in error and one complete. *)
Lemma round_steps_witness :
  let run := round first_tool_fails (Some listener) messages_of_run asks_two_tools asked in
  let steps :=
    ChatPage.steps_after (fun handled => Z.of_nat (length handled)) []
      (ChatPage.updates_of (trace (snd run))) [] in
  callback_returns (Some listener)
  /\ map ChatPage.status steps = [ChatPage.Error; ChatPage.Complete]
  /\ map ChatPage.step_toolName steps = [Some "queryData"; Some "queryData"].
Proof.
  cbv zeta.
  destruct (round_leaves_no_step_pending first_tool_fails (Some listener)
              messages_of_run asks_two_tools asked listener
              (fun handled => Z.of_nat (length handled)) []
              eq_refl listener_returns) as (evs & added & Htrace & _).
  split; [exact listener_returns |].
  split; vm_compute; reflexivity.
Defined.

(** The theorem of X8 on a run of one round that asks for one query: the
    run made two requests, and the page extracts the query twice. *)
Lemma extracted_queries_witness :
  let run := chat "key" "claude" wall_clock (scripted asks_one_tool [answer])
               tool_succeeds (Some listener) 5 question history [] start in
  exists res st',
    run = (Normal res, st')
    /\ length (recorded (entries (debugLogs res))) = 2%nat
    /\ ChatPage.extractedQueries (heap st') (entries (debugLogs res))
       = [ {| ChatPage.sql := JSString "SELECT 1";
              ChatPage.query_toolName := Some "queryData" |};
           {| ChatPage.sql := JSString "SELECT 1";
              ChatPage.query_toolName := Some "queryData" |} ].
Proof.
  cbv zeta. eexists _, _. split; [vm_compute; reflexivity |].
  match goal with
  | |- _ /\ ChatPage.extractedQueries (heap ?st') (entries (debugLogs ?res)) = _ =>
      destruct (extracted_queries_repeat_per_request (rt := runtime) "key" "claude" wall_clock
                  (scripted asks_one_tool [answer]) tool_succeeds (Some listener)
                  5 question history [] start st' res
                  ltac:(vm_compute; reflexivity))
        as (msgs & final & _ & _ & Hq)
  end.
  split; vm_compute; reflexivity.
Defined.

End ChatRuns.
